(** * Gen3/Terra data utility: the consolidation engine

    A shallow embedding of [terra_data_util_update.py]: the column namer,
    the table fetcher and uploader with their retry decorators, the
    deduplicator, the merge planner and the join engine, followed by the
    properties of the engine that the design document states.

    Python objects are modelled as follows.
    - A pandas [DataFrame] is its list of column names and its list of rows;
      a row is an index label and the list of its cells.
    - A [dict] is a [gmap] from [string]; a [set] of strings is a [gset].
    - A function that may raise returns a [result]; logging, sleeping and
      the calls made to the FireCloud service are recorded in a trace.
    - The FireCloud service is a record of oracles ([Workspace]).
    - [pandas.DataFrame.merge] is library code: the engine is parametric in
      it, and [merge_ref] gives a reference implementation of single-key
      joins for concrete runs. *)

From Stdlib Require Import ZArith Lia.
From stdpp Require Import base strings list gmap.

Local Open Scope string_scope.
Local Open Scope list_scope.

(** ** Scalars and data frames *)

Inductive value :=
| VNull
| VStr (s : string)
| VNum (z : Z).

#[global] Instance value_eq_dec : EqDecision value.
Proof. solve_decision. Defined.

(** A row is [(label, cells)]: the label is the row's entry in [df.index]. *)
Abbreviation row := (nat * list value)%type.

Record DataFrame := mkDataFrame {
  columns : list string;
  rows : list row
}.

(** [df.shape] *)
Definition shape0 (df : DataFrame) : nat := length (rows df).
Definition shape1 (df : DataFrame) : nat := length (columns df).

(** [df.index] *)
Definition index (df : DataFrame) : list nat := map fst (rows df).

(** The body of a tab-separated response or request: a header line and the
    lines of cells. *)
Record tsv := mkTsv {
  header : list string;
  lines : list (list value)
}.

(** [pd.read_csv(io.StringIO(text), sep='\t')]: the frame gets the default
    index 0, 1, 2, ...  (Headers of Terra tables are attribute names and
    are pairwise distinct; pandas would rename repeated headers.) *)
Definition read_csv (t : tsv) : DataFrame :=
  {| columns := header t;
     rows := zip (seq 0 (length (lines t))) (lines t) |}.

(** [df.to_csv(sep="\t", index=False)]: the index is not written. *)
Definition to_csv (df : DataFrame) : tsv :=
  {| header := columns df; lines := map snd (rows df) |}.

(** [df.iloc[a:b]] *)
Definition iloc (df : DataFrame) (a b : nat) : DataFrame :=
  {| columns := columns df; rows := take (b - a) (drop a (rows df)) |}.

(** Position of the first column called [c]. *)
Fixpoint position (c : string) (cs : list string) : option nat :=
  match cs with
  | [] => None
  | c' :: cs' => if decide (c' = c) then Some 0 else S <$> position c cs'
  end.

Definition cell (i : nat) (r : row) : value := nth i (snd r) VNull.

(** [s.duplicated(keep="first")]: an entry is flagged when an equal entry
    occurs before it. *)
Fixpoint duplicated_from {A} `{EqDecision A} (seen l : list A) : list bool :=
  match l with
  | [] => []
  | x :: l' => bool_decide (x ∈ seen) :: duplicated_from (x :: seen) l'
  end.

Definition duplicated {A} `{EqDecision A} (l : list A) : list bool :=
  duplicated_from [] l.

(** Boolean-mask selection [xs[mask]]. *)
Fixpoint select {A} (mask : list bool) (xs : list A) : list A :=
  match mask, xs with
  | b :: mask', x :: xs' => if b then x :: select mask' xs' else select mask' xs'
  | _, _ => []
  end.

(** [df[mask]] for a boolean series computed from [df] itself. *)
Definition select_rows (df : DataFrame) (mask : list bool) : DataFrame :=
  {| columns := columns df; rows := select mask (rows df) |}.

(** [df.drop(labels)]: every row whose label is listed goes. *)
Definition drop_labels (df : DataFrame) (labels : list nat) : DataFrame :=
  {| columns := columns df;
     rows := List.filter (fun r => negb (bool_decide (fst r ∈ labels))) (rows df) |}.

(** [df.loc[:, ~df.columns.duplicated()]] *)
Definition drop_duplicated_columns (df : DataFrame) : DataFrame :=
  let keep := map negb (duplicated (columns df)) in
  {| columns := select keep (columns df);
     rows := map (fun r => (fst r, select keep (snd r))) (rows df) |}.

(** [series.isin(values)] *)
Definition isin (series values : list value) : list bool :=
  map (fun v => bool_decide (v ∈ values)) series.

(** ** Python values held by merge specifications *)

Inductive pyval :=
| PNone
| PBool (b : bool)
| PStr (s : string)
| PPair (x y : string).

#[global] Instance pyval_eq_dec : EqDecision pyval.
Proof. solve_decision. Defined.

(** Truth value of [if v:]. *)
Definition py_truthy (v : pyval) : bool :=
  match v with
  | PNone => false
  | PBool b => b
  | PStr s => negb (String.eqb s "")
  | PPair _ _ => true
  end.

(** [f"{v}"]; for a pair of strings, the [repr] of strings that hold no
    quote and no backslash. *)
Definition py_str (v : pyval) : string :=
  match v with
  | PNone => "None"
  | PBool true => "True"
  | PBool false => "False"
  | PStr s => s
  | PPair x y => "('" +:+ x +:+ "', '" +:+ y +:+ "')"
  end.

(** ** Exceptions, events and the effect monad *)

Inductive exn :=
| AssertionError (msg : string)
| KeyError (key : string)
| ValueError (msg : string)
| TypeError
| AttributeError
| MergeError
| ConnectionError
| FireCloudServiceException (code : Z)
| FireCloudServerError (code : Z).

#[global] Instance exn_eq_dec : EqDecision exn.
Proof. solve_decision. Defined.

(** The log records of the module, with the values that are formatted into
    them. *)
Inductive message :=
| MsgFinalIndexMissing
| MsgTableExists (entity_name : string) (nrows ncols : nat)
| MsgUploadStarting
| MsgUploadFinished
| MsgTableSize (entity_name : string) (nrows ncols : nat)
| MsgTruncation (df_rows df_cols : nat) (entity_name : string) (nrows ncols : nat)
| MsgSizeMismatch (df_rows df_cols : nat) (entity_name : string) (nrows ncols : nat)
| MsgRowCountIncreased (n : Z)
| MsgTableIgnored (table_name : string)
| MsgMerged (table_name : string) (on how : pyval) (nrows ncols : nat)
| MsgDuplicatesRemoved (count : nat) (table_name key : string) (ids : list value)
| MsgRetrying (seconds : Z).

Inductive event :=
| LogInfo (m : message)
| LogWarning (m : message)
| LogError (m : message)
| Stderr (s : string)
| Sleep (seconds : Z)
| Fetch (table_name : string) (attempt : nat)
| Upload (entity_tsv : tsv) (status : option Z).

Inductive result (A : Type) :=
| Ok (a : A)
| Raise (e : exn)
| Diverge.
Arguments Ok {A} a.
Arguments Raise {A} e.
Arguments Diverge {A}.

Definition M (A : Type) : Type := result A * list event.

Definition ret {A} (a : A) : M A := (Ok a, []).
Definition raise {A} (e : exn) : M A := (Raise e, []).
Definition emit (ev : event) : M unit := (Ok tt, [ev]).

Definition bind {A B} (m : M A) (k : A -> M B) : M B :=
  match m with
  | (Ok a, tr) => let '(r, tr') := k a in (r, tr ++ tr')
  | (Raise e, tr) => (Raise e, tr)
  | (Diverge, tr) => (Diverge, tr)
  end.

Notation "'let!' x ':=' m 'in' k" := (bind m (fun x => k))
  (at level 10, x pattern, m at level 100, k at level 200).
Notation "m ';;' k" := (bind m (fun _ => k))
  (at level 100, k at level 200, right associativity).

Definition outcome {A} (m : M A) : result A := fst m.
Definition trace {A} (m : M A) : list event := snd m.

(** [assert cond, msg] *)
Definition assert (cond : bool) (msg : string) : M unit :=
  if cond then ret tt else raise (AssertionError msg).

(** [output_now] *)
Definition output_now (message : string) : M unit := emit (Stderr message).

(** ** The retry decorator (tenacity)

    [@retry(reraise=True, stop=stop_after_attempt(n), wait=w, retry=p,
    before_sleep=before_sleep_log(logger, logging.INFO))]: the body is
    called; when it raises an exception accepted by [p] and fewer than [n]
    attempts were made, the decorator logs, sleeps [w attempt_number]
    seconds and calls the body again; otherwise the exception of the last
    attempt is raised as it is.  Attempts are numbered from 1.
    [wait_exponential(multiplier, min, max)] pauses
    [multiplier * 2 ** attempt_number] seconds after an attempt, kept
    within [min] and [max] (tenacity 6, the version the module asks for). *)

Definition wait_exponential (multiplier min max : Z) (attempt_number : nat) : Z :=
  Z.max (Z.max 0 min) (Z.min (multiplier * 2 ^ Z.of_nat attempt_number) max).

Fixpoint retry_from {A} (retry_on : exn -> bool) (wait : nat -> Z)
    (body : nat -> M A) (remaining attempt_number : nat) : M A :=
  match body attempt_number with
  | (Raise e, tr) =>
      match remaining with
      | S remaining' =>
          if retry_on e then
            let seconds := wait attempt_number in
            let '(r, tr') :=
              retry_from retry_on wait body remaining' (S attempt_number) in
            (r, tr ++ [LogInfo (MsgRetrying seconds); Sleep seconds] ++ tr')
          else (Raise e, tr)
      | 0 => (Raise e, tr)
      end
  | m => m
  end.

Definition retry {A} (stop_after_attempt : nat) (wait : nat -> Z)
    (retry_on : exn -> bool) (body : nat -> M A) : M A :=
  retry_from retry_on wait body (stop_after_attempt - 1) 1.

Definition retry_if_exception_type_FireCloudServerError (e : exn) : bool :=
  match e with FireCloudServerError _ => true | _ => false end.

(** No [retry=] argument: every exception is retried. *)
Definition retry_always (e : exn) : bool := true.

(** ** The FireCloud service *)

Inductive http (A : Type) :=
| Response (status_code : Z) (body : A)
| NetworkFailure.
Arguments Response {A} status_code body.
Arguments NetworkFailure {A}.

(** [count] and [attributeNames] of one entity type. *)
Definition entity_type_info : Type := nat * list string.

Record Workspace := mkWorkspace {
  (** [fapi.get_entities_tsv]: the answer to the given attempt of fetching
      a table. *)
  get_entities_tsv : string -> nat -> http tsv;
  (** [fapi.upload_entities]: the answer to the given attempt of writing a
      chunk. *)
  upload_entities : tsv -> nat -> http unit;
  (** [fapi.list_entity_types], after the given chunks were written. *)
  list_entity_types : list tsv -> http (gmap string entity_type_info);
  (** [DataTableInfo._data_table_info] when the run starts. *)
  _data_table_info : option (gmap string entity_type_info)
}.

(** ** The table registry ([DataTableInfo])

    The class caches the listing of the workspace.  Within one run the
    listing only changes through the run's own uploads, so what the class
    methods return is a function of the cache the run started with and of
    the chunks written so far. *)

(** [DataTableInfo.refresh] *)
Definition refresh (ws : Workspace) (written : list tsv)
    : M (gmap string entity_type_info) :=
  match list_entity_types ws written with
  | Response 200 body => ret body
  | Response code _ => raise (FireCloudServiceException code)
  | NetworkFailure => raise ConnectionError
  end.

(** The cache that [if not cls._data_table_info or refresh: cls.refresh()]
    leaves behind. *)
Definition loaded_info (ws : Workspace) (written : list tsv)
    (force : bool) : M (gmap string entity_type_info) :=
  match _data_table_info ws with
  | Some info =>
      if force || bool_decide (info = ∅) then refresh ws written else ret info
  | None => refresh ws written
  end.

(** [DataTableInfo.get_table_names] *)
Definition get_table_names (ws : Workspace) (written : list tsv)
    (force : bool) : M (gset string) :=
  let! info := loaded_info ws written force in
  ret (dom info).

(** [DataTableInfo.get_table_info]: row count and column count, [None]
    for a table that is not listed. *)
Definition get_table_info (ws : Workspace) (written : list tsv)
    (table_name : string) (force : bool) : M (option (nat * nat)) :=
  let! info := loaded_info ws written force in
  match info !! table_name with
  | Some (count, attributes) => ret (Some (count, length attributes + 1))
  | None => ret None
  end.

(** ** Table fetcher *)

(** The body of [get_terra_table_to_df], for one attempt. *)
Definition get_terra_table_to_df_body (ws : Workspace) (table_name : string)
    (attempt : nat) : M DataFrame :=
  emit (Fetch table_name attempt);;
  match get_entities_tsv ws table_name attempt with
  | Response 200 text => ret (read_csv text)
  | Response status_code _ => raise (FireCloudServiceException status_code)
  | NetworkFailure => raise ConnectionError
  end.

(** [get_terra_table_to_df], decorated with
    [@retry(reraise=True, stop=stop_after_attempt(3),
            wait=wait_exponential(multiplier=1, min=2, max=10), ...)]. *)
Definition get_terra_table_to_df (ws : Workspace) (table_name : string)
    : M DataFrame :=
  retry 3 (wait_exponential 1 2 10) retry_always
    (get_terra_table_to_df_body ws table_name).

(** ** Column namer *)

Definition GEN3_TABLE_NAMES : gset string :=
  list_to_set
    ["aligned_reads_index";
     "aliquot";
     "blood_pressure_test";
     "cardiac_mri";
     "demographic";
     "electrocardiogram_test";
     "exposure";
     "germline_variation_index";
     "lab_result";
     "medical_history";
     "medication";
     "program";
     "project";
     "read_group";
     (* the source has no comma between the next two literals *)
     "read_group_qc" +:+ "reference_file";
     "reference_file_index";
     "sample";
     "simple_germline_variation";
     "study";
     "subject";
     "submitted_aligned_reads";
     "submitted_cnv_array";
     "submitted_snp_array";
     "submitted_unaligned_reads"].

(** [get_entity_id_column_name] *)
Definition get_entity_id_column_name (entity_type : string) : string :=
  entity_type +:+ "_entity_id".

(** [rename_column]: [df.rename(columns={current: new}, inplace=True)]
    renames every column called [current]. *)
Definition rename_column (df : DataFrame) (current_column_name new_column_name : string)
    : DataFrame :=
  {| columns := map (fun c => if decide (c = current_column_name)
                              then new_column_name else c) (columns df);
     rows := rows df |}.

(** One turn of the loop [for column in columns[1:]]. *)
Definition rename_step (table_name : string) (table_df : DataFrame)
    (column : string) : DataFrame :=
  if bool_decide (column ∈ GEN3_TABLE_NAMES)
  then rename_column table_df column (column +:+ "_entity_id")
  else rename_column table_df column (table_name +:+ "_" +:+ column).

(** The renaming of [get_gen3_terra_table_to_df], after the fetch: the
    names to rename are read from the frame before any renaming. *)
Definition rename_gen3_columns (table_name : string) (table_df : DataFrame)
    : DataFrame :=
  let columns_before := columns table_df in
  let table_df :=
    rename_column table_df ("entity:" +:+ table_name +:+ "_id")
                  (table_name +:+ "_entity_id") in
  let table_df := fold_left (rename_step table_name) (tail columns_before) table_df in
  drop_duplicated_columns table_df.

(** [get_gen3_terra_table_to_df] *)
Definition get_gen3_terra_table_to_df (ws : Workspace) (table_name : string)
    : M DataFrame :=
  let! table_df := get_terra_table_to_df ws table_name in
  ret (rename_gen3_columns table_name table_df).

(** ** Table uploader *)

(** The body of [fapi_upload_entities], for one attempt;
    [fapi._check_response_code(response, 200)] raises
    [FireCloudServerError] for any other status. *)
Definition fapi_upload_entities_body (ws : Workspace) (entity_tsv : tsv)
    (attempt : nat) : M unit :=
  match upload_entities ws entity_tsv attempt with
  | Response status_code _ =>
      emit (Upload entity_tsv (Some status_code));;
      if decide (status_code = 200%Z) then ret tt
      else raise (FireCloudServerError status_code)
  | NetworkFailure =>
      emit (Upload entity_tsv None);;
      raise ConnectionError
  end.

(** [fapi_upload_entities], decorated with
    [@retry(reraise=True, retry=retry_if_exception_type(FireCloudServerError),
            stop=stop_after_attempt(3),
            wait=wait_exponential(multiplier=1, min=2, max=10), ...)]. *)
Definition fapi_upload_entities (ws : Workspace) (entity_tsv : tsv) : M unit :=
  retry 3 (wait_exponential 1 2 10) retry_if_exception_type_FireCloudServerError
    (fapi_upload_entities_body ws entity_tsv).

(** The [while chunk_start < row_count] loop of [upload_entities_df].  The
    loop does not end when [chunk_size] is 0 and rows remain: [fuel] bounds
    the number of turns and [Diverge] is the outcome when it runs out. *)
Fixpoint upload_loop (fuel : nat) (ws : Workspace) (df : DataFrame)
    (chunk_size chunk_start : nat) : M unit :=
  let row_count := shape0 df in
  if decide (chunk_start < row_count) then
    match fuel with
    | S fuel' =>
        let chunk_end := Nat.min (chunk_start + chunk_size) row_count in
        let chunk_df := iloc df chunk_start chunk_end in
        let chunk_tsv := to_csv chunk_df in
        fapi_upload_entities ws chunk_tsv;;
        output_now ".";;
        upload_loop fuel' ws df chunk_size chunk_end
    | 0 => (Diverge, [])
    end
  else ret tt.

(** [upload_entities_df]: with [chunk_size >= 1] the loop takes at most
    [row_count] turns. *)
Definition upload_entities_df (ws : Workspace) (df : DataFrame)
    (chunk_size : nat) : M unit :=
  emit (LogInfo MsgUploadStarting);;
  output_now "Uploading ";;
  upload_loop (shape0 df) ws df chunk_size 0;;
  output_now "
";;
  emit (LogInfo MsgUploadFinished).

(** The chunks that were sent, in order, and those the service accepted. *)
Definition uploads (tr : list event) : list tsv :=
  omap (fun ev => match ev with Upload t _ => Some t | _ => None end) tr.

Definition committed (tr : list event) : list tsv :=
  omap (fun ev => match ev with Upload t (Some 200%Z) => Some t | _ => None end) tr.

(** ** Merge specifications

    A merge specification and its steps are dictionaries with known keys;
    a key that may be missing is an [option]. *)

Record merge_info := mkMergeInfo {
  merge_parameters : option (gmap string pyval);
  join_column : option pyval;
  join_type : option pyval;
  table_names : list string
}.

Record merge_spec := mkMergeSpec {
  default_merge_parameters : option (gmap string pyval);
  default_join_type : option pyval;
  merge_sequence : list merge_info;
  final_index_source_column : option string
}.

(** [d.update(other)] *)
Definition update (d other : gmap string pyval) : gmap string pyval := other ∪ d.

Definition standard_pandas_default_parameters : gmap string pyval :=
  list_to_map
    [("how", PStr "inner"); ("on", PNone); ("left_on", PNone); ("right_on", PNone);
     ("left_index", PBool false); ("right_index", PBool false); ("sort", PBool false);
     ("suffixes", PPair "_x" "_y"); ("copy", PBool true); ("indicator", PBool false);
     ("validate", PNone)].

(** [_create_combined_merge_parameters] *)
Definition _create_combined_merge_parameters
    (default_merge_parameters : gmap string pyval) (merge_info : merge_info)
    : gmap string pyval :=
  let combined_parameters := standard_pandas_default_parameters in
  let combined_parameters := update combined_parameters default_merge_parameters in
  let combined_parameters :=
    match merge_parameters merge_info with
    | Some p => update combined_parameters p
    | None => combined_parameters
    end in
  let combined_parameters :=
    match join_column merge_info with
    | Some c => <["on" := c]> combined_parameters
    | None => combined_parameters
    end in
  match join_type merge_info with
  | Some t => <["how" := t]> combined_parameters
  | None => combined_parameters
  end.

(** [_substitute_entity_id_column_name]; the dictionary is changed in
    place in the source and returned here. *)
Definition _substitute_entity_id_column_name (merge_parameters : gmap string pyval)
    : gmap string pyval :=
  fold_left
    (fun merge_parameters key =>
       match merge_parameters !! key with
       | Some v =>
           if py_truthy v
           then <[key := PStr (get_entity_id_column_name (py_str v))]> merge_parameters
           else merge_parameters
       | None => merge_parameters
       end)
    ["on"; "left_on"; "right_on"] merge_parameters.

(** The merge parameters that [consolidate_to_df] starts every step from.
    The source writes [default_join_type] into the dictionary it found in
    the specification; the value written is the same at every run. *)
Definition spec_default_merge_parameters (merge_spec : merge_spec)
    : gmap string pyval :=
  let default_merge_parameters :=
    match default_merge_parameters merge_spec with
    | Some d => d
    | None => {["how" := PStr "outer"]}
    end in
  match default_join_type merge_spec with
  | Some t => <["how" := t]> default_merge_parameters
  | None => default_merge_parameters
  end.

(** The parameters handed to [consolidate_tables_to_df] for one step. *)
Definition step_merge_parameters (merge_spec : merge_spec) (merge_info : merge_info)
    : gmap string pyval :=
  _substitute_entity_id_column_name
    (_create_combined_merge_parameters
       (spec_default_merge_parameters merge_spec) merge_info).

(** ** Deduplicator *)

(** [df[c].tolist()] *)
Definition column_values (df : DataFrame) (c : string) : M (list value) :=
  match position c (columns df) with
  | Some i => ret (map (cell i) (rows df))
  | None => raise (KeyError c)
  end.

(** [_deduplicate_merge_data]; both frames are changed in place in the
    source and returned here. *)
Definition _deduplicate_merge_data (merged_df : option DataFrame)
    (current_df : DataFrame) (current_table_name current_dedup_key : string)
    : M (option DataFrame * DataFrame) :=
  let! keys := column_values current_df current_dedup_key in
  let current_dups := duplicated keys in
  let! current_dups_values :=
    column_values (select_rows current_df current_dups) current_dedup_key in
  if decide (length current_dups_values = 0) then ret (merged_df, current_df)
  else
    let current_table_entity_id := get_entity_id_column_name current_table_name in
    let! common_key_values_for_dupes :=
      column_values (select_rows current_df current_dups) current_table_entity_id in
    let current_df :=
      drop_labels current_df (index (select_rows current_df current_dups)) in
    emit (LogWarning (MsgDuplicatesRemoved (length current_dups_values)
            current_table_name current_dedup_key current_dups_values));;
    match merged_df with
    | Some merged =>
        if bool_decide (current_table_entity_id ∈ columns merged) then
          let! ids := column_values merged current_table_entity_id in
          let mask := isin ids common_key_values_for_dupes in
          ret (Some (drop_labels merged (index (select_rows merged mask))), current_df)
        else ret (Some merged, current_df)
    | None => ret (None, current_df)
    end.

(** ** Join engine and merge planner *)

(** [d[key]] *)
Definition getitem (d : gmap string pyval) (key : string) : M pyval :=
  match d !! key with
  | Some v => ret v
  | None => raise (KeyError key)
  end.

(** A call of library code that returns or raises. *)
Definition call {A} (r : exn + A) : M A :=
  match r with
  | inl e => raise e
  | inr a => ret a
  end.

Section Engine.

(** [left.merge(right, **merge_parameters)]: a frame, or the exception
    that pandas raises. *)
Variable merge : DataFrame -> DataFrame -> gmap string pyval -> exn + DataFrame.

(** One turn of the loop [for table_name in table_names] of
    [consolidate_tables_to_df]: the accumulator after the turn.  The
    logger is at level [INFO]; the arguments of the [logger.debug] calls
    are evaluated all the same. *)
Definition join_one (ws : Workspace) (merge_parameters : gmap string pyval)
    (merged_df : DataFrame) (table_name : string) : M DataFrame :=
  let! names := get_table_names ws [] false in
  if bool_decide (table_name ∉ names) then
    emit (LogInfo (MsgTableIgnored table_name));;
    ret merged_df
  else
    let! current_df := get_gen3_terra_table_to_df ws table_name in
    let! (merged_opt, current_df) :=
      if decide (table_name = "sample") then
        _deduplicate_merge_data (Some merged_df) current_df "sample"
          (get_entity_id_column_name "subject")
      else ret (Some merged_df, current_df) in
    let merged_df := default merged_df merged_opt in
    let! on := getitem merge_parameters "on" in
    let! how := getitem merge_parameters "how" in
    let! merged_df := call (merge merged_df current_df merge_parameters) in
    let merged_df := drop_duplicated_columns merged_df in
    emit (LogInfo (MsgMerged table_name on how (shape0 merged_df) (shape1 merged_df)));;
    ret merged_df.

Fixpoint join_tables (ws : Workspace) (table_names : list string)
    (merge_parameters : gmap string pyval) (merged_df : DataFrame) : M DataFrame :=
  match table_names with
  | [] => ret merged_df
  | table_name :: table_names' =>
      let! merged_df := join_one ws merge_parameters merged_df table_name in
      join_tables ws table_names' merge_parameters merged_df
  end.

(** [consolidate_tables_to_df] *)
Definition consolidate_tables_to_df (ws : Workspace) (table_names : list string)
    (merge_parameters : gmap string pyval) (initial_df : option DataFrame)
    : M DataFrame :=
  match initial_df with
  | None =>
      assert (bool_decide (2 <= length table_names))
             "At least two table names are required.";;
      let table_name := hd "" table_names in
      let table_names := tail table_names in
      let! first_df := get_gen3_terra_table_to_df ws table_name in
      let! (_, first_df) :=
        if decide (table_name = "sample") then
          _deduplicate_merge_data None first_df "sample"
            (get_entity_id_column_name "subject")
        else ret (None, first_df) in
      join_tables ws table_names merge_parameters first_df
  | Some initial_df =>
      assert (bool_decide (1 <= length table_names))
             "At least one table names is required to merge with previous data.";;
      join_tables ws table_names merge_parameters initial_df
  end.

(** The comparison of row counts that closes a turn of the loop of
    [consolidate_to_df]. *)
Definition row_count_check (previous_row_count row_count : Z) : M unit :=
  if decide (previous_row_count <> (-1)%Z) then
    if decide (previous_row_count < row_count)%Z then
      let n := (row_count - previous_row_count)%Z in
      emit (LogWarning (MsgRowCountIncreased n))
    else ret tt
  else ret tt.

(** The loop [for merge_info in merge_spec['merge_sequence']] of
    [consolidate_to_df]. *)
Fixpoint consolidate_steps (ws : Workspace)
    (default_merge_parameters : gmap string pyval) (steps : list merge_info)
    (merged_df : option DataFrame) (previous_row_count : Z)
    : M (option DataFrame) :=
  match steps with
  | [] => ret merged_df
  | merge_info :: steps' =>
      let merge_parameters :=
        _create_combined_merge_parameters default_merge_parameters merge_info in
      let merge_parameters := _substitute_entity_id_column_name merge_parameters in
      let! merged_df :=
        consolidate_tables_to_df ws (table_names merge_info) merge_parameters merged_df in
      let row_count := Z.of_nat (shape0 merged_df) in
      row_count_check previous_row_count row_count;;
      consolidate_steps ws default_merge_parameters steps' (Some merged_df) row_count
  end.

(** [consolidate_to_df] *)
Definition consolidate_to_df (ws : Workspace) (merge_spec : merge_spec)
    : M (option DataFrame) :=
  consolidate_steps ws (spec_default_merge_parameters merge_spec)
    (merge_sequence merge_spec) None (-1).

(** [df.insert(0, name, values)] *)
Definition insert_first (df : DataFrame) (name : string) (values : list value)
    : M DataFrame :=
  if bool_decide (name ∈ columns df)
  then raise (ValueError "cannot insert, already exists")
  else ret {| columns := name :: columns df;
              rows := zip_with (fun v r => (fst r, v :: snd r)) values (rows df) |}.

(** The report that closes [consolidate_to_terra_table]. *)
Definition report_sizes (entity_name : string)
    (consolidated_df_rows consolidated_df_columns : nat)
    (actual : option (nat * nat)) : M unit :=
  match actual with
  | Some (actual_rows, actual_columns) =>
      if bool_decide (consolidated_df_rows = actual_rows)
         && bool_decide (consolidated_df_columns = actual_columns)
      then emit (LogInfo (MsgTableSize entity_name actual_rows actual_columns))
      else if bool_decide (actual_rows < consolidated_df_rows)
              || bool_decide (actual_columns < consolidated_df_columns)
      then emit (LogError (MsgTruncation consolidated_df_rows consolidated_df_columns
                             entity_name actual_rows actual_columns))
      else emit (LogWarning (MsgSizeMismatch consolidated_df_rows consolidated_df_columns
                               entity_name actual_rows actual_columns))
  | None => raise TypeError
  end.

(** [consolidate_to_terra_table]; the logger is at level [INFO], so the
    parts guarded by [logger.isEnabledFor(DEBUG)] do not run. *)
Definition consolidate_to_terra_table (ws : Workspace) (merge_spec : merge_spec)
    (entity_name : string) : M unit :=
  match final_index_source_column merge_spec with
  | Some entity_id_column =>
      if negb (String.eqb entity_id_column "") then
        let! names := get_table_names ws [] false in
        (if bool_decide (entity_name ∈ names) then
           let! existing := get_table_info ws [] entity_name false in
           match existing with
           | Some (existing_rows, existing_columns) =>
               emit (LogInfo (MsgTableExists entity_name existing_rows existing_columns))
           | None => ret tt
           end
         else ret tt);;
        let! consolidated_df := consolidate_to_df ws merge_spec in
        match consolidated_df with
        | Some consolidated_df =>
            let! ids := column_values consolidated_df entity_id_column in
            let! consolidated_df :=
              insert_first consolidated_df ("entity:" +:+ entity_name +:+ "_id") ids in
            let uploading := upload_entities_df ws consolidated_df 500 in
            uploading;;
            let! actual :=
              get_table_info ws (committed (trace uploading)) entity_name true in
            report_sizes entity_name (shape0 consolidated_df) (shape1 consolidated_df)
              actual
        | None => raise AttributeError
        end
      else emit (LogError MsgFinalIndexMissing)
  | None => emit (LogError MsgFinalIndexMissing)
  end.

End Engine.

(** ** A reference implementation of single-key joins

    [merge_ref] follows [pandas.merge] for [on] naming one key column and
    [how] among inner, left, right and outer: the key column is kept once,
    at its place among the left columns; other names held by both frames
    get the suffixes [_x] and [_y]; absent cells are null; the result has
    the default index.  Rows of an inner or left join come in the order of
    the left rows, those of a right join in the order of the right rows.
    For an outer join the rows of the left join are followed by the right
    rows without a partner; pandas may order them otherwise. *)
Definition merge_ref (left right : DataFrame) (merge_parameters : gmap string pyval)
    : exn + DataFrame :=
  match merge_parameters !! "on", merge_parameters !! "how" with
  | Some (PStr on), Some (PStr how) =>
      match position on (columns left), position on (columns right) with
      | Some i, Some j =>
          let joined (l r : row) := snd l ++ delete j (snd r) in
          let left_only (l : row) :=
            snd l ++ replicate (length (columns right) - 1) VNull in
          let right_only (r : row) :=
            <[i := cell j r]> (replicate (length (columns left)) VNull)
              ++ delete j (snd r) in
          let partners_of_left (l : row) :=
            List.filter (fun r => bool_decide (cell j r = cell i l)) (rows right) in
          let partners_of_right (r : row) :=
            List.filter (fun l => bool_decide (cell i l = cell j r)) (rows left) in
          let inner_rows :=
            flat_map (fun l => map (joined l) (partners_of_left l)) (rows left) in
          let left_rows :=
            flat_map (fun l => match partners_of_left l with
                               | [] => [left_only l]
                               | rs => map (joined l) rs
                               end) (rows left) in
          let right_rows :=
            flat_map (fun r => match partners_of_right r with
                               | [] => [right_only r]
                               | ls => map (fun l => joined l r) ls
                               end) (rows right) in
          let lonely_right_rows :=
            flat_map (fun r => match partners_of_right r with
                               | [] => [right_only r]
                               | _ => []
                               end) (rows right) in
          let merged_columns :=
            map (fun c => if bool_decide (c <> on /\ c ∈ columns right)
                          then c +:+ "_x" else c) (columns left)
            ++ map (fun c => if bool_decide (c ∈ columns left)
                             then c +:+ "_y" else c) (delete j (columns right)) in
          let frame (cells : list (list value)) :=
            {| columns := merged_columns;
               rows := zip (seq 0 (length cells)) cells |} in
          if decide (how = "inner") then inr (frame inner_rows)
          else if decide (how = "left") then inr (frame left_rows)
          else if decide (how = "right") then inr (frame right_rows)
          else if decide (how = "outer") then inr (frame (left_rows ++ lonely_right_rows))
          else inl MergeError
      | _, _ => inl (KeyError on)
      end
  | _, _ => inl MergeError
  end.

(** * Vocabulary of the properties *)

(** ** Outcomes and traces *)

(** The computation raised; the computation returned. *)
Definition raises {A} (r : result A) : Prop :=
  match r with Raise _ => True | _ => False end.

Definition returns {A} (r : result A) : Prop :=
  match r with Ok _ => True | _ => False end.

(** The number of rows of the frame that a computation returned. *)
Definition row_count (r : result DataFrame) : option nat :=
  match r with
  | Ok d => Some (shape0 d)
  | _ => None
  end.

(** The attempts and the pauses recorded in a trace. *)
Definition fetches (tr : list event) : list (string * nat) :=
  omap (fun ev => match ev with Fetch t k => Some (t, k) | _ => None end) tr.

(** The pauses recorded in a trace. *)
Definition sleeps (tr : list event) : list Z :=
  omap (fun ev => match ev with Sleep s => Some s | _ => None end) tr.

(** The duplicate-removal warnings of a trace: count, table and key. *)
Definition duplicate_warnings (tr : list event) : list (nat * string * string) :=
  omap (fun ev => match ev with
                  | LogWarning (MsgDuplicatesRemoved n t key _) => Some (n, t, key)
                  | _ => None
                  end) tr.

(** The row-count warnings of a trace, with the count they announce. *)
Definition row_count_warnings (tr : list event) : list Z :=
  omap (fun ev => match ev with
                  | LogWarning (MsgRowCountIncreased n) => Some n
                  | _ => None
                  end) tr.

(** A computation that ends and whose events all satisfy [P]. *)
Definition clean {A} (P : event -> Prop) (m : M A) : Prop :=
  outcome m <> Diverge /\ Forall P (trace m).

(** The events of a run that fetches and joins without any warning. *)
Definition quiet (ev : event) : Prop :=
  match ev with
  | Fetch _ _ | Sleep _ | LogInfo _ => True
  | _ => False
  end.

(** Every event but a row-count warning; every event but a write. *)
Definition not_row_count_warning (ev : event) : Prop :=
  match ev with
  | LogWarning (MsgRowCountIncreased _) => False
  | _ => True
  end.

Definition not_upload (ev : event) : Prop :=
  match ev with
  | Upload _ _ => False
  | _ => True
  end.

(** A computation that raises before any chunk is sent. *)
Definition fails_before_upload {A} (m : M A) : Prop :=
  raises (outcome m) /\ uploads (trace m) = [].

(** ** Uploader *)

(** The contiguous chunks of at most [chunk_size] entries of a list, in
    order; [fuel] bounds their number. *)
Fixpoint chunks_of {A} (fuel chunk_size : nat) (l : list A) : list (list A) :=
  match l, fuel with
  | [], _ => []
  | _, 0 => []
  | _, S fuel' => take chunk_size l :: chunks_of fuel' chunk_size (drop chunk_size l)
  end.

(** The sizes of the chunks of a list of [n] entries. *)
Fixpoint chunk_sizes (fuel chunk_size n : nat) : list nat :=
  match n, fuel with
  | 0, _ => []
  | _, 0 => []
  | _, S fuel' => Nat.min chunk_size n :: chunk_sizes fuel' chunk_size (n - chunk_size)
  end.

(** The events of one turn of the upload loop when the chunk is accepted
    at the first attempt. *)
Definition sent (header : list string) (chunk : list (list value)) : list event :=
  [Upload (mkTsv header chunk) (Some 200%Z); Stderr "."].

(** ** Column namer *)

(** The name of the entity-id column of a table in the store. *)
Definition entity_column (table_name : string) : string :=
  "entity:" +:+ table_name +:+ "_id".

(** The name that the design gives to a raw column: the table's own
    entity-id column, a column named after an entity type, any other
    column. *)
Definition canonical_name (table_name c : string) : string :=
  if decide (c = entity_column table_name) then table_name +:+ "_entity_id"
  else if bool_decide (c ∈ GEN3_TABLE_NAMES) then c +:+ "_entity_id"
  else table_name +:+ "_" +:+ c.

(** The frame with every column under its documented name, no column
    dropped. *)
Definition canonical_frame (table_name : string) (df : DataFrame) : DataFrame :=
  {| columns := map (canonical_name table_name) (columns df); rows := rows df |}.

(** No column's documented name is the raw name of a later column. *)
Fixpoint no_name_reused (table_name : string) (cs : list string) : bool :=
  match cs with
  | [] => true
  | c :: cs' =>
      forallb (fun c' => negb (String.eqb (canonical_name table_name c) c')) cs'
      && no_name_reused table_name cs'
  end.

(** What [rename_column] does to one column name. *)
Definition rename_one (current new c : string) : string :=
  if decide (c = current) then new else c.

(** The new name that a turn of the renaming loop gives to its column. *)
Definition loop_target (table_name column : string) : string :=
  if bool_decide (column ∈ GEN3_TABLE_NAMES) then column +:+ "_entity_id"
  else table_name +:+ "_" +:+ column.

(** The name of a column after the turns of the loop for [sources]. *)
Definition renamed_by_loop (table_name : string) (sources : list string) (c : string)
    : string :=
  fold_left (fun c s => rename_one s (loop_target table_name s) c) sources c.

(** The mask [~duplicated], with the names already seen. *)
Definition first_kept {A} `{EqDecision A} (seen l : list A) : list bool :=
  map negb (duplicated_from seen l).

(** ** Fetcher *)

(** What one attempt at fetching a table yields. *)
Definition attempt_outcome (ws : Workspace) (table_name : string) (k : nat)
    : result DataFrame :=
  outcome (get_terra_table_to_df_body ws table_name k).

(** ** Merge planner *)

(** The join type of a step as the design document resolves it. *)
Definition documented_join_type (merge_spec : merge_spec) (merge_info : merge_info)
    : pyval :=
  match join_type merge_info with
  | Some t => t
  | None =>
      match merge_parameters merge_info ≫= (.!! "how") with
      | Some h => h
      | None =>
          match default_join_type merge_spec with
          | Some d => d
          | None => PStr "inner"
          end
      end
  end.

(** The join type of a step as the code resolves it: the specification's
    [default_merge_parameters], which stand for [how="outer"] when the key
    is missing, come between pandas' own default and [default_join_type]. *)
Definition resolved_join_type (merge_spec : merge_spec) (merge_info : merge_info)
    : pyval :=
  match join_type merge_info with
  | Some t => t
  | None =>
      match merge_parameters merge_info ≫= (.!! "how") with
      | Some h => h
      | None =>
          match default_join_type merge_spec with
          | Some d => d
          | None =>
              match default_merge_parameters merge_spec with
              | Some p => default (PStr "inner") (p !! "how")
              | None => PStr "outer"
              end
          end
      end
  end.

(** [final_index_source_column] is missing or has an empty value. *)
Definition final_index_missing (merge_spec : merge_spec) : Prop :=
  match final_index_source_column merge_spec with
  | Some c => c = ""
  | None => True
  end.

(** A step names fewer tables than [consolidate_tables_to_df] asserts. *)
Definition too_few_tables (merged_df : option DataFrame) (table_names : list string)
    : Prop :=
  match merged_df with
  | None => length table_names < 2
  | Some _ => length table_names < 1
  end.

(** ** Join engine *)

(** The join engine without the deduplicator: every table is joined as it
    was fetched and renamed. *)
Definition join_one_as_is
    (merge : DataFrame -> DataFrame -> gmap string pyval -> exn + DataFrame)
    (ws : Workspace) (merge_parameters : gmap string pyval)
    (merged_df : DataFrame) (table_name : string) : M DataFrame :=
  let! names := get_table_names ws [] false in
  if bool_decide (table_name ∉ names) then
    emit (LogInfo (MsgTableIgnored table_name));;
    ret merged_df
  else
    let! current_df := get_gen3_terra_table_to_df ws table_name in
    let! on := getitem merge_parameters "on" in
    let! how := getitem merge_parameters "how" in
    let! merged_df := call (merge merged_df current_df merge_parameters) in
    let merged_df := drop_duplicated_columns merged_df in
    emit (LogInfo (MsgMerged table_name on how (shape0 merged_df) (shape1 merged_df)));;
    ret merged_df.

Fixpoint join_tables_as_is
    (merge : DataFrame -> DataFrame -> gmap string pyval -> exn + DataFrame)
    (ws : Workspace) (table_names : list string)
    (merge_parameters : gmap string pyval) (merged_df : DataFrame) : M DataFrame :=
  match table_names with
  | [] => ret merged_df
  | table_name :: table_names' =>
      let! merged_df := join_one_as_is merge ws merge_parameters merged_df table_name in
      join_tables_as_is merge ws table_names' merge_parameters merged_df
  end.

Definition consolidate_tables_as_is
    (merge : DataFrame -> DataFrame -> gmap string pyval -> exn + DataFrame)
    (ws : Workspace) (table_names : list string)
    (merge_parameters : gmap string pyval) (initial_df : option DataFrame)
    : M DataFrame :=
  match initial_df with
  | None =>
      assert (bool_decide (2 <= length table_names))
             "At least two table names are required.";;
      let! first_df := get_gen3_terra_table_to_df ws (hd "" table_names) in
      join_tables_as_is merge ws (tail table_names) merge_parameters first_df
  | Some initial_df =>
      assert (bool_decide (1 <= length table_names))
             "At least one table names is required to merge with previous data.";;
      join_tables_as_is merge ws table_names merge_parameters initial_df
  end.

(** The accumulators that the successive steps of a run return, up to the
    first step that does not return. *)
Fixpoint step_frames
    (merge : DataFrame -> DataFrame -> gmap string pyval -> exn + DataFrame)
    (ws : Workspace) (default_merge_parameters : gmap string pyval)
    (steps : list merge_info) (merged_df : option DataFrame) : list DataFrame :=
  match steps with
  | [] => []
  | merge_info :: steps' =>
      let merge_parameters :=
        _substitute_entity_id_column_name
          (_create_combined_merge_parameters default_merge_parameters merge_info) in
      match outcome (consolidate_tables_to_df merge ws (table_names merge_info)
                       merge_parameters merged_df) with
      | Ok d => d :: step_frames merge ws default_merge_parameters steps' (Some d)
      | _ => []
      end
  end.

(** The growth of each count over the count before it. *)
Fixpoint increases (counts : list nat) : list Z :=
  match counts with
  | [] => []
  | a :: rest =>
      match rest with
      | b :: _ => if decide (a < b) then [(Z.of_nat b - Z.of_nat a)%Z] else []
      | [] => []
      end ++ increases rest
  end.

(** [previous_row_count] after the step that left the given count, and
    before the first step. *)
Definition previous_row_count_of (count : option nat) : Z :=
  match count with
  | Some n => Z.of_nat n
  | None => (-1)%Z
  end.

(** The row count before a step, as a list of at most one count. *)
Definition counted (count : option nat) : list nat :=
  match count with
  | Some n => [n]
  | None => []
  end.

(** * Tables, workspaces and specifications for concrete runs *)

(** A workspace that holds the given tables, answers every request at the
    first attempt and accepts every write; a table that it does not hold
    is answered with status 404. *)
Definition steady_workspace (tables : list (string * tsv)) : Workspace :=
  {| get_entities_tsv := fun table_name _ =>
       match (list_to_map tables : gmap string tsv) !! table_name with
       | Some t => Response 200 t
       | None => Response 404 (mkTsv [] [])
       end;
     upload_entities := fun _ _ => Response 200 tt;
     list_entity_types := fun _ =>
       Response 200
         ((fun t : tsv => (length (lines t), tail (header t)))
            <$> (list_to_map tables : gmap string tsv));
     _data_table_info := None |}.

(** A table of 1200 rows. *)
Definition df1200 : DataFrame :=
  {| columns := ["entity:subject_id"; "subject_age"];
     rows := map (fun i => (i, [VStr "s"; VNum (Z.of_nat i)])) (seq 0 1200) |}.

(** A table whose first column is not its entity-id column. *)
Definition unkeyed_frame : DataFrame :=
  {| columns := ["name"; "age"]; rows := [(0, [VStr "ann"; VNum 41])] |}.

(** A table whose attribute [subject_id] has the name that the renaming
    gives to the attribute [id]. *)
Definition shadowing_frame : DataFrame :=
  {| columns := ["entity:subject_id"; "id"; "subject_id"];
     rows := [(0, [VStr "s1"; VNum 7; VStr "internal"])] |}.

(** A [sample] table as the store returns it: its own key, a column
    named after the table itself, a reference to [subject] and an
    attribute. *)
Definition sample_frame : DataFrame :=
  {| columns := ["entity:sample_id"; "sample"; "subject"; "tissue"];
     rows := [(0, [VStr "x1"; VStr "x1"; VStr "s1"; VStr "blood"])] |}.

(** A specification that sets no join type anywhere. *)
Definition bare_step : merge_info :=
  {| merge_parameters := None; join_column := Some (PStr "subject");
     join_type := None; table_names := ["subject"; "demographic"] |}.

Definition bare_spec : merge_spec :=
  {| default_merge_parameters := None; default_join_type := None;
     merge_sequence := [bare_step];
     final_index_source_column := Some "subject_entity_id" |}.

(** An accumulator that already holds three samples, and a [sample] table
    in which the subject [s1] has two samples. *)
Definition aliquot_accumulator : DataFrame :=
  {| columns := ["aliquot_entity_id"; "sample_entity_id"];
     rows := [(0, [VStr "a1"; VStr "x1"]);
              (1, [VStr "a2"; VStr "x2"]);
              (2, [VStr "a3"; VStr "x3"])] |}.

Definition sample_candidate : DataFrame :=
  {| columns := ["sample_entity_id"; "subject_entity_id"];
     rows := [(0, [VStr "x1"; VStr "s1"]);
              (1, [VStr "x2"; VStr "s1"]);
              (2, [VStr "x3"; VStr "s2"])] |}.

(** A workspace with one subject who has two demographic records. *)
Definition clinic : Workspace :=
  steady_workspace
    [("subject", mkTsv ["entity:subject_id"; "name"] [[VStr "s1"; VStr "ann"]]);
     ("demographic",
      mkTsv ["entity:demographic_id"; "subject"]
        [[VStr "d1"; VStr "s1"]; [VStr "d2"; VStr "s1"]])].

(** A one-step specification over the clinic workspace, joining with
    [how="inner"], and the parameters of its step. *)
Definition clinic_step : merge_info :=
  {| merge_parameters := None; join_column := Some (PStr "subject");
     join_type := Some (PStr "inner"); table_names := ["subject"; "demographic"] |}.

Definition clinic_spec : merge_spec :=
  {| default_merge_parameters := None; default_join_type := None;
     merge_sequence := [clinic_step];
     final_index_source_column := Some "subject_entity_id" |}.

Definition clinic_parameters : gmap string pyval :=
  step_merge_parameters clinic_spec clinic_step.

(** Two subjects, the first with two visits. *)
Definition visits : Workspace :=
  steady_workspace
    [("subject", mkTsv ["entity:subject_id"; "name"]
                   [[VStr "s1"; VStr "ann"]; [VStr "s2"; VStr "bob"]]);
     ("visit", mkTsv ["entity:visit_id"; "subject"]
                 [[VStr "v1"; VStr "s1"]; [VStr "v2"; VStr "s1"]; [VStr "v3"; VStr "s2"]])].

(** A specification without [final_index_source_column]. *)
Definition headless_spec : merge_spec :=
  {| default_merge_parameters := None; default_join_type := None;
     merge_sequence := [clinic_step]; final_index_source_column := None |}.

(** A specification whose only step names a single table. *)
Definition lonely_step : merge_info :=
  {| merge_parameters := None; join_column := Some (PStr "subject");
     join_type := None; table_names := ["subject"] |}.

Definition lonely_spec : merge_spec :=
  {| default_merge_parameters := None; default_join_type := None;
     merge_sequence := [lonely_step];
     final_index_source_column := Some "subject_entity_id" |}.

(** The clinic workspace, whose listing shows the table [cohort] once
    chunks were written to it. *)
Definition registering_clinic : Workspace :=
  {| get_entities_tsv := get_entities_tsv clinic;
     upload_entities := upload_entities clinic;
     list_entity_types := fun written =>
       match list_entity_types clinic written with
       | Response status_code listing =>
           Response status_code
             match written with
             | [] => listing
             | t :: _ =>
                 <["cohort" := (length (concat (map lines written)), tail (header t))]>
                   listing
             end
       | NetworkFailure => NetworkFailure
       end;
     _data_table_info := None |}.

(** * More of the module, and the vocabulary of the further properties *)

(** ** Table uploader: refused writes *)

(** The answers that make [fapi_upload_entities] try again: a status other
    than 200. *)
Definition refused (ws : Workspace) (t : tsv) (k : nat) : Prop :=
  exists code, code <> 200%Z /\ upload_entities ws t k = Response code tt.

(** ** The table registry as a class with state

    [DataTableInfo] keeps the listing in two class attributes that are set
    together, [_data_table_info] and [_data_table_names]: the state is the
    listing or [None].  A method takes the answer that
    [fapi.list_entity_types] would give and the state, and yields its
    outcome, the state it leaves and the number of calls it made to the
    service. *)

Abbreviation registry := (option (gmap string entity_type_info)).

(** [DataTableInfo.refresh]: an exception of the call itself leaves the
    attributes as they are. *)
Definition DataTableInfo_refresh (response : http (gmap string entity_type_info))
    (state : registry) : result unit * registry * nat :=
  match response with
  | Response 200 body => (Ok tt, Some body, 1)
  | Response code _ => (Raise (FireCloudServiceException code), None, 1)
  | NetworkFailure => (Raise ConnectionError, state, 1)
  end.

(** [not cls._data_table_info]: nothing is held, or an empty listing. *)
Definition DataTableInfo_stale (state : registry) : bool :=
  match state with
  | Some info => bool_decide (info = ∅)
  | None => true
  end.

(** [if not cls._data_table_info or refresh: cls.refresh()]: the listing
    to answer from. *)
Definition DataTableInfo_load (response : http (gmap string entity_type_info))
    (state : registry) (refresh : bool)
    : result (gmap string entity_type_info) * registry * nat :=
  if DataTableInfo_stale state || refresh then
    match DataTableInfo_refresh response state with
    | (Ok _, state', calls) => (Ok (default ∅ state'), state', calls)
    | (Raise e, state', calls) => (Raise e, state', calls)
    | (Diverge, state', calls) => (Diverge, state', calls)
    end
  else (Ok (default ∅ state), state, 0).

(** [DataTableInfo.get_table_names] *)
Definition DataTableInfo_get_table_names
    (response : http (gmap string entity_type_info)) (state : registry)
    (refresh : bool) : result (gset string) * registry * nat :=
  match DataTableInfo_load response state refresh with
  | (Ok info, state', calls) => (Ok (dom info), state', calls)
  | (Raise e, state', calls) => (Raise e, state', calls)
  | (Diverge, state', calls) => (Diverge, state', calls)
  end.

(** [DataTableInfo.get_table_info]: [row_count, column_count, attributes],
    the three of them [None] for a table that is not listed. *)
Definition DataTableInfo_get_table_info
    (response : http (gmap string entity_type_info)) (state : registry)
    (table_name : string) (refresh : bool)
    : result (option (nat * nat * list string)) * registry * nat :=
  match DataTableInfo_load response state refresh with
  | (Ok info, state', calls) =>
      (Ok match info !! table_name with
          | Some (count, attributes) =>
              Some (count, length attributes + 1, attributes)
          | None => None
          end, state', calls)
  | (Raise e, state', calls) => (Raise e, state', calls)
  | (Diverge, state', calls) => (Diverge, state', calls)
  end.

(** The workspace with the given cache: the state of the class put back
    into the record that the engine reads. *)
Definition with_cache (ws : Workspace) (state : registry) : Workspace :=
  {| get_entities_tsv := get_entities_tsv ws;
     upload_entities := upload_entities ws;
     list_entity_types := list_entity_types ws;
     _data_table_info := state |}.

(** A workspace whose listing is refused with status 503, and a registry
    that holds a listing. *)
Definition unlisted : Workspace :=
  {| get_entities_tsv := get_entities_tsv clinic;
     upload_entities := upload_entities clinic;
     list_entity_types := fun _ => Response 503 ∅;
     _data_table_info := None |}.

(** ** Well-formed frames *)

(** Every row has one cell for each column. *)
Definition well_formed (df : DataFrame) : Prop :=
  Forall (fun r => length (snd r) = length (columns df)) (rows df).

(** ** Deduplicator: the rows removed *)

(** The rows that [_deduplicate_merge_data] takes for duplicates. *)
Definition duplicate_rows (current : DataFrame) (ik : nat) : list row :=
  select (duplicated (map (cell ik) (rows current))) (rows current).

(** The accumulator after the call. *)
Definition pruned (merged : option DataFrame) (eid : string) (ids : list value)
    : option DataFrame :=
  match merged with
  | Some merged =>
      Some match position eid (columns merged) with
           | Some im =>
               drop_labels merged
                 (map fst (List.filter (fun r => bool_decide (cell im r ∈ ids))
                             (rows merged)))
           | None => merged
           end
  | None => None
  end.

(** ** Merge planner: parameters other than the join type *)

(** The first of two sources that has a value. *)
Definition or_else {A} (o1 o2 : option A) : option A :=
  match o1 with
  | Some _ => o1
  | None => o2
  end.

(** What the substitution of entity-id column names makes of a value. *)
Definition entity_id_value (v : pyval) : pyval :=
  if py_truthy v then PStr (get_entity_id_column_name (py_str v)) else v.

Definition join_keys : list string := ["on"; "left_on"; "right_on"].

(** The value of a parameter other than [how] before the substitution,
    with later sources winning: pandas' defaults, the specification's
    [default_merge_parameters], the step's [merge_parameters] and, for
    [on], the step's [join_column]. *)
Definition resolved_parameter (merge_spec : merge_spec) (merge_info : merge_info)
    (key : string) : option pyval :=
  or_else (if decide (key = "on") then join_column merge_info else None)
    (or_else (merge_parameters merge_info ≫= (.!! key))
       (or_else (default_merge_parameters merge_spec ≫= (.!! key))
          (standard_pandas_default_parameters !! key))).

(** A step that gives the join column in its [merge_parameters], under
    a specification with a default for it. *)
Definition keyed_step : merge_info :=
  {| merge_parameters := Some {["left_on" := PStr "sample"; "sort" := PBool true]};
     join_column := None; join_type := None;
     table_names := ["sample"; "aliquot"] |}.

Definition keyed_spec : merge_spec :=
  {| default_merge_parameters := Some {["left_on" := PStr "subject";
                                        "right_on" := PStr "subject"]};
     default_join_type := Some (PStr "left");
     merge_sequence := [keyed_step];
     final_index_source_column := Some "sample_entity_id" |}.

(** ** Join engine: what is written and how a run fails *)

(** Every chunk that a computation sends satisfies [Q]. *)
Definition sends {A} (Q : tsv -> Prop) (m : M A) : Prop :=
  Forall Q (uploads (trace m)).

(** A computation that raises [e] before any chunk is sent. *)
Definition fails_with {A} (e : exn) (m : M A) : Prop :=
  outcome m = Raise e /\ uploads (trace m) = [].

(** A chunk of the table [entity_name] as Terra takes it: the entity-id
    column first, pairwise distinct column names, between 1 and 500
    lines. *)
Definition terra_chunk (entity_name : string) (t : tsv) : Prop :=
  head (header t) = Some ("entity:" +:+ entity_name +:+ "_id")
  /\ NoDup (header t)
  /\ 1 <= length (lines t) <= 500.

(** A specification over the clinic workspace whose final index names a
    column that the consolidated frame does not have. *)
Definition misindexed_spec : merge_spec :=
  {| default_merge_parameters := None; default_join_type := None;
     merge_sequence := [clinic_step];
     final_index_source_column := Some "visit_entity_id" |}.

(** ** Join engine: the tables that are fetched *)

(** Every event but an attempt at fetching a table. *)
Definition not_fetch (ev : event) : Prop :=
  match ev with
  | Fetch _ _ => False
  | _ => True
  end.

(** The attempts at fetching recorded in a trace all satisfy [Q], and
    there are at most three of them for each of [n] tables. *)
Definition fetch_plan (Q : string * nat -> Prop) (n : nat) (tr : list event) : Prop :=
  Forall Q (fetches tr) /\ length (fetches tr) <= 3 * n.

(** The tables that the registry lists when the run starts. *)
Definition listed (ws : Workspace) (t : string) : Prop :=
  match outcome (get_table_names ws [] false) with
  | Ok names => t ∈ names
  | _ => False
  end.

(** The attempts that a run over the tables [names] may make: at a table
    that is named, numbered from 1 to 3, and at a table that the registry
    lists, the first table of the run apart. *)
Definition planned (ws : Workspace) (names : list string) (f : string * nat) : Prop :=
  fst f ∈ names /\ 1 <= snd f <= 3 /\ (listed ws (fst f) \/ head names = Some (fst f)).

(** ** Table deleter: the chunks of entity ids

    [delete_terra_table] deletes the entities of a table by chunks of their
    ids, [np.array_split(entity_id_series, entity_id_series.size / 100)]. *)

(** [ary[st:end]] for consecutive sections of the given sizes. *)
Fixpoint sections_of {A} (section_sizes : list nat) (ary : list A) : list (list A) :=
  match section_sizes with
  | [] => []
  | n :: section_sizes' => take n ary :: sections_of section_sizes' (drop n ary)
  end.

(** [np.array_split(ary, indices_or_sections)] for a number of sections,
    which [int] has truncated: [extras] sections of [Neach_section + 1]
    entries, then sections of [Neach_section] entries. *)
Definition array_split {A} (ary : list A) (indices_or_sections : Z)
    : exn + list (list A) :=
  let Ntotal := length ary in
  let Nsections := Z.to_nat indices_or_sections in
  if decide (indices_or_sections <= 0)%Z
  then inl (ValueError "number sections must be larger than 0.")
  else
    let Neach_section := Ntotal / Nsections in
    let extras := Ntotal mod Nsections in
    let section_sizes :=
      replicate extras (Neach_section + 1)
      ++ replicate (Nsections - extras) Neach_section in
    inr (sections_of section_sizes ary).

(** The chunks of [delete_terra_table]; [size / 100] is a float, of which
    [int] keeps the integer part. *)
Definition deletion_chunks (entity_id_series : list value)
    : exn + list (list value) :=
  let num_chunks := (Z.of_nat (length entity_id_series) / 100)%Z in
  array_split entity_id_series num_chunks.

(** ** Merge planner: the specification after a run

    [consolidate_to_df] writes [default_join_type] into the dictionary
    [merge_spec['default_merge_parameters']] itself, when the specification
    has one: the caller's specification is changed.  The dictionaries of
    the steps are copied before they are changed. *)

Definition specification_after_run (spec : merge_spec) : merge_spec :=
  {| default_merge_parameters :=
       match default_merge_parameters spec with
       | Some _ => Some (spec_default_merge_parameters spec)
       | None => None
       end;
     default_join_type := default_join_type spec;
     merge_sequence := merge_sequence spec;
     final_index_source_column := final_index_source_column spec |}.

(** A specification whose two defaults for the join type differ. *)
Definition torn_spec : merge_spec :=
  {| default_merge_parameters := Some {["how" := PStr "left"]};
     default_join_type := Some (PStr "inner");
     merge_sequence := [bare_step];
     final_index_source_column := Some "subject_entity_id" |}.

(** * Properties *)

(** ** The effect monad *)

(** Laws of [bind]. *)
Lemma bind_ok {A B} (a : A) tr (k : A -> M B) :
  bind (Ok a, tr) k = (outcome (k a), tr ++ trace (k a)).
Proof. unfold bind, outcome, trace. by destruct (k a). Qed.

Lemma bind_raise {A B} e tr (k : A -> M B) : bind (Raise e, tr) k = (Raise e, tr).
Proof. done. Qed.

Lemma bind_ret_l {A B} (a : A) (k : A -> M B) : bind (ret a) k = k a.
Proof. unfold ret, bind. by destruct (k a). Qed.

Lemma bind_ext {A B} (m : M A) (k1 k2 : A -> M B) :
  (forall a, k1 a = k2 a) -> bind m k1 = bind m k2.
Proof. intros H. destruct m as [[a | e |] tr]; simpl; by rewrite ?H. Qed.

(** The outcome and the trace of a sequence. *)
Lemma outcome_bind {A B} (m : M A) (k : A -> M B) :
  outcome (bind m k) =
    match outcome m with
    | Ok a => outcome (k a)
    | Raise e => Raise e
    | Diverge => Diverge
    end.
Proof. destruct m as [[a | e |] tr]; simpl; [by destruct (k a) | done | done]. Qed.

Lemma trace_bind {A B} (m : M A) (k : A -> M B) :
  trace (bind m k) =
    match outcome m with
    | Ok a => trace m ++ trace (k a)
    | _ => trace m
    end.
Proof. destruct m as [[a | e |] tr]; simpl; [by destruct (k a) | done | done]. Qed.

Lemma outcome_bind_ext {A B} (m : M A) (k1 k2 : A -> M B) :
  (forall a, outcome (k1 a) = outcome (k2 a)) ->
  outcome (bind m k1) = outcome (bind m k2).
Proof. intros H. rewrite !outcome_bind. by destruct (outcome m). Qed.

(** A sequence that returns: its first part returned, and the traces
    follow each other. *)
Lemma outcome_bind_ok {A B} (m : M A) (k : A -> M B) b :
  outcome (bind m k) = Ok b ->
  exists a, outcome m = Ok a /\ outcome (k a) = Ok b
            /\ trace (bind m k) = trace m ++ trace (k a).
Proof.
  rewrite outcome_bind, trace_bind.
  destruct (outcome m) as [a | e |]; [| done | done]. intros H. by exists a.
Qed.

(** ** Traces *)

(** The projections of a trace distribute over concatenation. *)
Lemma uploads_app tr1 tr2 : uploads (tr1 ++ tr2) = uploads tr1 ++ uploads tr2.
Proof. apply omap_app. Qed.

Lemma committed_app tr1 tr2 : committed (tr1 ++ tr2) = committed tr1 ++ committed tr2.
Proof. apply omap_app. Qed.

Lemma row_count_warnings_app tr1 tr2 :
  row_count_warnings (tr1 ++ tr2) = row_count_warnings tr1 ++ row_count_warnings tr2.
Proof. apply omap_app. Qed.

(** A write counts as committed when it was answered with status 200. *)
Lemma committed_cons_upload t code tr :
  committed (Upload t (Some code) :: tr)
  = if decide (code = 200%Z) then t :: committed tr else committed tr.
Proof.
  destruct (decide (code = 200%Z)) as [-> | Hne]; [done |].
  unfold committed. simpl.
  destruct code as [| p | p]; try done.
  repeat (destruct p as [p | p |]; try done).
Qed.

Lemma committed_retry_pause m s tr : committed (LogInfo m :: Sleep s :: tr) = committed tr.
Proof. done. Qed.

Lemma committed_lost t tr : committed (Upload t None :: tr) = committed tr.
Proof. done. Qed.

Ltac count_committed :=
  unfold trace; cbn [snd app];
  repeat first [ rewrite committed_cons_upload
               | rewrite committed_retry_pause
               | rewrite committed_lost
               | rewrite decide_False by done
               | rewrite decide_True by done ].

(** A trace without writes sends and commits nothing. *)
Lemma uploads_none tr : Forall not_upload tr -> uploads tr = [].
Proof.
  induction 1 as [|ev tr Hev _ IH]; [done |].
  unfold uploads in *. destruct ev; by simpl in *.
Qed.

Lemma committed_none tr : Forall not_upload tr -> committed tr = [].
Proof.
  induction 1 as [|ev tr Hev _ IH]; [done |].
  unfold committed in *. destruct ev; by simpl in *.
Qed.

(** A trace of the engine proper holds no row-count warning; a quiet
    trace holds no duplicate-removal warning. *)
Lemma row_count_warnings_none tr :
  Forall not_row_count_warning tr -> row_count_warnings tr = [].
Proof.
  induction 1 as [|ev tr Hev _ IH]; [done |].
  unfold row_count_warnings in *. destruct ev as [| [] | | | | |]; by simpl in *.
Qed.

Lemma quiet_no_duplicate_warnings tr : Forall quiet tr -> duplicate_warnings tr = [].
Proof.
  induction 1 as [|ev tr Hev _ IH]; [done |].
  unfold duplicate_warnings in *. destruct ev as [| [] | | | | |]; by simpl in *.
Qed.

(** [clean] computations compose. *)
Lemma clean_ret {A} P (a : A) : clean P (ret a).
Proof. by split. Qed.

Lemma clean_raise {A} P e : clean P (@raise A e).
Proof. by split. Qed.

Lemma clean_emit (P : event -> Prop) ev : P ev -> clean P (emit ev).
Proof. split; [done | by constructor]. Qed.

Lemma clean_bind {A B} P (m : M A) (k : A -> M B) :
  clean P m -> (forall a, clean P (k a)) -> clean P (bind m k).
Proof.
  intros [Hm Htr] Hk. split.
  - rewrite outcome_bind. destruct (outcome m) as [a | e |]; [apply Hk | done | done].
  - rewrite trace_bind. destruct (outcome m) as [a | e |]; [| done | done].
    apply Forall_app. split; [done | apply Hk].
Qed.

Lemma clean_call {A} P (r : exn + A) : clean P (call r).
Proof. by destruct r. Qed.

Lemma clean_getitem P d key : clean P (getitem d key).
Proof. unfold getitem. by destruct (d !! key). Qed.

Lemma clean_assert P cond msg : clean P (assert cond msg).
Proof. by destruct cond. Qed.

Lemma clean_column_values P df c : clean P (column_values df c).
Proof. unfold column_values. by destruct (position c (columns df)). Qed.

(** A sequence fails before any write when its first part does, or when
    its first part makes no write and whatever follows fails so. *)
Lemma fails_before_upload_bind_l {A B} (m : M A) (k : A -> M B) :
  fails_before_upload m -> fails_before_upload (bind m k).
Proof.
  intros [Hr Hu]. unfold fails_before_upload.
  rewrite outcome_bind, trace_bind. by destruct (outcome m).
Qed.

Lemma fails_before_upload_bind_r {A B} (m : M A) (k : A -> M B) :
  clean not_upload m -> (forall a, fails_before_upload (k a)) ->
  fails_before_upload (bind m k).
Proof.
  intros [Hd Htr] Hk. apply uploads_none in Htr. unfold fails_before_upload.
  rewrite outcome_bind, trace_bind.
  destruct (outcome m) as [a | e |]; [| done | done].
  destruct (Hk a) as [Hr Hu]. split; [done |]. by rewrite uploads_app, Htr, Hu.
Qed.

(** ** Lists, masks and columns *)

(** Membership in the image of a list. *)
Lemma elem_of_map {A B} (f : A -> B) (l : list A) y :
  y ∈ map f l <-> exists x, y = f x /\ x ∈ l.
Proof.
  rewrite list_elem_of_In, in_map_iff. split.
  - intros (x & <- & Hx). exists x. by rewrite list_elem_of_In.
  - intros (x & -> & Hx). exists x. by rewrite <- list_elem_of_In.
Qed.

(** Zipping a list with its own image. *)
Lemma zip_with_map_l {A B C} (f : B -> A -> C) (g : A -> B) (l : list A) :
  zip_with f (map g l) l = map (fun x => f (g x) x) l.
Proof. induction l as [|x l IH]; [done |]. simpl. by rewrite IH. Qed.

(** Selection by a mask: the selected entries are entries; an entry is
    selected by the mask or by its complement; the two selections share
    the list between them. *)
Lemma select_elem_of {A} (m : list bool) (l : list A) x : x ∈ select m l -> x ∈ l.
Proof.
  revert m. induction l as [|y l IH]; intros [|[] m] Hx; simpl in Hx;
    try by apply elem_of_nil in Hx.
  - apply elem_of_cons in Hx as [-> | Hx]; [left | right; by eapply IH].
  - right. by eapply IH.
Qed.

Lemma select_split {A} (m : list bool) (l : list A) x :
  length m = length l -> x ∈ l -> x ∈ select m l \/ x ∈ select (map negb m) l.
Proof.
  revert m. induction l as [|y l IH]; intros [|b m] Hlen Hx; simpl in *;
    try discriminate; try by apply elem_of_nil in Hx.
  injection Hlen as Hlen.
  apply elem_of_cons in Hx as [-> | Hx].
  - destruct b; simpl; [left | right]; left.
  - destruct (IH m Hlen Hx); destruct b; simpl; auto using list_elem_of_further.
Qed.

Lemma select_lengths {A} (m : list bool) (l : list A) :
  length m = length l ->
  length l = length (select m l) + length (select (map negb m) l).
Proof.
  revert m. induction l as [|y l IH]; intros [|b m] Hlen; simpl in *;
    try discriminate; [done |].
  injection Hlen as Hlen. specialize (IH m Hlen). destruct b; simpl; lia.
Qed.

Lemma select_none {A} (m : list bool) (l : list A) :
  length m = length l -> select m l = [] -> select (map negb m) l = l.
Proof.
  revert m. induction l as [|y l IH]; intros [|b m] Hlen Hnil; simpl in *;
    try discriminate; [done |].
  injection Hlen as Hlen. destruct b; [discriminate |]. simpl. f_equal. by apply IH.
Qed.

(** A mask computed entry by entry selects what [filter] keeps. *)
Lemma select_map_filter {A} (f : A -> bool) (l : list A) :
  select (map f l) l = List.filter f l.
Proof. induction l as [|y l IH]; [done |]. simpl. rewrite IH. by destruct (f y). Qed.

(** With distinct labels, no row kept by the complement of a mask has the
    label of a row selected by the mask: dropping the labels of the
    selected rows leaves the rows of the complement. *)
Lemma select_labels_apart {A} (m : list bool) (l : list (nat * A)) r :
  NoDup (map fst l) -> r ∈ select (map negb m) l -> fst r ∉ map fst (select m l).
Proof.
  revert m. induction l as [|y l IH]; intros [|b m] Hnd Hr; simpl in *;
    try by apply elem_of_nil in Hr.
  apply NoDup_cons in Hnd as [Hy Hnd].
  assert (Hsub : forall m' z, z ∈ select m' l -> fst z ∈ map fst l).
  { intros m' z Hz. apply elem_of_map. exists z. split; [done |]. by eapply select_elem_of. }
  destruct b; simpl in *.
  - intros [Heq | Hin]%elem_of_cons.
    + apply Hy. rewrite <- Heq. by eapply Hsub.
    + by eapply IH.
  - apply elem_of_cons in Hr as [-> | Hr].
    + intros Hin. apply Hy.
      apply elem_of_map in Hin as (z & -> & Hz).
      by eapply Hsub.
    + by eapply IH.
Qed.

Lemma drop_selected_labels {A} (m : list bool) (l : list (nat * A)) :
  length m = length l -> NoDup (map fst l) ->
  List.filter (fun r => negb (bool_decide (fst r ∈ map fst (select m l)))) l
  = select (map negb m) l.
Proof.
  intros Hlen Hnd.
  assert (Hin : forall r, r ∈ select m l -> fst r ∈ map fst (select m l)).
  { intros r Hr. apply elem_of_map. by exists r. }
  assert (Hout : forall r, r ∈ select (map negb m) l -> fst r ∉ map fst (select m l)).
  { intros r. by apply select_labels_apart. }
  revert Hin Hout. generalize (map fst (select m l)). intros labels.
  clear Hnd. revert m Hlen.
  induction l as [|y l IH]; intros [|b m] Hlen Hin Hout; simpl in *;
    try discriminate; [done |].
  injection Hlen as Hlen. destruct b; simpl in *.
  - rewrite bool_decide_eq_true_2 by (apply Hin; left). simpl.
    apply IH; [done | |]; intros r Hr; [apply Hin | apply Hout]; by try right.
  - rewrite bool_decide_eq_false_2 by (apply Hout; left). simpl. f_equal.
    apply IH; [done | |]; intros r Hr; [apply Hin | apply Hout]; by try right.
Qed.

(** The mask of repeated entries has the length of the list. *)
Lemma length_duplicated_from {A} `{EqDecision A} (seen l : list A) :
  length (duplicated_from seen l) = length l.
Proof. revert seen. induction l as [|x l IH]; intros seen; simpl; by rewrite ?IH. Qed.

(** A column that is listed has a position. *)
Lemma position_elem_of c cs : c ∈ cs -> exists i, position c cs = Some i.
Proof.
  induction cs as [|c' cs IH]; intros Hc; [by apply elem_of_nil in Hc |].
  simpl. destruct (decide (c' = c)); [by exists 0 |].
  apply elem_of_cons in Hc as [-> | Hc]; [done |].
  destruct (IH Hc) as [i ->]. by exists (S i).
Qed.

(** [df[c]] returns the cells at the first position of [c] and raises
    [KeyError] when there is none. *)
Lemma column_values_position df c i :
  position c (columns df) = Some i -> column_values df c = (Ok (map (cell i) (rows df)), []).
Proof. unfold column_values. by intros ->. Qed.

Lemma column_values_missing df c :
  position c (columns df) = None -> column_values df c = (Raise (KeyError c), []).
Proof. unfold column_values. by intros ->. Qed.

(** The names kept by [~duplicated] are distinct. *)
Lemma select_first_kept_NoDup (seen l : list string) :
  NoDup (select (first_kept seen l) l)
  /\ (forall c, c ∈ select (first_kept seen l) l -> c ∉ seen).
Proof.
  revert seen. induction l as [|x l IH]; intros seen.
  - split; [constructor | by intros c ?%elem_of_nil].
  - unfold first_kept. simpl. fold (first_kept (x :: seen) l).
    destruct (IH (x :: seen)) as [Hnd Hout]. case_bool_decide as Hx; simpl.
    + split; [done |]. intros c Hc Hseen. apply (Hout c Hc). by right.
    + split.
      * constructor; [| done]. intros Hin. apply (Hout x Hin). by left.
      * intros c [-> | Hc]%elem_of_cons; [done |].
        intros Hseen. apply (Hout c Hc). by right.
Qed.

(** A name keeps its cells when repeated names are dropped: the kept
    column of that name is the first one. *)
Lemma position_select_first_kept (seen l : list string) (c : string) :
  c ∉ seen ->
  match position c l with
  | Some i =>
      exists k, position c (select (first_kept seen l) l) = Some k
                /\ forall cells : list value,
                     nth k (select (first_kept seen l) cells) VNull = nth i cells VNull
  | None => position c (select (first_kept seen l) l) = None
  end.
Proof.
  revert seen. induction l as [|x l IH]; intros seen Hc; [done |].
  unfold first_kept. simpl. fold (first_kept (x :: seen) l).
  destruct (decide (x = c)) as [-> | Hne].
  - rewrite bool_decide_eq_false_2 by done. simpl. rewrite decide_True by done.
    exists 0. split; [done |]. by intros [|v cells].
  - assert (Hc' : c ∉ x :: seen) by (by apply not_elem_of_cons).
    pose proof (IH (x :: seen) Hc') as IHx.
    destruct (position c l) as [i |] eqn:Hpos; simpl.
    + destruct IHx as (k & Hk & Hcells). case_bool_decide; simpl.
      * exists k. split; [done |]. intros [|v cells]; [by destruct k | apply Hcells].
      * rewrite decide_False by done. rewrite Hk. exists (S k). split; [done |].
        intros [|v cells]; [done | apply Hcells].
    + case_bool_decide; simpl; [done |]. rewrite decide_False by done. by rewrite IHx.
Qed.

(** Dropping repeated column names changes no [df[c]]. *)
Lemma column_values_drop_duplicated_columns df c :
  column_values (drop_duplicated_columns df) c = column_values df c.
Proof.
  unfold column_values, drop_duplicated_columns. cbn [columns rows].
  assert (Hc : c ∉ @nil string) by apply not_elem_of_nil.
  pose proof (position_select_first_kept [] (columns df) c Hc) as H.
  unfold first_kept in H. fold (duplicated (columns df)) in H.
  destruct (position c (columns df)) as [i |].
  - destruct H as (k & -> & Hcells). rewrite map_map. unfold ret. do 2 f_equal.
    apply map_ext. intros r. unfold cell. simpl. apply Hcells.
  - by rewrite H.
Qed.

Lemma drop_duplicated_columns_NoDup df : NoDup (columns (drop_duplicated_columns df)).
Proof. apply (select_first_kept_NoDup [] (columns df)). Qed.

(** ** Table uploader *)

(** The chunks of a list: unfolding, concatenation, sizes. *)
Lemma chunks_of_nonempty {A} fuel cs (l : list A) :
  l <> [] -> chunks_of (S fuel) cs l = take cs l :: chunks_of fuel cs (drop cs l).
Proof. by destruct l. Qed.

Lemma chunks_of_concat {A} fuel cs (l : list A) :
  1 <= cs -> length l <= fuel -> concat (chunks_of fuel cs l) = l.
Proof.
  intros Hcs. revert l. induction fuel as [|fuel IH]; intros l Hl.
  - destruct l; simpl in *; [done | lia].
  - destruct l as [|x l]; [done |].
    change (chunks_of (S fuel) cs (x :: l))
      with (take cs (x :: l) :: chunks_of fuel cs (drop cs (x :: l))).
    rewrite concat_cons, IH, take_drop; [done |].
    rewrite length_drop. simpl in *. lia.
Qed.

Lemma chunks_of_bounded {A} fuel cs (l : list A) :
  Forall (fun c => 1 <= length c <= cs) (chunks_of fuel cs l) \/ cs = 0.
Proof.
  destruct cs as [|cs]; [by right | left].
  revert l. induction fuel as [|fuel IH]; intros l.
  - destruct l; constructor.
  - destruct l as [|x l]; [constructor |].
    change (chunks_of (S fuel) (S cs) (x :: l))
      with (take (S cs) (x :: l) :: chunks_of fuel (S cs) (drop (S cs) (x :: l))).
    constructor; [| apply IH].
    rewrite length_take. simpl. lia.
Qed.

Lemma chunks_of_sizes {A} fuel cs (l : list A) :
  map length (chunks_of fuel cs l) = chunk_sizes fuel cs (length l).
Proof.
  revert l. induction fuel as [|fuel IH]; intros l.
  - by destruct l.
  - destruct l as [|x l]; [done |].
    change (chunks_of (S fuel) cs (x :: l))
      with (take cs (x :: l) :: chunks_of fuel cs (drop cs (x :: l))).
    change (chunk_sizes (S fuel) cs (length (x :: l)))
      with (Nat.min cs (length (x :: l))
              :: chunk_sizes fuel cs (length (x :: l) - cs)).
    simpl map. by rewrite IH, length_take, length_drop.
Qed.

(** The chunk written by a turn of the loop, and the rows left after it. *)
Lemma iloc_chunk df cs start :
  to_csv (iloc df start (Nat.min (start + cs) (shape0 df)))
  = mkTsv (columns df) (take cs (map snd (drop start (rows df)))).
Proof.
  unfold to_csv, iloc, shape0. cbn [columns rows]. f_equal.
  rewrite firstn_map. f_equal.
  destruct (decide (start + cs <= length (rows df))).
  - f_equal. lia.
  - rewrite !take_ge; [done | |]; rewrite length_drop; lia.
Qed.

Lemma drop_chunk df cs start :
  map snd (drop (Nat.min (start + cs) (shape0 df)) (rows df))
  = drop cs (map snd (drop start (rows df))).
Proof.
  unfold shape0. rewrite skipn_map, drop_drop. f_equal.
  destruct (decide (start + cs <= length (rows df))).
  - f_equal. lia.
  - rewrite !drop_ge; [done | lia | lia].
Qed.

Lemma remaining_rows_nonempty df start :
  start < shape0 df -> map snd (drop start (rows df)) <> [].
Proof.
  intros Hlt Hnil. apply (f_equal length) in Hnil.
  rewrite length_map, length_drop in Hnil. unfold shape0 in Hlt. simpl in Hnil. lia.
Qed.

(** A write that the store accepts takes one attempt. *)
Lemma fapi_upload_entities_accepted ws t :
  (forall n, upload_entities ws t n = Response 200 tt) ->
  fapi_upload_entities ws t = (Ok tt, [Upload t (Some 200%Z)]).
Proof.
  intros Hacc. unfold fapi_upload_entities, retry. simpl.
  unfold fapi_upload_entities_body. by rewrite Hacc.
Qed.

(** With a store that accepts every write the loop sends the chunks one
    after the other, once each, and returns. *)
Lemma upload_loop_accepted ws df cs fuel start :
  (forall t n, upload_entities ws t n = Response 200 tt) ->
  1 <= cs -> shape0 df - start <= fuel ->
  upload_loop fuel ws df cs start =
    (Ok tt, flat_map (sent (columns df))
              (chunks_of fuel cs (map snd (drop start (rows df))))).
Proof.
  intros Hacc Hcs. revert start.
  induction fuel as [|fuel IH]; intros start Hfuel; cbn [upload_loop];
    case_decide as Hlt.
  - lia.
  - unfold shape0 in Hlt. by rewrite drop_ge by lia.
  - rewrite iloc_chunk, fapi_upload_entities_accepted by done.
    rewrite bind_ok. unfold output_now, emit. rewrite bind_ok.
    rewrite IH by lia. rewrite drop_chunk.
    by rewrite (chunks_of_nonempty fuel) by by apply remaining_rows_nonempty.
  - unfold shape0 in Hlt. by rewrite drop_ge by lia.
Qed.

Lemma uploads_sent h cs : uploads (flat_map (sent h) cs) = map (mkTsv h) cs.
Proof. induction cs as [|c cs IH]; [done |]. simpl. by rewrite <- IH. Qed.

Lemma upload_entities_df_accepted ws df cs :
  (forall t n, upload_entities ws t n = Response 200 tt) ->
  1 <= cs ->
  upload_entities_df ws df cs =
    (Ok tt,
     [LogInfo MsgUploadStarting; Stderr "Uploading "]
       ++ flat_map (sent (columns df)) (chunks_of (shape0 df) cs (map snd (rows df)))
       ++ [Stderr "
"; LogInfo MsgUploadFinished]).
Proof.
  intros Hacc Hcs. unfold upload_entities_df, output_now, emit.
  rewrite !bind_ok. rewrite upload_loop_accepted by (done || lia).
  rewrite drop_0. rewrite !bind_ok. done.
Qed.

(** With [chunk_size = 0] and a row to upload the loop writes empty chunks
    and never ends. *)
Lemma upload_loop_zero_chunk_size ws df fuel :
  (forall t n, upload_entities ws t n = Response 200 tt) ->
  0 < shape0 df ->
  outcome (upload_loop fuel ws df 0 0) = Diverge.
Proof.
  intros Hacc Hrows. induction fuel as [|fuel IH]; cbn [upload_loop];
    rewrite decide_True by done; [done |].
  rewrite fapi_upload_entities_accepted by done.
  rewrite bind_ok. unfold output_now, emit. rewrite bind_ok.
  unfold outcome at 1 2. cbn [fst Nat.add]. by rewrite Nat.min_0_l.
Qed.

(** One attempt at writing a chunk: accepted, refused by the service, or
    lost in the network. *)
Lemma fapi_upload_entities_body_cases ws t k :
  fapi_upload_entities_body ws t k = (Ok tt, [Upload t (Some 200%Z)])
  \/ (exists code, code <> 200%Z
        /\ fapi_upload_entities_body ws t k
           = (Raise (FireCloudServerError code), [Upload t (Some code)]))
  \/ fapi_upload_entities_body ws t k = (Raise ConnectionError, [Upload t None]).
Proof.
  unfold fapi_upload_entities_body.
  destruct (upload_entities ws t k) as [code [] |]; [| by right; right].
  unfold emit. rewrite bind_ok. case_decide as Hcode.
  - left. by subst.
  - right. left. by exists code.
Qed.

(** Whatever the store answers, [fapi_upload_entities] returns after
    committing the chunk once, or raises without committing it. *)
Lemma fapi_upload_entities_cases ws t :
  (outcome (fapi_upload_entities ws t) = Ok tt
   /\ committed (trace (fapi_upload_entities ws t)) = [t])
  \/ (raises (outcome (fapi_upload_entities ws t))
      /\ committed (trace (fapi_upload_entities ws t)) = []).
Proof.
  unfold fapi_upload_entities, retry.
  cbn [retry_from Nat.sub].
  destruct (fapi_upload_entities_body_cases ws t 1) as [-> | [(c1 & Hc1 & ->) | ->]];
    [by left | | by right].
  cbn [retry_if_exception_type_FireCloudServerError].
  destruct (fapi_upload_entities_body_cases ws t 2) as [-> | [(c2 & Hc2 & ->) | ->]];
    [left | | right];
    cbn [retry_if_exception_type_FireCloudServerError].
  2: destruct (fapi_upload_entities_body_cases ws t 3)
       as [-> | [(c3 & Hc3 & ->) | ->]]; [left | right | right].
  all: split; [done |]; by count_committed.
Qed.

(** An upload that returns has committed every chunk once, in order. *)
Lemma upload_loop_committed ws df cs fuel start :
  1 <= cs -> shape0 df - start <= fuel ->
  outcome (upload_loop fuel ws df cs start) = Ok tt ->
  committed (trace (upload_loop fuel ws df cs start))
  = map (mkTsv (columns df)) (chunks_of fuel cs (map snd (drop start (rows df)))).
Proof.
  intros Hcs. revert start.
  induction fuel as [|fuel IH]; intros start Hfuel Hok; cbn [upload_loop] in *;
    case_decide as Hlt.
  - lia.
  - unfold shape0 in Hlt. by rewrite drop_ge by lia.
  - rewrite iloc_chunk in *.
    apply outcome_bind_ok in Hok as ([] & Hwrite & Hok & ->).
    apply outcome_bind_ok in Hok as ([] & _ & Hok & ->).
    rewrite !committed_app. rewrite IH; [| lia | done].
    destruct (fapi_upload_entities_cases ws
                (mkTsv (columns df) (take cs (map snd (drop start (rows df))))))
      as [[_ ->] | [Hraise _]]; [| by rewrite Hwrite in Hraise].
    rewrite drop_chunk.
    by rewrite (chunks_of_nonempty fuel) by by apply remaining_rows_nonempty.
  - unfold shape0 in Hlt. by rewrite drop_ge by lia.
Qed.

Lemma upload_entities_df_committed ws df cs :
  1 <= cs ->
  outcome (upload_entities_df ws df cs) = Ok tt ->
  committed (trace (upload_entities_df ws df cs))
  = map (mkTsv (columns df)) (chunks_of (shape0 df) cs (map snd (rows df))).
Proof.
  intros Hcs Hok. unfold upload_entities_df in *.
  apply outcome_bind_ok in Hok as ([] & _ & Hok & ->).
  apply outcome_bind_ok in Hok as ([] & _ & Hok & ->).
  apply outcome_bind_ok in Hok as ([] & Hloop & Hok & ->).
  apply outcome_bind_ok in Hok as ([] & _ & Hok & ->).
  rewrite !committed_app, upload_loop_committed by (done || lia).
  by rewrite drop_0, app_nil_r.
Qed.

(** Claim C1.  For every frame and every [chunk_size >= 1],
    [upload_entities_df] cuts the rows into contiguous chunks of 1 to
    [chunk_size] rows which, put end to end, are the rows of the frame in
    their order.  An upload that returns has committed each chunk to the
    store once, in order, under the header of the frame; when the store
    accepts the writes the upload returns after exactly one write per
    chunk.  A frame of 1200 rows uploaded with [chunk_size = 500] is
    written in 3 chunks of 500, 500 and 200 rows. *)
Theorem upload_entities_df_chunked ws df chunk_size :
  1 <= chunk_size ->
  exists chunks : list (list (list value)),
    Forall (fun c => 1 <= length c <= chunk_size) chunks
    /\ concat chunks = map snd (rows df)
    /\ (shape0 df = 1200 -> chunk_size = 500 -> map length chunks = [500; 500; 200])
    /\ (outcome (upload_entities_df ws df chunk_size) = Ok tt ->
        committed (trace (upload_entities_df ws df chunk_size))
        = map (mkTsv (columns df)) chunks)
    /\ ((forall t n, upload_entities ws t n = Response 200 tt) ->
        outcome (upload_entities_df ws df chunk_size) = Ok tt
        /\ uploads (trace (upload_entities_df ws df chunk_size))
           = map (mkTsv (columns df)) chunks).
Proof.
  intros Hcs. exists (chunks_of (shape0 df) chunk_size (map snd (rows df))).
  split; [| split; [| split; [| split]]].
  - by destruct (chunks_of_bounded (shape0 df) chunk_size (map snd (rows df)))
      as [Hb | ->]; [| lia].
  - apply chunks_of_concat; [done |]. unfold shape0. by rewrite length_map.
  - intros Hn ->. rewrite chunks_of_sizes, length_map. fold (shape0 df).
    rewrite Hn. by vm_compute.
  - by apply upload_entities_df_committed.
  - intros Hacc. rewrite upload_entities_df_accepted by done.
    split; [done |]. unfold trace. cbn [snd].
    rewrite (uploads_app [_; _]), uploads_app, uploads_sent.
    change (uploads [LogInfo MsgUploadStarting; Stderr "Uploading "]) with (@nil tsv).
    match goal with |- context [uploads [?x; ?y]] =>
      change (uploads [x; y]) with (@nil tsv) end.
    by rewrite app_nil_l, app_nil_r.
Qed.

(** The upload of [df1200] in chunks of 500. *)
Lemma upload_entities_df_chunked_witness :
  map (fun t => length (lines t))
    (uploads (trace (upload_entities_df (steady_workspace []) df1200 500)))
  = [500; 500; 200].
Proof.
  destruct (upload_entities_df_chunked (steady_workspace []) df1200 500)
    as (chunks & _ & _ & Hsizes & _ & Haccepted); [lia |].
  destruct Haccepted as [_ ->]; [reflexivity |].
  rewrite map_map. cbn [lines]. apply Hsizes; reflexivity.
Defined.

(** ** Column namer *)

(** The renaming loop acts on each column name on its own. *)
Lemma rename_step_columns t d s :
  rename_step t d s =
    {| columns := map (rename_one s (loop_target t s)) (columns d); rows := rows d |}.
Proof. unfold rename_step, loop_target, rename_column. by case_bool_decide. Qed.

Lemma fold_rename_step t sources d :
  fold_left (rename_step t) sources d =
    {| columns := map (renamed_by_loop t sources) (columns d); rows := rows d |}.
Proof.
  revert d. induction sources as [|s sources IH]; intros d.
  - simpl. destruct d. simpl. by rewrite map_id.
  - simpl fold_left. rewrite IH, rename_step_columns. cbn [columns rows].
    rewrite map_map. f_equal.
Qed.

Lemma renamed_by_loop_cons t s sources c :
  renamed_by_loop t (s :: sources) c =
    renamed_by_loop t sources (rename_one s (loop_target t s) c).
Proof. done. Qed.

(** A name that is not among the sources is left alone; a source whose
    new name is not a later source ends with its documented name. *)
Lemma renamed_by_loop_other t sources c :
  c ∉ sources -> renamed_by_loop t sources c = c.
Proof.
  revert c. induction sources as [|s sources IH]; intros c Hc; [done |].
  apply not_elem_of_cons in Hc as [Hne Hc]. rewrite renamed_by_loop_cons.
  unfold rename_one. rewrite decide_False by done. by apply IH.
Qed.

Lemma no_name_reused_head t c cs :
  no_name_reused t (c :: cs) = true ->
  (canonical_name t c ∉ cs) /\ no_name_reused t cs = true.
Proof.
  simpl. intros [Hhead Htail]%andb_true_iff. split; [| done].
  intros Hin. rewrite forallb_forall in Hhead.
  specialize (Hhead _ (proj1 (list_elem_of_In _ _) Hin)).
  apply negb_true_iff in Hhead. by rewrite String.eqb_refl in Hhead.
Qed.

Lemma renamed_by_loop_source t sources c :
  no_name_reused t sources = true -> c ∈ sources -> c <> entity_column t ->
  renamed_by_loop t sources c = canonical_name t c.
Proof.
  intros Hno Hin Hne. induction sources as [|s sources IH]; [by apply elem_of_nil in Hin |].
  apply no_name_reused_head in Hno as [Hfresh Hno]. rewrite renamed_by_loop_cons.
  unfold rename_one. destruct (decide (c = s)) as [-> | Hcs].
  - rewrite renamed_by_loop_other.
    + unfold canonical_name, loop_target. by rewrite decide_False.
    + unfold canonical_name in Hfresh. rewrite decide_False in Hfresh by done. done.
  - apply IH; [done |]. apply elem_of_cons in Hin as [? | ?]; done.
Qed.

Lemma canonical_name_entity_column t :
  canonical_name t (entity_column t) = t +:+ "_entity_id".
Proof. unfold canonical_name. by rewrite decide_True. Qed.

(** Before repeated names are dropped, the renamed frame is the frame of
    the documented names. *)
Lemma rename_gen3_columns_renamed t df rest :
  columns df = entity_column t :: rest ->
  no_name_reused t (columns df) = true ->
  fold_left (rename_step t) (tail (columns df))
    (rename_column df (entity_column t) (t +:+ "_entity_id"))
  = canonical_frame t df.
Proof.
  intros Hcols Hno. rewrite fold_rename_step. unfold canonical_frame. simpl.
  f_equal. rewrite map_map. apply map_ext_in. intros c Hc%list_elem_of_In.
  rewrite Hcols in Hno, Hc |- *. simpl tail.
  apply no_name_reused_head in Hno as [Hfresh Hno].
  fold (rename_one (entity_column t) (t +:+ "_entity_id") c). unfold rename_one.
  destruct (decide (c = entity_column t)) as [-> | Hne].
  - rewrite canonical_name_entity_column in Hfresh |- *.
    by apply renamed_by_loop_other.
  - apply renamed_by_loop_source; [done | | done].
    apply elem_of_cons in Hc as [? | ?]; done.
Qed.

(** A first column that is not the entity-id column keeps its raw name:
    the renaming is not the documented one on every list of names. *)
Lemma rename_gen3_columns_first_column_kept :
  rename_gen3_columns "subject" unkeyed_frame
  <> drop_duplicated_columns (canonical_frame "subject" unkeyed_frame).
Proof. vm_compute. discriminate. Qed.

(** When the new name of a column is the raw name of a later column, the
    later turn renames both columns and one of them is dropped. *)
Lemma rename_gen3_columns_shadowed :
  rename_gen3_columns "subject" shadowing_frame =
    {| columns := ["subject_entity_id"; "subject_subject_id"];
       rows := [(0, [VStr "s1"; VNum 7])] |}.
Proof. by vm_compute. Qed.

(** The set of entity types holds the concatenation of two of its names
    in their place. *)
Lemma gen3_names_run_together :
  ("read_group_qc" ∉ GEN3_TABLE_NAMES)
  /\ ("reference_file" ∉ GEN3_TABLE_NAMES)
  /\ ("read_group_qcreference_file" ∈ GEN3_TABLE_NAMES).
Proof. repeat split; apply (bool_decide_unpack _); by vm_compute. Qed.

(** Claim C2, amended.  For every table name and every list of raw column
    names that starts with the entity-id column [entity:<t>_id] and in
    which no column's new name is the raw name of a later column, the
    renaming gives [<t>_entity_id] to the entity-id column,
    [<n>_entity_id] to every other column named after an entity type of
    [GEN3_TABLE_NAMES] and [<t>_<original>] to every remaining column,
    then keeps the first column of each resulting name and drops the
    others.  The renaming is a total function: nothing is raised. *)
Theorem rename_gen3_columns_canonical table_name df rest :
  columns df = entity_column table_name :: rest ->
  no_name_reused table_name (columns df) = true ->
  rename_gen3_columns table_name df
    = drop_duplicated_columns (canonical_frame table_name df)
  /\ NoDup (columns (rename_gen3_columns table_name df))
  /\ (forall c, column_values (rename_gen3_columns table_name df) c
                = column_values (canonical_frame table_name df) c).
Proof.
  intros Hcols Hno.
  assert (Heq : rename_gen3_columns table_name df
                = drop_duplicated_columns (canonical_frame table_name df)).
  { unfold rename_gen3_columns.
    fold (entity_column table_name).
    by erewrite rename_gen3_columns_renamed. }
  rewrite Heq. split; [done |]. split.
  - apply drop_duplicated_columns_NoDup.
  - intros c. apply column_values_drop_duplicated_columns.
Qed.

(** The renaming of [sample_frame]: its own key and the column [sample]
    both become [sample_entity_id], and the first is kept. *)
Lemma rename_gen3_columns_canonical_witness :
  rename_gen3_columns "sample" sample_frame =
    {| columns := ["sample_entity_id"; "subject_entity_id"; "sample_tissue"];
       rows := [(0, [VStr "x1"; VStr "s1"; VStr "blood"])] |}.
Proof.
  destruct (rename_gen3_columns_canonical "sample" sample_frame
              ["sample"; "subject"; "tissue"]) as [-> _];
    [reflexivity | by vm_compute | by vm_compute].
Defined.

(** ** Table fetcher *)

(** One attempt at fetching a table returns a frame or raises. *)
Lemma get_terra_table_to_df_body_cases ws t k :
  (exists df, get_terra_table_to_df_body ws t k = (Ok df, [Fetch t k]))
  \/ (exists e, get_terra_table_to_df_body ws t k = (Raise e, [Fetch t k])).
Proof.
  unfold get_terra_table_to_df_body, emit. rewrite bind_ok.
  destruct (get_entities_tsv ws t k) as [status text |]; [| right; by eexists].
  destruct (decide (status = 200%Z)) as [-> | Hne]; [left; by eexists |].
  right. exists (FireCloudServiceException status).
  destruct status as [| p | p]; try done.
  repeat (destruct p as [p | p |]; try done).
Qed.

(** The pauses of the retry policy lie between 2 and 10 seconds. *)
Lemma wait_exponential_bounds k :
  (2 <= wait_exponential 1 2 10 k <= 10)%Z.
Proof. unfold wait_exponential. lia. Qed.

(** The fetch of a table that the store does not hold is attempted three
    times. *)
Lemma table_not_found_is_retried :
  get_terra_table_to_df (steady_workspace []) "subject"
  = (Raise (FireCloudServiceException 404),
     [Fetch "subject" 1; LogInfo (MsgRetrying 2); Sleep 2;
      Fetch "subject" 2; LogInfo (MsgRetrying 4); Sleep 4;
      Fetch "subject" 3]).
Proof. by vm_compute. Qed.

(** Claim C7, amended.  [get_terra_table_to_df] makes 1 to 3 attempts.  An
    attempt is made when every attempt before it raised, whatever the
    failure, a missing table included; the outcome is the outcome of the
    last attempt, so that the failure of the third attempt is raised as it
    is.  The pauses between attempts are 2 then 4 seconds, within 2 and 10
    seconds. *)
Theorem get_terra_table_to_df_retries ws table_name :
  let m := get_terra_table_to_df ws table_name in
  exists n,
    1 <= n <= 3
    /\ (forall k, 1 <= k < n -> raises (attempt_outcome ws table_name k))
    /\ (n < 3 -> returns (attempt_outcome ws table_name n))
    /\ outcome m = attempt_outcome ws table_name n
    /\ fetches (trace m) = map (fun k => (table_name, k)) (seq 1 n)
    /\ sleeps (trace m) = take (n - 1) [2; 4]%Z
    /\ Forall (fun s => 2 <= s <= 10)%Z (sleeps (trace m)).
Proof.
  intros m. subst m. unfold get_terra_table_to_df, retry, attempt_outcome.
  cbn [retry_from Nat.sub retry_always].
  destruct (get_terra_table_to_df_body_cases ws table_name 1) as [[df1 H1] | [e1 H1]];
    rewrite H1.
  { exists 1. rewrite H1. repeat split; try done; try lia; try (intros; lia); repeat constructor. }
  destruct (get_terra_table_to_df_body_cases ws table_name 2) as [[df2 H2] | [e2 H2]];
    rewrite H2.
  { exists 2. rewrite H2. repeat split; try done; try lia.
    - intros k Hk. assert (k = 1) as -> by lia. by rewrite H1.
    - repeat constructor; unfold wait_exponential; lia. }
  assert (Hbefore : forall k, 1 <= k < 3 ->
            raises (outcome (get_terra_table_to_df_body ws table_name k))).
  { intros k Hk. assert (k = 1 \/ k = 2) as [-> | ->] by lia; by rewrite ?H1, ?H2. }
  exists 3.
  destruct (get_terra_table_to_df_body_cases ws table_name 3) as [[df3 H3] | [e3 H3]];
    rewrite H3; repeat split; try done; try lia;
    repeat constructor; unfold wait_exponential; lia.
Qed.

(** ** Deduplicator *)

(** What a call of [_deduplicate_merge_data] with an accumulator does when
    it returns. *)
Lemma deduplicate_returns merged current table key merged' current' tr :
  _deduplicate_merge_data (Some merged) current table key
    = (Ok (merged', current'), tr) ->
  exists ik,
    position key (columns current) = Some ik
    /\ let dups := duplicated (map (cell ik) (rows current)) in
       let eid := get_entity_id_column_name table in
       (select dups (rows current) = []
        /\ merged' = Some merged /\ current' = current /\ tr = [])
       \/ (select dups (rows current) <> []
           /\ exists ie,
               position eid (columns current) = Some ie
               /\ current' = drop_labels current (map fst (select dups (rows current)))
               /\ tr = [LogWarning (MsgDuplicatesRemoved
                          (length (select dups (rows current))) table key
                          (map (cell ik) (select dups (rows current))))]
               /\ match position eid (columns merged) with
                  | Some im =>
                      merged' = Some (drop_labels merged
                        (map fst (List.filter
                           (fun r => bool_decide
                              (cell im r ∈ map (cell ie) (select dups (rows current))))
                           (rows merged))))
                  | None => merged' = Some merged
                  end).
Proof.
  unfold _deduplicate_merge_data.
  destruct (position key (columns current)) as [ik |] eqn:Hik.
  2: { by rewrite (column_values_missing _ _ Hik). }
  rewrite (column_values_position _ _ _ Hik). rewrite bind_ok.
  unfold outcome, trace. cbn [app].
  set (dups := duplicated (map (cell ik) (rows current))).
  assert (Hsel : columns (select_rows current dups) = columns current) by done.
  rewrite (column_values_position (select_rows current dups) key ik) by by rewrite Hsel.
  rewrite bind_ok. cbn [rows select_rows].
  intros H. exists ik. split; [done |]. cbv zeta. fold dups.
  case_decide as Hlen.
  - left. rewrite length_map in Hlen. apply length_zero_iff_nil in Hlen.
    unfold outcome, trace in H. simpl in H. by injection H as <- <- <-.
  - right. rewrite length_map in Hlen.
    split; [by intros Hnil; rewrite Hnil in Hlen |].
    destruct (position (get_entity_id_column_name table) (columns current))
      as [ie |] eqn:Hie.
    2: { rewrite (column_values_missing (select_rows current dups)) in H by done.
         done. }
    exists ie. split; [done |].
    rewrite (column_values_position (select_rows current dups) _ ie) in H by done.
    rewrite bind_ok in H. unfold emit in H. rewrite bind_ok in H.
    cbn [rows select_rows] in H.
    case_bool_decide as Hcol.
    + destruct (position_elem_of _ _ Hcol) as [im Him]. rewrite Him.
      rewrite (column_values_position _ _ _ Him) in H. rewrite bind_ok in H.
      unfold outcome, trace, ret in H. cbn [fst snd app] in H.
      injection H as <- <- <-. split; [done |]. split; [by rewrite length_map |].
      unfold isin. rewrite map_map. unfold index, select_rows. cbn [rows].
      by rewrite select_map_filter.
    + unfold outcome, trace, ret in H. cbn [fst snd app] in H.
      injection H as <- <- <-. split; [done |]. split; [by rewrite length_map |].
      destruct (position _ (columns merged)) as [im |] eqn:Him; [| done].
      exfalso. apply Hcol. clear -Him. revert im Him.
      induction (columns merged) as [|c cs IH]; intros im Him; [done |].
      simpl in Him. case_decide; [subst; left |].
      destruct (position _ cs); [| done]. right. by eapply IH.
Qed.

(** Claim C4.  For a candidate table with distinct index labels and an
    accumulator that holds the candidate's entity-id column, a call of
    [_deduplicate_merge_data] that returns keeps the first row of each
    group of rows with the same key, reports the number of rows removed,
    and leaves an accumulator in which no row has, in that entity-id
    column, the entity id of a removed row. *)
Theorem orphan_prevention merged current table key merged' current' tr :
  NoDup (index current) ->
  get_entity_id_column_name table ∈ columns merged ->
  _deduplicate_merge_data (Some merged) current table key
    = (Ok (Some merged', current'), tr) ->
  let eid := get_entity_id_column_name table in
  (exists ik,
      position key (columns current) = Some ik
      /\ rows current' =
           select (map negb (duplicated (map (cell ik) (rows current)))) (rows current))
  /\ (shape0 current' < shape0 current ->
      exists ids, tr = [LogWarning (MsgDuplicatesRemoved
                          (shape0 current - shape0 current') table key ids)])
  /\ (forall im ie r r',
        position eid (columns merged') = Some im ->
        position eid (columns current) = Some ie ->
        r ∈ rows current -> r ∉ rows current' ->
        r' ∈ rows merged' ->
        cell im r' <> cell ie r).
Proof.
  intros Hnd Hcol Hrun eid.
  destruct (deduplicate_returns _ _ _ _ _ _ _ Hrun) as (ik & Hik & Hcases).
  cbv zeta in Hcases. fold eid in Hcases.
  set (dups := duplicated (map (cell ik) (rows current))) in *.
  assert (Hlen : length dups = length (rows current)).
  { unfold dups, duplicated. by rewrite length_duplicated_from, length_map. }
  destruct Hcases as [(Hnone & Hm & -> & ->) | (Hsome & ie & Hie & -> & -> & Hm)].
  - split; [| split].
    + exists ik. split; [done |]. by rewrite select_none.
    + intros; lia.
    + intros im ie' r r' _ _ Hr Hr'. done.
  - assert (Hrows : rows (drop_labels current (map fst (select dups (rows current))))
                    = select (map negb dups) (rows current)).
    { unfold drop_labels. cbn [rows]. by apply drop_selected_labels. }
    split; [| split].
    + exists ik. by split.
    + intros _. eexists. unfold shape0. rewrite Hrows.
      rewrite (select_lengths dups (rows current)) at 1 by done.
      do 3 f_equal. lia.
    + intros im ie' r r' Him Hie' Hr Hgone Hr' Heq.
      rewrite Hrows in Hgone. rewrite Hie in Hie'. injection Hie' as <-.
      destruct (select_split dups (rows current) r Hlen Hr) as [Hsel | ?]; [| done].
      destruct (position_elem_of _ _ Hcol) as [im' Him'].
      fold eid in Him'. rewrite Him' in Hm. injection Hm as ->.
      cbn [columns drop_labels] in Him. rewrite Him' in Him. injection Him as <-.
      unfold drop_labels in Hr'. cbn [rows] in Hr'.
      apply list_elem_of_In, filter_In in Hr' as [Hin Hlabel].
      apply negb_true_iff, bool_decide_eq_false in Hlabel. apply Hlabel.
      apply elem_of_map. exists r'. split; [done |].
      apply list_elem_of_In, filter_In. split; [done |].
      apply bool_decide_eq_true. rewrite Heq. apply elem_of_map. by exists r.
Qed.

(** Sample [x2] is the second sample of subject [s1]: no row of the
    accumulator refers to it after the call. *)
Lemma orphan_prevention_witness :
  Forall (fun r' => cell 1 r' <> cell 0 (1, [VStr "x2"; VStr "s1"]))
    [(0, [VStr "a1"; VStr "x1"]); (2, [VStr "a3"; VStr "x3"])].
Proof.
  assert (NoDup (index sample_candidate)) as Hnd.
  { apply (bool_decide_unpack _). by vm_compute. }
  assert (get_entity_id_column_name "sample" ∈ columns aliquot_accumulator) as Hcol.
  { apply (bool_decide_unpack _). by vm_compute. }
  pose proof (orphan_prevention aliquot_accumulator sample_candidate "sample"
                "subject_entity_id" _ _ _ Hnd Hcol eq_refl) as (_ & _ & H).
  apply Forall_forall. intros r' Hr'.
  apply (H 1 0 (1, [VStr "x2"; VStr "s1"]) r');
    [reflexivity | reflexivity | | | exact Hr'].
  - apply (bool_decide_unpack _). by vm_compute.
  - apply (bool_decide_unpack _). by vm_compute.
Defined.

(** ** Merge planner: join types *)

(** The substitution of entity-id column names leaves [how] alone. *)
Lemma substitute_keeps_how (p : gmap string pyval) :
  _substitute_entity_id_column_name p !! "how" = p !! "how".
Proof.
  unfold _substitute_entity_id_column_name.
  assert (Hkeys : "how" ∉ ["on"; "left_on"; "right_on"]).
  { apply (bool_decide_unpack _). by vm_compute. }
  revert p Hkeys. generalize ["on"; "left_on"; "right_on"].
  intros keys. induction keys as [|key keys IH]; intros p Hkeys; [done |].
  apply not_elem_of_cons in Hkeys as [Hne Hkeys].
  cbn [fold_left]. rewrite IH by done.
  destruct (p !! key) as [v |]; [| done].
  destruct (py_truthy v); [| done]. by rewrite lookup_insert_ne.
Qed.

(** [d.update(other)]: the entries of [other] win. *)
Lemma update_lookup (d other : gmap string pyval) k :
  update d other !! k = match other !! k with Some v => Some v | None => d !! k end.
Proof.
  unfold update. rewrite lookup_union.
  by destruct (other !! k), (d !! k).
Qed.

(** A specification that sets no join type joins with [how="outer"], not
    with the documented [how="inner"]. *)
Lemma bare_spec_joins_outer :
  documented_join_type bare_spec bare_step = PStr "inner"
  /\ step_merge_parameters bare_spec bare_step !! "how"
     <> Some (documented_join_type bare_spec bare_step).
Proof. split; [by vm_compute |]. vm_compute. discriminate. Qed.

(** Claim C3, amended.  The join type of a step is resolved with later
    sources winning: pandas' default [how="inner"], the specification's
    [default_merge_parameters] (which are [how="outer"] when the key is
    missing), its [default_join_type], the step's [merge_parameters] and
    the step's [join_type].  For a specification and a step with none of
    these the join type is ["outer"]. *)
Theorem join_type_resolution merge_spec merge_info :
  step_merge_parameters merge_spec merge_info !! "how"
    = Some (resolved_join_type merge_spec merge_info)
  /\ (default_merge_parameters merge_spec = None ->
      default_join_type merge_spec = None ->
      merge_parameters merge_info = None ->
      join_type merge_info = None ->
      step_merge_parameters merge_spec merge_info !! "how" = Some (PStr "outer")).
Proof.
  assert (H : step_merge_parameters merge_spec merge_info !! "how"
              = Some (resolved_join_type merge_spec merge_info)).
  { unfold step_merge_parameters, resolved_join_type.
    rewrite substitute_keeps_how.
    unfold _create_combined_merge_parameters, spec_default_merge_parameters.
    destruct (join_type merge_info) as [t |]; [by rewrite lookup_insert_eq |].
    assert (Hon : forall (m : gmap string pyval),
               match join_column merge_info with
               | Some c => <["on" := c]> m
               | None => m
               end !! "how" = m !! "how").
    { intros m. destruct (join_column merge_info); [| done].
      by rewrite lookup_insert_ne. }
    rewrite Hon.
    destruct (merge_parameters merge_info) as [p |]; simpl.
    - rewrite update_lookup. destruct (p !! "how") as [h |]; [done |].
      rewrite update_lookup.
      destruct (default_join_type merge_spec) as [d |];
        [by rewrite lookup_insert_eq |].
      destruct (default_merge_parameters merge_spec) as [q |]; [| done].
      by destruct (q !! "how").
    - rewrite update_lookup.
      destruct (default_join_type merge_spec) as [d |];
        [by rewrite lookup_insert_eq |].
      destruct (default_merge_parameters merge_spec) as [q |]; [| done].
      by destruct (q !! "how"). }
  split; [done |]. intros H1 H2 H3 H4. rewrite H.
  unfold resolved_join_type. by rewrite H1, H2, H3, H4.
Qed.

(** The step of [bare_spec]. *)
Lemma join_type_resolution_witness :
  step_merge_parameters bare_spec bare_step !! "how" = Some (PStr "outer").
Proof.
  apply (join_type_resolution bare_spec bare_step); reflexivity.
Defined.

(** ** Table registry *)

(** The registry records nothing in the trace. *)
Lemma get_table_names_trace ws written force :
  trace (get_table_names ws written force) = [].
Proof.
  unfold get_table_names, loaded_info, refresh.
  destruct (_data_table_info ws) as [info |];
    [destruct (force || bool_decide (info = ∅)) |]; try done;
    destruct (list_entity_types ws written) as [[| p | p] body |]; try done;
    repeat (destruct p as [p | p |]; try done).
Qed.

Lemma get_table_names_ok ws written force names :
  outcome (get_table_names ws written force) = Ok names ->
  get_table_names ws written force = (Ok names, []).
Proof.
  intros H. pose proof (get_table_names_trace ws written force) as Htr.
  destruct (get_table_names ws written force). simpl in *. by subst.
Qed.

(** The registry methods end; they leave no event. *)
Lemma clean_refresh P ws written : clean P (refresh ws written).
Proof.
  unfold refresh.
  destruct (list_entity_types ws written) as [[| p | p] body |]; try done;
    repeat (destruct p as [p | p |]; try done).
Qed.

Lemma clean_loaded_info P ws written force : clean P (loaded_info ws written force).
Proof.
  unfold loaded_info. destruct (_data_table_info ws) as [info |];
    [destruct (force || bool_decide (info = ∅)) |];
    auto using clean_refresh, clean_ret.
Qed.

Lemma clean_get_table_names P ws written force :
  clean P (get_table_names ws written force).
Proof.
  unfold get_table_names. apply clean_bind; [apply clean_loaded_info |].
  intros; apply clean_ret.
Qed.

Lemma clean_get_table_info P ws written t force :
  clean P (get_table_info ws written t force).
Proof.
  unfold get_table_info. apply clean_bind; [apply clean_loaded_info |].
  intros info. destruct (info !! t) as [[? ?] |]; apply clean_ret.
Qed.

(** ** Join engine: the events of a run *)

Section TraceClasses.

Variable P : event -> Prop.
Hypothesis P_fetch : forall t k, P (Fetch t k).
Hypothesis P_sleep : forall s, P (Sleep s).
Hypothesis P_info : forall m, P (LogInfo m).

(** For a class [P] of events that holds the fetches, the pauses and the
    information records, and further on the warnings of the deduplicator
    and of the row-count check: every part of the engine ends, and all its
    events are in [P]. *)
Lemma clean_get_terra_table_to_df ws t : clean P (get_terra_table_to_df ws t).
Proof.
  unfold get_terra_table_to_df, retry. cbn [retry_from Nat.sub retry_always].
  destruct (get_terra_table_to_df_body_cases ws t 1) as [[? ->] | [? ->]];
    [split; [done | by repeat constructor] |].
  destruct (get_terra_table_to_df_body_cases ws t 2) as [[? ->] | [? ->]];
    [split; [done | by repeat constructor] |].
  destruct (get_terra_table_to_df_body_cases ws t 3) as [[? ->] | [? ->]];
    (split; [done | by repeat constructor]).
Qed.

Lemma clean_get_gen3_terra_table_to_df ws t : clean P (get_gen3_terra_table_to_df ws t).
Proof.
  unfold get_gen3_terra_table_to_df.
  apply clean_bind; [apply clean_get_terra_table_to_df | intros; apply clean_ret].
Qed.

Section WithMerge.

Variable merge : DataFrame -> DataFrame -> gmap string pyval -> exn + DataFrame.

(** The end of a turn of the loop of [consolidate_tables_to_df]: the join
    and its log record. *)
Lemma clean_merge_tail p (merged current : DataFrame) t :
  clean P (let! on := getitem p "on" in
           let! how := getitem p "how" in
           let! merged_df := call (merge merged current p) in
           let merged_df := drop_duplicated_columns merged_df in
           emit (LogInfo (MsgMerged t on how (shape0 merged_df) (shape1 merged_df)));;
           ret merged_df).
Proof.
  apply clean_bind; [apply clean_getitem | intros on].
  apply clean_bind; [apply clean_getitem | intros how].
  apply clean_bind; [apply clean_call | intros d].
  apply clean_bind; [by apply clean_emit | intros; apply clean_ret].
Qed.

Lemma clean_deduplicate merged current t key :
  (forall n ids, P (LogWarning (MsgDuplicatesRemoved n t key ids))) ->
  clean P (_deduplicate_merge_data merged current t key).
Proof.
  intros P_warning. unfold _deduplicate_merge_data.
  apply clean_bind; [apply clean_column_values | intros keys].
  apply clean_bind; [apply clean_column_values | intros vals].
  case_decide; [apply clean_ret |].
  apply clean_bind; [apply clean_column_values | intros ids].
  apply clean_bind; [by apply clean_emit | intros _].
  destruct merged as [merged |]; [| apply clean_ret].
  case_bool_decide; [| apply clean_ret].
  apply clean_bind; [apply clean_column_values | intros; apply clean_ret].
Qed.

Hypothesis P_duplicates :
  forall n ids,
    P (LogWarning (MsgDuplicatesRemoved n "sample" (get_entity_id_column_name "subject") ids)).

Lemma clean_join_one ws p d t : clean P (join_one merge ws p d t).
Proof.
  unfold join_one.
  apply clean_bind; [apply clean_get_table_names | intros names].
  case_bool_decide.
  { apply clean_bind; [by apply clean_emit | intros; apply clean_ret]. }
  apply clean_bind; [apply clean_get_gen3_terra_table_to_df | intros current].
  apply clean_bind.
  { case_decide; [by apply clean_deduplicate | apply clean_ret]. }
  intros [merged_opt current']. apply clean_merge_tail.
Qed.

Lemma clean_join_tables ws names p d : clean P (join_tables merge ws names p d).
Proof.
  revert d. induction names as [|t names IH]; intros d; [apply clean_ret |].
  cbn [join_tables]. apply clean_bind; [apply clean_join_one | done].
Qed.

Lemma clean_consolidate_tables_to_df ws names p initial_df :
  clean P (consolidate_tables_to_df merge ws names p initial_df).
Proof.
  unfold consolidate_tables_to_df. destruct initial_df as [d |].
  - apply clean_bind; [apply clean_assert | intros; apply clean_join_tables].
  - apply clean_bind; [apply clean_assert | intros _].
    apply clean_bind; [apply clean_get_gen3_terra_table_to_df | intros first_df].
    apply clean_bind.
    { case_decide; [by apply clean_deduplicate | apply clean_ret]. }
    intros [? first_df']. apply clean_join_tables.
Qed.

Hypothesis P_row_count : forall n, P (LogWarning (MsgRowCountIncreased n)).

Lemma clean_row_count_check prev n : clean P (row_count_check prev n).
Proof.
  unfold row_count_check. repeat case_decide; try apply clean_ret.
  by apply clean_emit.
Qed.

Lemma clean_consolidate_steps ws dmp steps merged prev :
  clean P (consolidate_steps merge ws dmp steps merged prev).
Proof.
  revert merged prev. induction steps as [|s steps IH]; intros merged prev;
    [apply clean_ret |].
  cbn [consolidate_steps].
  apply clean_bind; [apply clean_consolidate_tables_to_df | intros d].
  apply clean_bind; [apply clean_row_count_check | done].
Qed.

End WithMerge.

End TraceClasses.

(** ** Join engine: tables missing from the workspace *)

Section MissingTables.

Variable merge : DataFrame -> DataFrame -> gmap string pyval -> exn + DataFrame.

(** A table that the registry does not list leaves the accumulator as it
    is. *)
Lemma join_one_absent ws p d t names :
  outcome (get_table_names ws [] false) = Ok names -> t ∉ names ->
  join_one merge ws p d t = (Ok d, [LogInfo (MsgTableIgnored t)]).
Proof.
  intros Hnames Ht. unfold join_one.
  rewrite (get_table_names_ok _ _ _ _ Hnames), bind_ok.
  by rewrite bool_decide_eq_true_2.
Qed.

Lemma join_tables_skip ws pre t post p d names :
  outcome (get_table_names ws [] false) = Ok names -> t ∉ names ->
  outcome (join_tables merge ws (pre ++ t :: post) p d)
  = outcome (join_tables merge ws (pre ++ post) p d).
Proof.
  intros Hnames Ht. revert d. induction pre as [|x pre IH]; intros d.
  - cbn [app join_tables]. rewrite (join_one_absent _ _ _ _ _ Hnames Ht), bind_ok. done.
  - cbn [app join_tables]. by apply outcome_bind_ext.
Qed.

(** Claim C5, amended.  A join step that names a table that the table
    registry does not list has the same outcome, accumulator or
    exception, as the step without that name, provided the name is not the
    first of a step without accumulator and the shortened list still has
    the number of names that the step asserts: 2 without accumulator, 1
    with one. *)
Theorem skip_missing_table ws pre t post p initial_df names :
  outcome (get_table_names ws [] false) = Ok names -> t ∉ names ->
  (initial_df = None -> pre <> [] /\ 2 <= length (pre ++ post)) ->
  (initial_df <> None -> 1 <= length (pre ++ post)) ->
  outcome (consolidate_tables_to_df merge ws (pre ++ t :: post) p initial_df)
  = outcome (consolidate_tables_to_df merge ws (pre ++ post) p initial_df).
Proof.
  intros Hnames Ht Hnone Hsome. unfold consolidate_tables_to_df.
  destruct initial_df as [d |].
  - assert (1 <= length (pre ++ post)) as Hlen by (by apply Hsome).
    assert (1 <= length (pre ++ t :: post)) as Hlen'.
    { rewrite length_app in *. simpl. lia. }
    rewrite !bool_decide_eq_true_2 by done. unfold assert, ret.
    rewrite !bind_ok. unfold outcome at 1 3. cbn [fst].
    by eapply join_tables_skip.
  - destruct (Hnone eq_refl) as [Hpre Hlen].
    assert (2 <= length (pre ++ t :: post)) as Hlen'.
    { rewrite length_app in *. simpl. lia. }
    rewrite !bool_decide_eq_true_2 by done. unfold assert, ret.
    rewrite !bind_ok. unfold outcome at 1 3. cbn [fst].
    destruct pre as [|first pre]; [done |]. cbn [app hd tail].
    apply outcome_bind_ext. intros first_df.
    apply outcome_bind_ext. intros [? first_df'].
    by eapply join_tables_skip.
Qed.

End MissingTables.

(** A missing table named first in a step without accumulator is fetched
    all the same, and the step raises. *)
Lemma missing_seed_table_raises :
  outcome (consolidate_tables_to_df merge_ref clinic
             ["ghost"; "subject"; "demographic"] clinic_parameters None)
  = Raise (FireCloudServiceException 404)
  /\ outcome (consolidate_tables_to_df merge_ref clinic
                ["ghost"; "subject"; "demographic"] clinic_parameters None)
     <> outcome (consolidate_tables_to_df merge_ref clinic
                   ["subject"; "demographic"] clinic_parameters None).
Proof. split; [by vm_compute |]. vm_compute. discriminate. Qed.

(** The table [ghost], named between two tables of the clinic. *)
Lemma skip_missing_table_witness :
  outcome (consolidate_tables_to_df merge_ref clinic
             ["subject"; "ghost"; "demographic"] clinic_parameters None)
  = outcome (consolidate_tables_to_df merge_ref clinic
               ["subject"; "demographic"] clinic_parameters None).
Proof.
  eapply (skip_missing_table merge_ref clinic ["subject"] "ghost" ["demographic"]
            clinic_parameters None).
  - reflexivity.
  - apply (bool_decide_unpack _). by vm_compute.
  - intros _. split; [discriminate | simpl; lia].
  - intros H. by destruct H.
Defined.

(** ** Join engine: the scope of deduplication *)

Section DedupScope.

Variable merge : DataFrame -> DataFrame -> gmap string pyval -> exn + DataFrame.

(** For a table that is not [sample] a turn of the loop is a turn of the
    engine without deduplicator. *)
Lemma join_one_other_table ws p d t :
  t <> "sample" -> join_one merge ws p d t = join_one_as_is merge ws p d t.
Proof.
  intros Ht. unfold join_one, join_one_as_is.
  apply bind_ext. intros names. case_bool_decide; [done |].
  apply bind_ext. intros current. rewrite decide_False by done.
  by rewrite bind_ret_l.
Qed.

Lemma join_tables_other_tables ws names p d :
  "sample" ∉ names ->
  join_tables merge ws names p d = join_tables_as_is merge ws names p d.
Proof.
  revert d. induction names as [|t names IH]; intros d Hnames; [done |].
  apply not_elem_of_cons in Hnames as [Ht Hnames].
  cbn [join_tables join_tables_as_is]. rewrite join_one_other_table by done.
  apply bind_ext. intros d'. by apply IH.
Qed.

(** The engine without deduplicator logs no warning. *)
Lemma quiet_join_tables_as_is ws names p d :
  clean quiet (join_tables_as_is merge ws names p d).
Proof.
  revert d. induction names as [|t names IH]; intros d; [apply clean_ret |].
  cbn [join_tables_as_is]. apply clean_bind; [| done].
  unfold join_one_as_is.
  apply clean_bind; [apply clean_get_table_names | intros tables].
  case_bool_decide.
  { apply clean_bind; [by apply clean_emit | intros; apply clean_ret]. }
  apply clean_bind; [by apply clean_get_gen3_terra_table_to_df | intros current].
  by apply clean_merge_tail.
Qed.

Lemma quiet_consolidate_tables_as_is ws names p initial_df :
  clean quiet (consolidate_tables_as_is merge ws names p initial_df).
Proof.
  unfold consolidate_tables_as_is. destruct initial_df as [d |].
  - apply clean_bind; [apply clean_assert | intros; apply quiet_join_tables_as_is].
  - apply clean_bind; [apply clean_assert | intros _].
    apply clean_bind; [by apply clean_get_gen3_terra_table_to_df |].
    intros; apply quiet_join_tables_as_is.
Qed.

(** Every duplicate-removal warning of a step names the table [sample] and
    the key [subject_entity_id]. *)
Lemma duplicate_warnings_sample ws table_names p initial_df :
  Forall (fun w => w = ("sample", "subject_entity_id"))
    (map (fun w => (snd (fst w), snd w))
       (duplicate_warnings
          (trace (consolidate_tables_to_df merge ws table_names p initial_df)))).
Proof.
  set (P := fun ev => match ev with
                      | LogWarning (MsgDuplicatesRemoved _ t key _) =>
                          (t, key) = ("sample", "subject_entity_id")
                      | Upload _ _ => False
                      | _ => True
                      end).
  assert (Hclean : clean P (consolidate_tables_to_df merge ws table_names p initial_df))
    by by apply clean_consolidate_tables_to_df.
  destruct Hclean as [_ Htr]. revert Htr.
  generalize (trace (consolidate_tables_to_df merge ws table_names p initial_df)).
  induction 1 as [|ev tr Hev _ IH]; [constructor |].
  unfold duplicate_warnings in *. destruct ev as [| [] | | | | |]; simpl in *; try done.
  by constructor.
Qed.

(** Claim C10.  The deduplicator is only called for the table [sample],
    with the key [subject_entity_id]: every duplicate-removal warning of a
    step names that table and that key, and a step that does not name
    [sample] runs as the engine without deduplicator does, every table
    joined as it was fetched, and logs no warning. *)
Theorem deduplication_only_for_sample ws table_names p initial_df :
  Forall (fun w => w = ("sample", "subject_entity_id"))
    (map (fun w => (snd (fst w), snd w))
       (duplicate_warnings
          (trace (consolidate_tables_to_df merge ws table_names p initial_df))))
  /\ ("sample" ∉ table_names ->
      consolidate_tables_to_df merge ws table_names p initial_df
        = consolidate_tables_as_is merge ws table_names p initial_df
      /\ Forall quiet (trace (consolidate_tables_to_df merge ws table_names p initial_df))
      /\ duplicate_warnings
           (trace (consolidate_tables_to_df merge ws table_names p initial_df)) = []).
Proof.
  split; [apply duplicate_warnings_sample |]. intros Hnames.
  assert (Heq : consolidate_tables_to_df merge ws table_names p initial_df
                = consolidate_tables_as_is merge ws table_names p initial_df).
  { unfold consolidate_tables_to_df, consolidate_tables_as_is.
    destruct initial_df as [d |].
    - apply bind_ext. intros _. by apply join_tables_other_tables.
    - apply bind_ext. intros _.
      assert (Hhd : hd "" table_names <> "sample").
      { destruct table_names as [|t ?]; [done |]. simpl.
        by apply not_elem_of_cons in Hnames as [? _]. }
      assert (Htl : "sample" ∉ tail table_names).
      { destruct table_names as [|t ?]; [done |]. simpl.
        by apply not_elem_of_cons in Hnames as [_ ?]. }
      apply bind_ext. intros first_df. rewrite decide_False by done.
      rewrite bind_ret_l. by apply join_tables_other_tables. }
  rewrite Heq.
  destruct (quiet_consolidate_tables_as_is ws table_names p initial_df) as [_ Hq].
  split; [done |]. split; [done |]. by apply quiet_no_duplicate_warnings.
Qed.

End DedupScope.

(** The subject with two visits: nothing is removed, nothing is warned
    about. *)
Lemma deduplication_only_for_sample_witness :
  duplicate_warnings
    (trace (consolidate_tables_to_df merge_ref visits ["subject"; "visit"]
              clinic_parameters None)) = [].
Proof.
  apply (deduplication_only_for_sample merge_ref visits ["subject"; "visit"]
           clinic_parameters None).
  apply (bool_decide_unpack _). by vm_compute.
Defined.

(** ** Join engine: row-count warnings *)

(** The check warns when a count is known and was exceeded, with the
    difference. *)
Lemma row_count_check_warnings (count : option nat) (n : nat) :
  row_count_check (previous_row_count_of count) (Z.of_nat n)
  = (Ok tt, match count with
            | Some a => if decide (a < n)
                        then [LogWarning (MsgRowCountIncreased (Z.of_nat n - Z.of_nat a))]
                        else []
            | None => []
            end).
Proof.
  unfold row_count_check, previous_row_count_of, emit, ret.
  destruct count as [a |].
  - destruct (decide (Z.of_nat a <> (-1)%Z)); [| lia].
    destruct (decide (a < n)), (decide (Z.of_nat a < Z.of_nat n)%Z); done || lia.
  - destruct (decide ((-1)%Z <> (-1)%Z)); done.
Qed.

Section RowCounts.

Variable merge : DataFrame -> DataFrame -> gmap string pyval -> exn + DataFrame.

(** No row-count warning comes from inside a step. *)
Lemma consolidate_tables_to_df_no_row_count_warning ws names p initial_df :
  row_count_warnings (trace (consolidate_tables_to_df merge ws names p initial_df)) = [].
Proof.
  apply row_count_warnings_none.
  by apply (clean_consolidate_tables_to_df not_row_count_warning).
Qed.

(** The row-count warnings of the steps, given the row count before
    them. *)
Lemma consolidate_steps_row_count_warnings ws dmp steps merged (count : option nat) :
  row_count_warnings
    (trace (consolidate_steps merge ws dmp steps merged (previous_row_count_of count)))
  = increases (counted count ++ map shape0 (step_frames merge ws dmp steps merged)).
Proof.
  revert merged count. induction steps as [|s steps IH]; intros merged count.
  - destruct count; reflexivity.
  - cbn [consolidate_steps step_frames].
    set (p := _substitute_entity_id_column_name (_create_combined_merge_parameters dmp s)).
    pose proof (consolidate_tables_to_df_no_row_count_warning ws (table_names s) p merged)
      as Hstep.
    rewrite trace_bind.
    destruct (outcome (consolidate_tables_to_df merge ws (table_names s) p merged))
      as [d | e |] eqn:Hout.
    + rewrite row_count_warnings_app, Hstep. cbn [app].
      rewrite row_count_check_warnings, bind_ok. unfold trace at 1. cbn [snd].
      rewrite row_count_warnings_app.
      change (Z.of_nat (shape0 d)) with (previous_row_count_of (Some (shape0 d))).
      rewrite IH. cbn [map counted app].
      destruct count as [a |]; cbn [counted app increases].
      * destruct (decide (a < shape0 d)); reflexivity.
      * reflexivity.
    + rewrite Hstep. destruct count; by simpl.
    + rewrite Hstep. destruct count; by simpl.
Qed.

(** Claim C8, amended.  The row counts are compared after each step, not
    after each join: the row-count warnings of a run are, in order, the
    growth of the accumulator's row count from the end of a step to the
    end of the next step, for each step after the first whose row count
    exceeds that of the step before.  No warning is logged for the first
    step, nor for a step that does not end with more rows than the step
    before. *)
Theorem row_count_warnings_by_step ws merge_spec :
  row_count_warnings (trace (consolidate_to_df merge ws merge_spec))
  = increases
      (map shape0
         (step_frames merge ws (spec_default_merge_parameters merge_spec)
            (merge_sequence merge_spec) None)).
Proof.
  unfold consolidate_to_df.
  apply (consolidate_steps_row_count_warnings ws _ _ None None).
Qed.

End RowCounts.

(** In the first step of [clinic_spec] the join of [demographic] takes the
    accumulator from 1 row to 2, and no row-count warning is logged. *)
Lemma first_step_growth_unreported :
  row_count (outcome (get_gen3_terra_table_to_df clinic "subject")) = Some 1
  /\ row_count (outcome (consolidate_tables_to_df merge_ref clinic
                           ["subject"; "demographic"] clinic_parameters None)) = Some 2
  /\ row_count_warnings (trace (consolidate_to_df merge_ref clinic clinic_spec)) = [].
Proof. repeat split; by vm_compute. Qed.

(** ** Merge planner: invalid specifications *)

Section InvalidSpecification.

Variable merge : DataFrame -> DataFrame -> gmap string pyval -> exn + DataFrame.

(** A step with too few table names raises [AssertionError] at once. *)
Lemma consolidate_tables_to_df_too_few ws names p merged :
  too_few_tables merged names ->
  exists msg, consolidate_tables_to_df merge ws names p merged
              = (Raise (AssertionError msg), []).
Proof.
  intros Hfew. unfold consolidate_tables_to_df, too_few_tables in *.
  destruct merged as [d |]; rewrite bool_decide_eq_false_2 by lia; by eexists.
Qed.

(** A run that meets a step with too few table names, or fails before it,
    raises without writing. *)
Lemma consolidate_steps_too_few ws dmp pre s post merged prev :
  (pre = [] -> too_few_tables merged (table_names s)) ->
  (pre <> [] -> table_names s = []) ->
  fails_before_upload (consolidate_steps merge ws dmp (pre ++ s :: post) merged prev).
Proof.
  revert merged prev. induction pre as [|x pre IH]; intros merged prev Hfirst Hlater.
  - cbn [app consolidate_steps]. apply fails_before_upload_bind_l.
    destruct (consolidate_tables_to_df_too_few ws (table_names s)
                (_substitute_entity_id_column_name
                   (_create_combined_merge_parameters dmp s)) merged) as [msg ->];
      [by apply Hfirst | done].
  - cbn [app consolidate_steps]. apply fails_before_upload_bind_r.
    { by apply (clean_consolidate_tables_to_df not_upload). }
    intros d. apply fails_before_upload_bind_r.
    { by apply (clean_row_count_check not_upload). }
    intros _. apply IH.
    + intros _. rewrite Hlater by done. simpl. lia.
    + intros _. by apply Hlater.
Qed.

(** Claim C6, amended.  When [final_index_source_column] is missing or
    empty, [consolidate_to_terra_table] logs an error and returns: nothing
    is raised, fetched or written.  A step with fewer table names than
    required, 2 without accumulator and 1 with one, raises
    [AssertionError] before any access to the store; a run whose
    specification has a final index and such a step raises before any
    write. *)
Theorem invalid_specification :
  (forall ws merge_spec entity_name,
      final_index_missing merge_spec ->
      consolidate_to_terra_table merge ws merge_spec entity_name
      = (Ok tt, [LogError MsgFinalIndexMissing]))
  /\ (forall ws table_names p merged_df,
        too_few_tables merged_df table_names ->
        exists msg, consolidate_tables_to_df merge ws table_names p merged_df
                    = (Raise (AssertionError msg), []))
  /\ (forall ws merge_spec entity_name pre s post,
        ~ final_index_missing merge_spec ->
        merge_sequence merge_spec = pre ++ s :: post ->
        (pre = [] -> length (table_names s) < 2) ->
        (pre <> [] -> table_names s = []) ->
        fails_before_upload (consolidate_to_terra_table merge ws merge_spec entity_name)).
Proof.
  split; [| split].
  - intros ws merge_spec entity_name Hmissing.
    unfold consolidate_to_terra_table, final_index_missing in *.
    destruct (final_index_source_column merge_spec) as [c |]; [| done].
    by rewrite Hmissing.
  - intros. by apply consolidate_tables_to_df_too_few.
  - intros ws merge_spec entity_name pre s post Hindex Hsteps Hfirst Hlater.
    unfold consolidate_to_terra_table, final_index_missing in *.
    destruct (final_index_source_column merge_spec) as [c |]; [| done].
    destruct (String.eqb_spec c ""); [done |]. cbn [negb].
    apply fails_before_upload_bind_r; [apply clean_get_table_names | intros names].
    apply fails_before_upload_bind_r.
    { case_bool_decide; [| apply clean_ret].
      apply clean_bind; [apply clean_get_table_info |].
      intros [[? ?] |]; [by apply clean_emit | apply clean_ret]. }
    intros _. apply fails_before_upload_bind_l.
    unfold consolidate_to_df. rewrite Hsteps.
    by apply consolidate_steps_too_few.
Qed.

End InvalidSpecification.

(** Without [final_index_source_column] the consolidation returns. *)
Lemma missing_final_index_returns :
  final_index_missing headless_spec
  /\ ~ raises (outcome (consolidate_to_terra_table merge_ref clinic headless_spec "cohort")).
Proof. split; [done |]. vm_compute. tauto. Qed.

(** The specification without final index, and the one whose only step
    names one table. *)
Lemma invalid_specification_witness :
  consolidate_to_terra_table merge_ref clinic headless_spec "cohort"
    = (Ok tt, [LogError MsgFinalIndexMissing])
  /\ fails_before_upload (consolidate_to_terra_table merge_ref clinic lonely_spec "cohort").
Proof.
  destruct (invalid_specification merge_ref) as (Hindex & _ & Hsteps). split.
  - apply Hindex. exact I.
  - apply (Hsteps clinic lonely_spec "cohort" [] lonely_step []).
    + vm_compute. discriminate.
    + reflexivity.
    + intros _. simpl. lia.
    + intros H. by destruct H.
Defined.

(** ** The uploaded table *)

Section OutputTable.

Variable merge : DataFrame -> DataFrame -> gmap string pyval -> exn + DataFrame.

(** Claim C9.  For a run of [consolidate_to_terra_table] that returns, with
    a non-empty [final_index_source_column] [c]: the merged table holds
    the column [c]; every chunk committed to the store has the header
    [entity:<N>_id] followed by the columns of the merged table in their
    order; and the committed lines, end to end, are the rows of the merged
    table in their order, each preceded by its value in column [c]. *)
Theorem uploaded_table_format ws merge_spec entity_name c :
  final_index_source_column merge_spec = Some c -> c <> "" ->
  outcome (consolidate_to_terra_table merge ws merge_spec entity_name) = Ok tt ->
  exists merged i,
    outcome (consolidate_to_df merge ws merge_spec) = Ok (Some merged)
    /\ position c (columns merged) = Some i
    /\ Forall (fun t => header t = ("entity:" +:+ entity_name +:+ "_id") :: columns merged)
         (committed (trace (consolidate_to_terra_table merge ws merge_spec entity_name)))
    /\ concat (map lines
         (committed (trace (consolidate_to_terra_table merge ws merge_spec entity_name))))
       = map (fun r => cell i r :: snd r) (rows merged).
Proof.
  intros Hindex Hc Hok. unfold consolidate_to_terra_table in *. rewrite Hindex in *.
  destruct (String.eqb_spec c ""); [done |]. cbn [negb] in *.
  assert (Hquiet : forall {A} (m : M A), clean not_upload m -> committed (trace m) = []).
  { intros A m [_ Htr]. by apply committed_none. }
  apply outcome_bind_ok in Hok as (names & _ & Hok & ->).
  rewrite committed_app, (Hquiet _ _ (clean_get_table_names _ ws [] false)).
  apply outcome_bind_ok in Hok as ([] & _ & Hok & ->).
  rewrite committed_app, (Hquiet unit).
  2: { case_bool_decide; [| apply clean_ret].
       apply clean_bind; [apply clean_get_table_info |].
       intros [[? ?] |]; [by apply clean_emit | apply clean_ret]. }
  apply outcome_bind_ok in Hok as (consolidated & Hdf & Hok & ->).
  rewrite committed_app, (Hquiet _ (consolidate_to_df merge ws merge_spec))
    by by apply (clean_consolidate_steps not_upload).
  destruct consolidated as [merged |]; [| done].
  apply outcome_bind_ok in Hok as (ids & Hids & Hok & ->).
  rewrite committed_app, (Hquiet _ _ (clean_column_values _ merged c)).
  destruct (position c (columns merged)) as [i |] eqn:Hi;
    [| by rewrite (column_values_missing _ _ Hi) in Hids].
  rewrite (column_values_position _ _ _ Hi) in Hids. injection Hids as <-.
  unfold insert_first in *. case_bool_decide as Hin; [done |].
  rewrite bind_ret_l in Hok |- *.
  set (df := {| columns := ("entity:" +:+ entity_name +:+ "_id") :: columns merged;
                rows := zip_with (fun v r => (fst r, v :: snd r))
                          (map (cell i) (rows merged)) (rows merged) |}) in *.
  apply outcome_bind_ok in Hok as ([] & Hup & Hok & ->).
  apply outcome_bind_ok in Hok as (actual & _ & Hok & ->).
  exists merged, i. split; [done |]. split; [done |].
  rewrite !committed_app.
  rewrite (Hquiet _ (get_table_info ws _ entity_name true))
    by apply clean_get_table_info.
  rewrite (Hquiet _ (report_sizes _ _ _ _)).
  2: { unfold report_sizes. destruct actual as [[? ?] |]; [| apply clean_raise].
       repeat case_match; by apply clean_emit. }
  cbn [app]. rewrite !app_nil_r.
  rewrite upload_entities_df_committed by (done || lia).
  split.
  - apply Forall_forall. intros t Ht. apply elem_of_map in Ht as (ch & -> & _). done.
  - rewrite map_map. cbn [lines]. rewrite map_id.
    rewrite chunks_of_concat by (unfold shape0; rewrite ?length_map; lia).
    subst df. cbn [rows]. rewrite zip_with_map_l, map_map. done.
Qed.

End OutputTable.

(** The consolidation of the clinic into the table [cohort]. *)
Lemma uploaded_table_format_witness :
  exists merged i,
    outcome (consolidate_to_df merge_ref registering_clinic clinic_spec) = Ok (Some merged)
    /\ position "subject_entity_id" (columns merged) = Some i
    /\ Forall (fun t => header t = ("entity:" +:+ "cohort" +:+ "_id") :: columns merged)
         (committed (trace (consolidate_to_terra_table merge_ref registering_clinic
                              clinic_spec "cohort")))
    /\ concat (map lines
         (committed (trace (consolidate_to_terra_table merge_ref registering_clinic
                              clinic_spec "cohort"))))
       = map (fun r => cell i r :: snd r) (rows merged).
Proof.
  apply (uploaded_table_format merge_ref registering_clinic clinic_spec "cohort"
           "subject_entity_id"); [reflexivity | discriminate | by vm_compute].
Defined.

(** The run behind the witness, event by event. *)
Lemma cohort_upload :
  consolidate_to_terra_table merge_ref registering_clinic clinic_spec "cohort"
  = (Ok tt,
     [Fetch "subject" 1; Fetch "demographic" 1;
      LogInfo (MsgMerged "demographic" (PStr "subject_entity_id") (PStr "inner") 2 3);
      LogInfo MsgUploadStarting; Stderr "Uploading ";
      Upload (mkTsv ["entity:cohort_id"; "subject_entity_id"; "subject_name";
                     "demographic_entity_id"]
                [[VStr "s1"; VStr "s1"; VStr "ann"; VStr "d1"];
                 [VStr "s1"; VStr "s1"; VStr "ann"; VStr "d2"]]) (Some 200%Z);
      Stderr "."; Stderr "
"; LogInfo MsgUploadFinished;
      LogInfo (MsgTableSize "cohort" 2 4)]).
Proof. by vm_compute. Qed.

(** * Further properties *)

(** ** Table uploader: interrupted uploads, attempts, small tables *)

Lemma chunks_of_whole {A} fuel cs (l : list A) :
  l <> [] -> length l <= cs -> chunks_of (S fuel) cs l = [l].
Proof.
  intros Hl Hlen. rewrite chunks_of_nonempty by done.
  rewrite take_ge, drop_ge by done. by destruct fuel.
Qed.

(** An upload never loops when [chunk_size >= 1]; what it has committed
    when it stops is a beginning of the list of chunks, and a strict one
    when it raised. *)
Lemma upload_loop_partial ws df cs fuel start :
  1 <= cs -> shape0 df - start <= fuel ->
  let m := upload_loop fuel ws df cs start in
  let chunks := map (mkTsv (columns df))
                  (chunks_of fuel cs (map snd (drop start (rows df)))) in
  outcome m <> Diverge
  /\ committed (trace m) `prefix_of` chunks
  /\ (raises (outcome m) -> length (committed (trace m)) < length chunks).
Proof.
  intros Hcs. revert start.
  induction fuel as [|fuel IH]; intros start Hfuel; cbn [upload_loop];
    case_decide as Hlt.
  - lia.
  - unfold shape0 in Hlt. rewrite drop_ge by lia. by repeat split.
  - rewrite iloc_chunk.
    set (chunk := mkTsv (columns df) (take cs (map snd (drop start (rows df))))).
    rewrite (chunks_of_nonempty fuel) by by apply remaining_rows_nonempty.
    rewrite <- drop_chunk. cbn [map]. fold chunk.
    destruct (IH (Nat.min (start + cs) (shape0 df))) as (Hd & Hp & Hr); [lia |].
    rewrite outcome_bind, trace_bind.
    destruct (fapi_upload_entities_cases ws chunk) as [[Hok Hc] | [Hraise Hc]].
    + rewrite Hok. rewrite outcome_bind, trace_bind. cbn [outcome output_now emit fst].
      rewrite !committed_app, Hc. cbn [trace output_now emit snd].
      change (committed [Stderr "."]) with (@nil tsv). cbn [app].
      split; [done |]. split; [by apply prefix_cons |].
      intros Hraises. specialize (Hr Hraises). simpl. lia.
    + destruct (outcome (fapi_upload_entities ws chunk)); try done.
      rewrite Hc. split; [done |]. split; [apply prefix_nil | simpl; lia].
  - unfold shape0 in Hlt. rewrite drop_ge by lia. by repeat split.
Qed.

Lemma outcome_pair {A} (r : result A) tr : outcome (r, tr) = r.
Proof. done. Qed.

Lemma trace_pair {A} (r : result A) tr : trace (r, tr) = tr.
Proof. done. Qed.

(** [upload_entities_df] around its loop. *)
Lemma upload_entities_df_around_loop ws df cs :
  upload_entities_df ws df cs =
    let loop := upload_loop (shape0 df) ws df cs 0 in
    let before := [LogInfo MsgUploadStarting; Stderr "Uploading "] in
    match outcome loop with
    | Ok _ => (Ok tt, before ++ trace loop ++ [Stderr "
"; LogInfo MsgUploadFinished])
    | Raise e => (Raise e, before ++ trace loop)
    | Diverge => (Diverge, before ++ trace loop)
    end.
Proof.
  unfold upload_entities_df, output_now, emit. rewrite !bind_ok.
  destruct (upload_loop (shape0 df) ws df cs 0) as [[[] | e |] tr]; reflexivity.
Qed.

(** Whatever the store answers, an upload with [chunk_size >= 1] ends.
    The chunks it has committed when it stops are a beginning of the list
    of chunks of the frame, in order: all of them when it returns, not all
    of them when it raises.  Chunks committed before a failure stay
    written. *)
Theorem upload_entities_df_partial ws df chunk_size :
  1 <= chunk_size ->
  let m := upload_entities_df ws df chunk_size in
  let chunks := map (mkTsv (columns df))
                  (chunks_of (shape0 df) chunk_size (map snd (rows df))) in
  outcome m <> Diverge
  /\ committed (trace m) `prefix_of` chunks
  /\ (raises (outcome m) -> length (committed (trace m)) < length chunks)
  /\ (outcome m = Ok tt -> committed (trace m) = chunks).
Proof.
  intros Hcs m chunks. subst m chunks.
  split; [| split; [| split; [| by apply upload_entities_df_committed]]].
  all: destruct (upload_loop_partial ws df chunk_size (shape0 df) 0 Hcs)
         as (Hd & Hp & Hr); [lia |]; rewrite drop_0 in Hp, Hr;
       rewrite upload_entities_df_around_loop; cbv zeta;
       destruct (outcome (upload_loop _ _ _ _ _)) as [[] | e |]; try done;
       rewrite ?outcome_pair, ?trace_pair;
       rewrite ?(committed_app [_; _]), ?committed_app; cbn [app];
       rewrite ?app_nil_r; done.
Qed.

Lemma upload_entities_df_partial_witness :
  committed (trace (upload_entities_df (steady_workspace []) df1200 500))
  `prefix_of`
  map (mkTsv (columns df1200)) (chunks_of (shape0 df1200) 500 (map snd (rows df1200))).
Proof.
  apply (upload_entities_df_partial (steady_workspace []) df1200 500). lia.
Defined.

Lemma fapi_upload_entities_body_answer ws t k :
  (upload_entities ws t k = Response 200 tt
   /\ fapi_upload_entities_body ws t k = (Ok tt, [Upload t (Some 200%Z)]))
  \/ (exists code, code <> 200%Z /\ upload_entities ws t k = Response code tt
        /\ fapi_upload_entities_body ws t k
           = (Raise (FireCloudServerError code), [Upload t (Some code)]))
  \/ (upload_entities ws t k = NetworkFailure
      /\ fapi_upload_entities_body ws t k = (Raise ConnectionError, [Upload t None])).
Proof.
  unfold fapi_upload_entities_body.
  destruct (upload_entities ws t k) as [code [] |]; [| by right; right].
  unfold emit. rewrite bind_ok. case_decide as Hcode.
  - left. by subst.
  - right. left. by exists code.
Qed.

(** One chunk is sent between one and three times, always the same
    content, with pauses of 2 then 4 seconds in between.  Every attempt
    before the last one was answered with a status other than 200; the
    outcome is that of the last attempt, and an exception of the call
    itself ends the attempts at once. *)
Theorem fapi_upload_entities_attempts ws t :
  let m := fapi_upload_entities ws t in
  exists n,
    1 <= n <= 3
    /\ uploads (trace m) = replicate n t
    /\ sleeps (trace m) = take (n - 1) [2; 4]%Z
    /\ (forall k, 1 <= k < n -> refused ws t k)
    /\ (n < 3 -> ~ refused ws t n)
    /\ outcome m = outcome (fapi_upload_entities_body ws t n)
    /\ (upload_entities ws t n = NetworkFailure -> outcome m = Raise ConnectionError).
Proof.
  intros m. subst m. unfold fapi_upload_entities, retry, refused.
  cbn [retry_from Nat.sub].
  destruct (fapi_upload_entities_body_answer ws t 1)
    as [[Ha1 H1] | [(c1 & Hc1 & Ha1 & H1) | [Ha1 H1]]]; rewrite H1.
  1,3: exists 1; rewrite H1, Ha1; repeat split; try done; try lia;
       intros _ (c & Hc & Heq); by simplify_eq.
  cbn [retry_if_exception_type_FireCloudServerError].
  assert (Hone : forall k, 1 <= k < 2 ->
            exists code, code <> 200%Z /\ upload_entities ws t k = Response code tt).
  { intros k Hk. assert (k = 1) as -> by lia. by exists c1. }
  destruct (fapi_upload_entities_body_answer ws t 2)
    as [[Ha2 H2] | [(c2 & Hc2 & Ha2 & H2) | [Ha2 H2]]]; rewrite H2.
  1,3: exists 2; rewrite H2, Ha2; repeat split; try done; try lia;
       intros _ (c & Hc & Heq); by simplify_eq.
  cbn [retry_if_exception_type_FireCloudServerError].
  assert (Htwo : forall k, 1 <= k < 3 ->
            exists code, code <> 200%Z /\ upload_entities ws t k = Response code tt).
  { intros k Hk. assert (k = 1 \/ k = 2) as [-> | ->] by lia; eauto. }
  exists 3.
  destruct (fapi_upload_entities_body_answer ws t 3)
    as [[Ha3 H3] | [(c3 & Hc3 & Ha3 & H3) | [Ha3 H3]]]; rewrite H3, Ha3;
    repeat split; try done; lia.
Qed.

(** An empty table is uploaded without any call to the store, whatever the
    chunk size. *)
Theorem upload_entities_df_empty ws df chunk_size :
  shape0 df = 0 ->
  upload_entities_df ws df chunk_size
  = (Ok tt, [LogInfo MsgUploadStarting; Stderr "Uploading "; Stderr "
"; LogInfo MsgUploadFinished]).
Proof.
  intros Hempty. unfold upload_entities_df. rewrite Hempty. cbn [upload_loop].
  rewrite Hempty. by rewrite decide_False by lia.
Qed.

Lemma upload_entities_df_empty_witness :
  uploads (trace (upload_entities_df (steady_workspace [])
                    {| columns := ["entity:subject_id"]; rows := [] |} 0)) = [].
Proof.
  by rewrite (upload_entities_df_empty (steady_workspace [])
                {| columns := ["entity:subject_id"]; rows := [] |} 0 eq_refl).
Defined.

(** A table that fits in one chunk is written whole, in one call. *)
Theorem upload_entities_df_single_chunk ws df chunk_size :
  0 < shape0 df <= chunk_size ->
  (forall t n, upload_entities ws t n = Response 200 tt) ->
  outcome (upload_entities_df ws df chunk_size) = Ok tt
  /\ uploads (trace (upload_entities_df ws df chunk_size)) = [to_csv df].
Proof.
  intros [Hpos Hfit] Hacc.
  rewrite upload_entities_df_accepted by (done || lia).
  split; [done |]. rewrite trace_pair.
  rewrite (uploads_app [_; _]), uploads_app, uploads_sent.
  destruct (shape0 df) as [|n] eqn:Hn; [lia |].
  rewrite chunks_of_whole.
  - reflexivity.
  - intros Hnil. apply (f_equal length) in Hnil. rewrite length_map in Hnil.
    unfold shape0 in Hn. rewrite Hn in Hnil. done.
  - rewrite length_map. unfold shape0 in Hn. lia.
Qed.

Lemma upload_entities_df_single_chunk_witness :
  uploads (trace (upload_entities_df (steady_workspace []) sample_candidate 500))
  = [to_csv sample_candidate].
Proof.
  apply (upload_entities_df_single_chunk (steady_workspace []) sample_candidate 500).
  - vm_compute. lia.
  - reflexivity.
Defined.

(** ** Table registry: the class and its state *)

Lemma refresh_cases ws written :
  (exists body, list_entity_types ws written = Response 200 body
                /\ refresh ws written = (Ok body, []))
  \/ (exists code body, code <> 200%Z
        /\ list_entity_types ws written = Response code body
        /\ refresh ws written = (Raise (FireCloudServiceException code), []))
  \/ (list_entity_types ws written = NetworkFailure
      /\ refresh ws written = (Raise ConnectionError, [])).
Proof.
  unfold refresh.
  destruct (list_entity_types ws written) as [code body |]; [| by right; right].
  destruct (decide (code = 200%Z)) as [-> | Hne]; [left; by eexists |].
  right. left. exists code, body. split; [done |]. split; [done |].
  destruct code as [| p | p]; try done.
  repeat (destruct p as [p | p |]; try done).
Qed.

Lemma DataTableInfo_refresh_cases response state :
  (exists body, response = Response 200 body
      /\ DataTableInfo_refresh response state = (Ok tt, Some body, 1))
  \/ (exists code body, code <> 200%Z /\ response = Response code body
      /\ DataTableInfo_refresh response state
         = (Raise (FireCloudServiceException code), None, 1))
  \/ (response = NetworkFailure
      /\ DataTableInfo_refresh response state = (Raise ConnectionError, state, 1)).
Proof.
  unfold DataTableInfo_refresh.
  destruct response as [code body |]; [| by right; right].
  destruct (decide (code = 200%Z)) as [-> | Hne]; [left; by eexists |].
  right. left. exists code, body. split; [done |]. split; [done |].
  destruct code as [| p | p]; try done.
  repeat (destruct p as [p | p |]; try done).
Qed.

(** What a load does: it answers from the listing it holds, or asks the
    service. *)
Lemma DataTableInfo_load_cases response state force :
  (exists info, state = Some info /\ info <> ∅ /\ force = false
      /\ DataTableInfo_load response state force = (Ok info, state, 0))
  \/ (DataTableInfo_stale state || force = true
      /\ ((exists body, response = Response 200 body
             /\ DataTableInfo_load response state force = (Ok body, Some body, 1))
          \/ (exists code body, code <> 200%Z /\ response = Response code body
             /\ DataTableInfo_load response state force
                = (Raise (FireCloudServiceException code), None, 1))
          \/ (response = NetworkFailure
             /\ DataTableInfo_load response state force
                = (Raise ConnectionError, state, 1)))).
Proof.
  unfold DataTableInfo_load.
  destruct (DataTableInfo_stale state || force) eqn:Hgo.
  - right. split; [done |].
    destruct (DataTableInfo_refresh_cases response state)
      as [(body & Hl & ->) | [(code & body & Hne & Hl & ->) | [Hl ->]]];
      [left | right; left | right; right]; eauto 6.
  - left. apply orb_false_iff in Hgo as [Hstale ->].
    destruct state as [info |]; [| done]. exists info.
    apply bool_decide_eq_false in Hstale. done.
Qed.

(** The load with state agrees with the load that the engine uses. *)
Lemma DataTableInfo_load_agrees ws written state force :
  (DataTableInfo_load (list_entity_types ws written) state force).1.1
  = outcome (loaded_info (with_cache ws state) written force).
Proof.
  unfold loaded_info. cbn [_data_table_info with_cache].
  assert (Hrefresh : refresh (with_cache ws state) written = refresh ws written) by done.
  rewrite Hrefresh.
  destruct (DataTableInfo_load_cases (list_entity_types ws written) state force)
    as [(info & -> & Hinfo & -> & ->) | [Hgo Hcases]].
  - by rewrite bool_decide_eq_false_2 by done.
  - assert (Hout : (DataTableInfo_load (list_entity_types ws written) state force).1.1
                   = outcome (refresh ws written)).
    { destruct (refresh_cases ws written)
        as [(body & Hl & ->) | [(code & body & Hne & Hl & ->) | [Hl ->]]];
      destruct Hcases
        as [(body' & Hl' & ->) | [(code' & body' & Hne' & Hl' & ->) | [Hl' ->]]];
      rewrite Hl in Hl'; by simplify_eq. }
    rewrite Hout. destruct state as [info |]; [| done].
    cbn [DataTableInfo_stale] in Hgo. rewrite (orb_comm force), Hgo. done.
Qed.

(** The answer of [get_table_names] with state is the answer that the
    engine reads.  A call that is not forced leaves a state from which the
    next such call gives the same answer, and once it has returned names
    the next such call asks the service nothing. *)
Theorem DataTableInfo_get_table_names_coherent ws written state :
  (forall force,
      (DataTableInfo_get_table_names (list_entity_types ws written) state force).1.1
      = outcome (get_table_names (with_cache ws state) written force))
  /\ (let '(r, state', _) :=
        DataTableInfo_get_table_names (list_entity_types ws written) state false in
      (DataTableInfo_get_table_names (list_entity_types ws written) state' false).1.1 = r
      /\ (forall names, r = Ok names -> names <> ∅ ->
            DataTableInfo_get_table_names (list_entity_types ws written) state' false
            = (Ok names, state', 0))).
Proof.
  split.
  - intros force. unfold DataTableInfo_get_table_names, get_table_names.
    rewrite outcome_bind, <- DataTableInfo_load_agrees.
    by destruct (DataTableInfo_load _ state force) as [[[info | e |] state'] calls].
  - unfold DataTableInfo_get_table_names.
    destruct (DataTableInfo_load_cases (list_entity_types ws written) state false)
      as [(info & -> & Hinfo & _ & ->)
         | [Hgo [(body & Hl & ->) | [(code & body & Hne & Hl & ->) | [Hl ->]]]]].
    + assert (Hagain : DataTableInfo_load (list_entity_types ws written) (Some info) false
                       = (Ok info, Some info, 0)).
      { unfold DataTableInfo_load. cbn [DataTableInfo_stale].
        by rewrite bool_decide_eq_false_2 by done. }
      rewrite Hagain. split; [done |]. by intros names [= <-] _.
    + assert (Hagain : (DataTableInfo_load (list_entity_types ws written)
                          (Some body) false).1.1 = Ok body
                       /\ (body <> ∅ ->
                           DataTableInfo_load (list_entity_types ws written)
                             (Some body) false = (Ok body, Some body, 0))).
      { unfold DataTableInfo_load. cbn [DataTableInfo_stale].
        destruct (decide (body = ∅)) as [Hb | Hb].
        - rewrite bool_decide_eq_true_2 by done. cbn [orb].
          rewrite Hl. by split.
        - rewrite bool_decide_eq_false_2 by done. by split. }
      destruct Hagain as [Hout Hheld].
      destruct (DataTableInfo_load (list_entity_types ws written) (Some body) false)
        as [[[info | e |] state''] calls] eqn:Hload; simplify_eq/=.
      split; [done |]. intros names [= <-] Hnames.
      assert (Hb : body <> ∅) by (intros ->; by rewrite dom_empty_L in Hnames).
      pose proof (Hheld Hb). by simplify_eq.
    + destruct (DataTableInfo_load_cases (list_entity_types ws written) None false)
        as [(info & [=] & _)
           | [Hgo' [(body' & Hl' & ->) | [(code' & body' & Hne' & Hl' & ->) | [Hl' ->]]]]];
        rewrite ?Hl in *; simplify_eq; by split.
    + destruct (DataTableInfo_load_cases (list_entity_types ws written) state false)
        as [(info & -> & Hinfo & _ & ->)
           | [Hgo' [(body' & Hl' & ->) | [(code' & body' & Hne' & Hl' & ->) | [Hl' ->]]]]];
        rewrite ?Hl in *; simplify_eq; try by split.
      rewrite orb_false_r in Hgo. cbn [DataTableInfo_stale] in Hgo.
      by apply bool_decide_eq_true in Hgo.
Qed.

Lemma dimensions_listed (info : gmap string entity_type_info) t :
  let dims := match info !! t with
              | Some (count, attributes) =>
                  Some (count, length attributes + 1, attributes)
              | None => None
              end in
  (is_Some dims <-> t ∈ dom info)
  /\ (forall n k a, dims = Some (n, k, a) -> k = length a + 1).
Proof.
  cbv zeta. rewrite elem_of_dom. destruct (info !! t) as [[c a] |].
  - split; [split; eauto |]. by intros n k a' [= <- <- <-].
  - split; [split; intros [? ?]; done |]. by intros n k a'.
Qed.

(** [get_table_info] and [get_table_names] read the same listing: a table
    has dimensions exactly when it is among the names, its column count
    counts the entity-id column, and the two methods fail alike and leave
    the same state. *)
Theorem DataTableInfo_get_table_info_consistent response state table_name force :
  let '(info, state1, calls1) :=
    DataTableInfo_get_table_info response state table_name force in
  let '(names, state2, calls2) :=
    DataTableInfo_get_table_names response state force in
  state1 = state2 /\ calls1 = calls2
  /\ match info, names with
     | Ok dims, Ok names =>
         (is_Some dims <-> table_name ∈ names)
         /\ (forall n k a, dims = Some (n, k, a) -> k = length a + 1)
     | Raise e1, Raise e2 => e1 = e2
     | _, _ => False
     end.
Proof.
  unfold DataTableInfo_get_table_info, DataTableInfo_get_table_names.
  destruct (DataTableInfo_load_cases response state force)
    as [(info & -> & Hinfo & -> & ->)
       | [Hgo [(body & Hl & ->) | [(code & body & Hne & Hl & ->) | [Hl ->]]]]];
    try done.
  all: split; [done |]; split; [done |]; apply dimensions_listed.
Qed.

(** A listing that the service refuses empties the registry, whatever it
    held: the call raises with the status, and the next call will ask the
    service again even when it is not forced. *)
Theorem DataTableInfo_refused_listing ws written state code body :
  list_entity_types ws written = Response code body -> code <> 200%Z ->
  DataTableInfo_get_table_names (list_entity_types ws written) state true
  = (Raise (FireCloudServiceException code), None, 1)
  /\ (DataTableInfo_get_table_names (list_entity_types ws written) None false).2 = 1.
Proof.
  intros Hl Hcode. unfold DataTableInfo_get_table_names.
  assert (Hload : forall st force, DataTableInfo_stale st || force = true ->
            DataTableInfo_load (list_entity_types ws written) st force
            = (Raise (FireCloudServiceException code), None, 1)).
  { intros st force Hgo.
    destruct (DataTableInfo_load_cases (list_entity_types ws written) st force)
      as [(info & -> & Hinfo & -> & _)
         | [_ [(body' & Hl' & _) | [(code' & body' & Hne & Hl' & ->) | [Hl' _]]]]];
      rewrite ?Hl in *; simplify_eq; try done.
    rewrite orb_false_r in Hgo. cbn [DataTableInfo_stale] in Hgo.
    by apply bool_decide_eq_true in Hgo. }
  rewrite !Hload; [done | done |]. by rewrite orb_true_r.
Qed.

Lemma DataTableInfo_refused_listing_witness :
  DataTableInfo_get_table_names (list_entity_types unlisted [])
    (Some {["subject" := (1, ["name"])]}) true
  = (Raise (FireCloudServiceException 503), None, 1).
Proof.
  apply (DataTableInfo_refused_listing unlisted [] _ 503 ∅); [reflexivity | discriminate].
Defined.

(** ** Column namer: what the renaming keeps *)

Lemma select_same_length {A B} (mask : list bool) (xs : list A) (ys : list B) :
  length xs = length ys -> length (select mask xs) = length (select mask ys).
Proof.
  revert xs ys. induction mask as [|b mask IH]; intros [|x xs] [|y ys] Hlen;
    simpl in *; try done.
  destruct b; simpl; auto.
Qed.

Lemma select_length_le {A} (mask : list bool) (xs : list A) :
  length (select mask xs) <= length xs.
Proof.
  revert xs. induction mask as [|b mask IH]; intros [|x xs]; simpl; try lia.
  specialize (IH xs). destruct b; simpl; lia.
Qed.

Lemma rename_column_frame df current new :
  rows (rename_column df current new) = rows df
  /\ length (columns (rename_column df current new)) = length (columns df).
Proof. unfold rename_column. cbn [rows columns]. by rewrite length_map. Qed.

(** The frame before duplicated names are dropped has the rows and the
    number of columns of the frame that was fetched. *)
Lemma renamed_frame table_name df :
  let renamed := fold_left (rename_step table_name) (tail (columns df))
                   (rename_column df ("entity:" +:+ table_name +:+ "_id")
                      (table_name +:+ "_entity_id")) in
  rename_gen3_columns table_name df = drop_duplicated_columns renamed
  /\ rows renamed = rows df
  /\ length (columns renamed) = length (columns df).
Proof.
  cbv zeta. split; [done |]. rewrite fold_rename_step. cbn [rows columns].
  rewrite length_map. apply rename_column_frame.
Qed.

Lemma rename_gen3_columns_index table_name df :
  index (rename_gen3_columns table_name df) = index df.
Proof.
  destruct (renamed_frame table_name df) as (-> & Hrows & _).
  unfold index, drop_duplicated_columns. cbn [rows]. by rewrite Hrows, map_map.
Qed.

(** [rename_column] on a name that the frame does not have changes
    nothing; on any name it keeps the rows and the number of columns. *)
Theorem rename_column_missing df current new :
  (current ∉ columns df -> rename_column df current new = df)
  /\ rows (rename_column df current new) = rows df
  /\ shape1 (rename_column df current new) = shape1 df.
Proof.
  split; [| apply rename_column_frame].
  unfold rename_column. intros Hmissing. destruct df as [cs rs]. cbn [columns rows] in *.
  f_equal. rewrite <- (map_id cs) at 2. apply map_ext_in.
  intros c Hc%list_elem_of_In. rewrite decide_False; [done |]. by intros ->.
Qed.

Lemma rename_column_missing_witness :
  rename_column sample_frame "submitter_id" "sample_submitter_id" = sample_frame.
Proof.
  apply (rename_column_missing sample_frame).
  apply (bool_decide_unpack _). by vm_compute.
Defined.

(** Whatever the table name and the frame, the renaming keeps the rows
    with their labels, their number and their order, leaves pairwise
    distinct column names, never adds a column, and keeps every row as
    wide as the header. *)
Theorem rename_gen3_columns_shape table_name df :
  index (rename_gen3_columns table_name df) = index df
  /\ shape0 (rename_gen3_columns table_name df) = shape0 df
  /\ NoDup (columns (rename_gen3_columns table_name df))
  /\ shape1 (rename_gen3_columns table_name df) <= shape1 df
  /\ (well_formed df -> well_formed (rename_gen3_columns table_name df)).
Proof.
  split; [apply rename_gen3_columns_index |].
  split.
  { unfold shape0. rewrite <- !(length_map fst). f_equal. apply rename_gen3_columns_index. }
  destruct (renamed_frame table_name df) as (-> & Hrows & Hcols).
  split; [apply drop_duplicated_columns_NoDup |].
  unfold shape1, well_formed, drop_duplicated_columns. cbn [rows columns].
  split.
  - rewrite <- Hcols. apply select_length_le.
  - intros Hwf. rewrite Hrows. apply Forall_forall. intros r Hr.
    apply elem_of_map in Hr as (r0 & -> & Hr0). cbn [snd].
    apply select_same_length. rewrite Hcols.
    by apply (proj1 (Forall_forall _ _) Hwf).
Qed.

Lemma rename_gen3_columns_shape_witness :
  well_formed (rename_gen3_columns "sample" sample_frame).
Proof.
  apply (rename_gen3_columns_shape "sample" sample_frame).
  repeat constructor.
Defined.

(** ** Table fetcher: the frame that is returned *)

Lemma read_csv_index t : index (read_csv t) = seq 0 (shape0 (read_csv t)).
Proof.
  unfold index, shape0, read_csv. cbn [rows].
  rewrite length_zip, length_seq, Nat.min_id.
  generalize 0. induction (lines t) as [|l ls IH]; intros n; [done |].
  cbn [length seq zip zip_with map fst]. f_equal. apply IH.
Qed.

Lemma get_terra_table_to_df_body_ok ws table_name k d :
  outcome (get_terra_table_to_df_body ws table_name k) = Ok d ->
  exists text, get_entities_tsv ws table_name k = Response 200 text /\ d = read_csv text.
Proof.
  unfold get_terra_table_to_df_body, emit. rewrite bind_ok, outcome_pair.
  destruct (get_entities_tsv ws table_name k) as [code text |]; [| done].
  destruct (decide (code = 200%Z)) as [-> | Hne].
  - intros [= <-]. by exists text.
  - destruct code as [| p | p]; try done.
    repeat (destruct p as [p | p |]; try done).
Qed.

(** A table that [get_gen3_terra_table_to_df] returns is the renamed
    content of the first answer with status 200, among at most three
    answers; its rows are labelled 0, 1, 2, ... and its column names are
    pairwise distinct. *)
Theorem get_gen3_terra_table_to_df_returns ws table_name df :
  outcome (get_gen3_terra_table_to_df ws table_name) = Ok df ->
  (exists k text,
      1 <= k <= 3
      /\ get_entities_tsv ws table_name k = Response 200 text
      /\ (forall j, 1 <= j < k -> raises (attempt_outcome ws table_name j))
      /\ df = rename_gen3_columns table_name (read_csv text))
  /\ index df = seq 0 (shape0 df)
  /\ NoDup (index df)
  /\ NoDup (columns df).
Proof.
  intros Hok. unfold get_gen3_terra_table_to_df in Hok.
  apply outcome_bind_ok in Hok as (fetched & Hfetch & Hret & _).
  injection Hret as <-.
  assert (Hanswer : exists k text,
             1 <= k <= 3
             /\ get_entities_tsv ws table_name k = Response 200 text
             /\ (forall j, 1 <= j < k -> raises (attempt_outcome ws table_name j))
             /\ fetched = read_csv text).
  { unfold get_terra_table_to_df, retry in Hfetch.
    cbn [retry_from Nat.sub retry_always] in Hfetch. unfold attempt_outcome.
    destruct (get_terra_table_to_df_body_cases ws table_name 1) as [[d1 H1] | [e1 H1]];
      rewrite H1 in Hfetch.
    { injection Hfetch as ->.
      destruct (get_terra_table_to_df_body_ok ws table_name 1 fetched)
        as (text & Ha & ->); [by rewrite H1 |].
      exists 1, text. repeat split; try done; try lia. }
    destruct (get_terra_table_to_df_body_cases ws table_name 2) as [[d2 H2] | [e2 H2]];
      rewrite H2 in Hfetch.
    { injection Hfetch as ->.
      destruct (get_terra_table_to_df_body_ok ws table_name 2 fetched)
        as (text & Ha & ->); [by rewrite H2 |].
      exists 2, text. repeat split; try done; try lia.
      intros j Hj. assert (j = 1) as -> by lia. by rewrite H1. }
    destruct (get_terra_table_to_df_body_cases ws table_name 3) as [[d3 H3] | [e3 H3]];
      rewrite H3 in Hfetch; [| done].
    injection Hfetch as ->.
    destruct (get_terra_table_to_df_body_ok ws table_name 3 fetched)
      as (text & Ha & ->); [by rewrite H3 |].
    exists 3, text. repeat split; try done; try lia.
    intros j Hj. assert (j = 1 \/ j = 2) as [-> | ->] by lia; by rewrite ?H1, ?H2. }
  destruct Hanswer as (k & text & Hk & Ha & Hbefore & ->).
  assert (Hseq : index (rename_gen3_columns table_name (read_csv text))
                 = seq 0 (shape0 (rename_gen3_columns table_name (read_csv text)))).
  { unfold shape0 at 1. rewrite <- (length_map fst).
    fold (index (rename_gen3_columns table_name (read_csv text))).
    rewrite rename_gen3_columns_index, read_csv_index. by rewrite length_seq. }
  split; [by exists k, text |]. split; [done |]. split.
  - rewrite Hseq. apply NoDup_ListNoDup, List.seq_NoDup.
  - destruct (renamed_frame table_name (read_csv text)) as (-> & _).
    apply drop_duplicated_columns_NoDup.
Qed.

Lemma get_gen3_terra_table_to_df_returns_witness :
  NoDup (index (rename_gen3_columns "subject"
                  (read_csv (mkTsv ["entity:subject_id"; "name"]
                               [[VStr "s1"; VStr "ann"]])))).
Proof.
  eapply (get_gen3_terra_table_to_df_returns clinic "subject"). reflexivity.
Defined.

(** ** Deduplicator: failures, repeated calls, what is removed *)

Lemma position_None c cs : position c cs = None <-> c ∉ cs.
Proof.
  induction cs as [|c' cs IH]; simpl.
  - split; [intros _; apply not_elem_of_nil | done].
  - rewrite not_elem_of_cons. case_decide as Hc.
    + split; [done | by intros [? _]].
    + destruct (position c cs); simpl.
      * split; [done |]. intros [_ Hcs]. by apply IH in Hcs.
      * split; [| done]. intros _. split; [done | by apply IH].
Qed.

Lemma bind_ok_nil {A B} (a : A) (k : A -> M B) : bind (Ok a, []) k = k a.
Proof. apply bind_ret_l. Qed.

(** [_deduplicate_merge_data], case by case. *)
Lemma deduplicate_cases merged current table key :
  _deduplicate_merge_data merged current table key =
    match position key (columns current) with
    | None => (Raise (KeyError key), [])
    | Some ik =>
        let gone := duplicate_rows current ik in
        let eid := get_entity_id_column_name table in
        if decide (gone = []) then (Ok (merged, current), [])
        else
          match position eid (columns current) with
          | None => (Raise (KeyError eid), [])
          | Some ie =>
              (Ok (pruned merged eid (map (cell ie) gone),
                   drop_labels current (map fst gone)),
               [LogWarning (MsgDuplicatesRemoved (length gone) table key
                              (map (cell ik) gone))])
          end
    end.
Proof.
  unfold _deduplicate_merge_data, duplicate_rows.
  destruct (position key (columns current)) as [ik |] eqn:Hik.
  2: { by rewrite (column_values_missing _ _ Hik). }
  rewrite (column_values_position _ _ _ Hik), bind_ok_nil.
  set (dups := duplicated (map (cell ik) (rows current))).
  rewrite (column_values_position (select_rows current dups) key ik) by done.
  rewrite bind_ok_nil. cbn [rows select_rows]. cbv zeta. rewrite length_map.
  destruct (select dups (rows current)) as [|g gone] eqn:Hgone.
  { by rewrite !decide_True by done. }
  rewrite !decide_False by done. rewrite <- Hgone.
  destruct (position (get_entity_id_column_name table) (columns current))
    as [ie |] eqn:Hie.
  2: { by rewrite (column_values_missing (select_rows current dups)) by done. }
  rewrite (column_values_position (select_rows current dups) _ ie) by done.
  rewrite bind_ok_nil. cbn [rows select_rows index].
  destruct merged as [merged |]; [| done]. unfold pruned.
  case_bool_decide as Hcol.
  - destruct (position_elem_of _ _ Hcol) as [im Him]. rewrite Him.
    rewrite (column_values_position _ _ _ Him), bind_ok_nil.
    unfold isin. rewrite map_map. unfold index, select_rows. cbn [rows].
    by rewrite select_map_filter.
  - apply position_None in Hcol. by rewrite Hcol.
Qed.

(** The mask of repeated entries selects nothing exactly when the entries
    are pairwise distinct. *)
Lemma duplicated_from_nothing {A B} `{EqDecision A} (seen l : list A) (xs : list B) :
  length xs = length l ->
  select (duplicated_from seen l) xs = []
  <-> NoDup l /\ (forall x, x ∈ l -> x ∉ seen).
Proof.
  revert seen xs. induction l as [|x l IH]; intros seen [|y xs] Hlen; try done.
  - split; [| done]. intros _. split; [constructor | by intros x ?%elem_of_nil].
  - injection Hlen as Hlen. cbn [duplicated_from select]. case_bool_decide as Hx.
    + split; [done |]. intros [_ Hout]. exfalso. apply (Hout x); [by left | done].
    + rewrite (IH (x :: seen) xs Hlen). split.
      * intros [Hnd Hout]. split.
        -- constructor; [| done]. intros Hin. apply (Hout x Hin). by left.
        -- intros z [-> | Hz]%elem_of_cons; [done |].
           intros Hseen. apply (Hout z Hz). by right.
      * intros [Hnd Hout]. apply NoDup_cons in Hnd as [Hxl Hnd]. split; [done |].
        intros z Hz [-> | Hseen]%elem_of_cons; [done |].
        apply (Hout z); [by right | done].
Qed.

Lemma duplicate_rows_none current ik :
  duplicate_rows current ik = [] <-> NoDup (map (cell ik) (rows current)).
Proof.
  unfold duplicate_rows, duplicated.
  rewrite duplicated_from_nothing by by rewrite length_map.
  split; [by intros [? _] |]. intros Hnd. split; [done |].
  intros x _. apply not_elem_of_nil.
Qed.

(** The entries kept by [~duplicated] are pairwise distinct. *)
Lemma first_kept_NoDup {A} `{EqDecision A} (seen l : list A) :
  NoDup (select (first_kept seen l) l)
  /\ (forall c, c ∈ select (first_kept seen l) l -> c ∉ seen).
Proof.
  revert seen. induction l as [|x l IH]; intros seen.
  - split; [constructor | by intros c ?%elem_of_nil].
  - unfold first_kept. simpl. fold (first_kept (x :: seen) l).
    destruct (IH (x :: seen)) as [Hnd Hout]. case_bool_decide as Hx; simpl.
    + split; [done |]. intros c Hc Hseen. apply (Hout c Hc). by right.
    + split.
      * constructor; [| done]. intros Hin. apply (Hout x Hin). by left.
      * intros c [-> | Hc]%elem_of_cons; [done |].
        intros Hseen. apply (Hout c Hc). by right.
Qed.

Lemma select_map {A B} (f : A -> B) (m : list bool) (l : list A) :
  select m (map f l) = map f (select m l).
Proof.
  revert l. induction m as [|b m IH]; intros [|x l]; simpl; try done.
  destruct b; simpl; by rewrite IH.
Qed.

Lemma filter_sublist {A} (p : A -> bool) (l : list A) : List.filter p l `sublist_of` l.
Proof.
  induction l as [|x l IH]; simpl; [constructor |].
  destruct (p x); by constructor.
Qed.

Lemma map_sublist {A B} (f : A -> B) (l k : list A) :
  l `sublist_of` k -> map f l `sublist_of` map f k.
Proof. induction 1; simpl; by constructor. Qed.

(** Dropping the labels of the rows selected by a mask leaves rows that
    the complement of the mask selects, whatever the labels are. *)
Lemma drop_selected_sublist {A} (m : list bool) (l : list (nat * A)) (labels : list nat) :
  length m = length l ->
  (forall r, r ∈ select m l -> fst r ∈ labels) ->
  List.filter (fun r => negb (bool_decide (fst r ∈ labels))) l
  `sublist_of` select (map negb m) l.
Proof.
  revert m. induction l as [|x l IH]; intros [|b m] Hlen Hin; try done.
  injection Hlen as Hlen. cbn [List.filter map select]. destruct b; cbn [negb].
  - rewrite bool_decide_eq_true_2 by (apply Hin; simpl; by left). cbn [negb].
    apply IH; [done |]. intros r Hr. apply Hin. simpl. by right.
  - specialize (IH m Hlen Hin). destruct (negb _); by constructor.
Qed.

(** The keys of the candidate are pairwise distinct after the call. *)
Lemma drop_duplicate_rows_NoDup current ik :
  NoDup (map (cell ik)
           (rows (drop_labels current (map fst (duplicate_rows current ik))))).
Proof.
  unfold drop_labels, duplicate_rows. cbn [rows].
  set (dups := duplicated (map (cell ik) (rows current))).
  assert (Hlen : length dups = length (rows current)).
  { unfold dups, duplicated. by rewrite length_duplicated_from, length_map. }
  apply (sublist_NoDup _ (map (cell ik) (select (map negb dups) (rows current)))).
  - rewrite <- select_map. apply (first_kept_NoDup [] (map (cell ik) (rows current))).
  - apply map_sublist, (drop_selected_sublist dups); [done |].
    intros r Hr. apply elem_of_map. by exists r.
Qed.

(** The call raises in two cases only, and has logged nothing by then:
    the candidate has no column for the key; or it has rows with repeated
    keys and no entity-id column.  A candidate without repeated keys comes
    back as it is, with the accumulator, even when the entity-id column is
    missing. *)
Theorem deduplicate_failures merged current table key :
  let m := _deduplicate_merge_data merged current table key in
  let eid := get_entity_id_column_name table in
  (key ∉ columns current -> m = (Raise (KeyError key), []))
  /\ (forall ik, position key (columns current) = Some ik ->
        (NoDup (map (cell ik) (rows current)) -> m = (Ok (merged, current), []))
        /\ (~ NoDup (map (cell ik) (rows current)) ->
              (eid ∉ columns current -> m = (Raise (KeyError eid), []))
              /\ (eid ∈ columns current ->
                    returns (outcome m) /\ duplicate_warnings (trace m) <> [])))
  /\ (raises (outcome m) -> trace m = []).
Proof.
  cbv zeta. rewrite deduplicate_cases. split; [| split].
  - intros Hkey. apply position_None in Hkey. by rewrite Hkey.
  - intros ik ->. cbv zeta. split.
    + intros Hnd. apply duplicate_rows_none in Hnd. by rewrite decide_True.
    + intros Hnd. rewrite <- duplicate_rows_none in Hnd. rewrite decide_False by done.
      split.
      * intros Heid. apply position_None in Heid. by rewrite Heid.
      * intros Heid. destruct (position_elem_of _ _ Heid) as [ie ->]. by split.
  - destruct (position key (columns current)) as [ik |]; [| done]. cbv zeta.
    case_decide; [done |].
    by destruct (position (get_entity_id_column_name table) (columns current)).
Qed.

Lemma deduplicate_failures_witness :
  _deduplicate_merge_data (Some aliquot_accumulator) sample_candidate "sample" "case_id"
  = (Raise (KeyError "case_id"), []).
Proof.
  apply (deduplicate_failures (Some aliquot_accumulator) sample_candidate "sample"
           "case_id").
  apply (bool_decide_unpack _). by vm_compute.
Defined.

(** A second call on the frames that a call returned changes nothing and
    logs nothing: the candidate has no repeated key left. *)
Theorem deduplicate_idempotent merged current table key merged' current' tr :
  _deduplicate_merge_data merged current table key = (Ok (merged', current'), tr) ->
  _deduplicate_merge_data merged' current' table key = (Ok (merged', current'), []).
Proof.
  rewrite !deduplicate_cases.
  destruct (position key (columns current)) as [ik |] eqn:Hik; [| done]. cbv zeta.
  case_decide as Hgone.
  - intros [= <- <- <-]. rewrite Hik. cbv zeta. by rewrite decide_True.
  - destruct (position (get_entity_id_column_name table) (columns current))
      as [ie |]; [| done].
    intros [= <- <- <-]. cbn [columns drop_labels]. rewrite Hik. cbv zeta.
    rewrite decide_True; [done |].
    apply duplicate_rows_none, drop_duplicate_rows_NoDup.
Qed.

Lemma deduplicate_idempotent_witness :
  exists merged' current',
    _deduplicate_merge_data (Some aliquot_accumulator) sample_candidate "sample"
      "subject_entity_id" = (Ok (merged', current'),
                             [LogWarning (MsgDuplicatesRemoved 1 "sample"
                                            "subject_entity_id" [VStr "s1"])])
    /\ _deduplicate_merge_data merged' current' "sample" "subject_entity_id"
       = (Ok (merged', current'), []).
Proof.
  eexists _, _. split; [reflexivity |].
  eapply (deduplicate_idempotent (Some aliquot_accumulator) sample_candidate).
  reflexivity.
Defined.

(** The call only removes rows.  Both frames keep their columns, and
    their rows are rows they had, in the same order, as wide as before; an
    accumulator without the entity-id column of the table is not touched;
    and the candidate loses rows exactly when a warning is logged. *)
Theorem deduplicate_only_removes merged current table key merged' current' tr :
  _deduplicate_merge_data merged current table key = (Ok (merged', current'), tr) ->
  (columns current' = columns current /\ rows current' `sublist_of` rows current)
  /\ match merged, merged' with
     | Some before, Some after =>
         columns after = columns before
         /\ rows after `sublist_of` rows before
         /\ (get_entity_id_column_name table ∉ columns before -> after = before)
     | None, None => True
     | _, _ => False
     end
  /\ (shape0 current' < shape0 current <-> duplicate_warnings tr <> [])
  /\ (current' = current <-> tr = []).
Proof.
  rewrite deduplicate_cases.
  destruct (position key (columns current)) as [ik |] eqn:Hik; [| done]. cbv zeta.
  case_decide as Hgone.
  { intros [= <- <- <-]. split; [done |]. split.
    - destruct merged; [| done]. by split.
    - split; [| done]. split; [lia | done]. }
  destruct (position (get_entity_id_column_name table) (columns current))
    as [ie |]; [| done].
  intros [= <- <- <-].
  assert (Hless : shape0 (drop_labels current (map fst (duplicate_rows current ik)))
                  < shape0 current).
  { unfold shape0, drop_labels. cbn [rows].
    destruct (duplicate_rows current ik) as [|g gone] eqn:Hg; [done |].
    assert (Hin : g ∈ rows current).
    { apply (select_elem_of (duplicated (map (cell ik) (rows current)))).
      unfold duplicate_rows in Hg. rewrite Hg. by left. }
    clear -Hin. induction (rows current) as [|r rs IH]; [by apply elem_of_nil in Hin |].
    cbn [List.filter length]. apply elem_of_cons in Hin as [<- | Hin].
    - rewrite bool_decide_eq_true_2 by (simpl; by left). cbn [negb].
      pose proof (sublist_length _ _ (filter_sublist
        (fun r => negb (bool_decide (fst r ∈ map fst (g :: gone)))) rs)).
      lia.
    - specialize (IH Hin). destruct (negb _); cbn [length]; lia. }
  split; [| split; [| split]].
  - split; [done |]. apply filter_sublist.
  - destruct merged as [before |]; [| done]. cbn [pruned].
    destruct (position _ (columns before)) as [im |] eqn:Him.
    + split; [done |]. split; [apply filter_sublist |].
      intros Hcol. apply position_None in Hcol. by rewrite Hcol in Him.
    + by split.
  - by split.
  - split; [| done]. intros Heq. rewrite Heq in Hless. lia.
Qed.

Lemma deduplicate_only_removes_witness :
  exists merged' current',
    _deduplicate_merge_data (Some aliquot_accumulator) sample_candidate "sample"
      "subject_entity_id" = (Ok (Some merged', current'),
                             [LogWarning (MsgDuplicatesRemoved 1 "sample"
                                            "subject_entity_id" [VStr "s1"])])
    /\ rows merged' `sublist_of` rows aliquot_accumulator
    /\ rows current' `sublist_of` rows sample_candidate.
Proof.
  eexists _, _. split; [reflexivity |].
  pose proof (deduplicate_only_removes (Some aliquot_accumulator) sample_candidate
                "sample" "subject_entity_id" _ _ _ eq_refl) as ((_ & Hc) & (_ & Hm & _) & _).
  by split.
Defined.

(** ** Merge planner: join columns and the other parameters *)

(** One turn of the loop of [_substitute_entity_id_column_name]. *)
Lemma substitute_turn_lookup (p : gmap string pyval) (k key : string) :
  match p !! k with
  | Some v =>
      if py_truthy v
      then <[k := PStr (get_entity_id_column_name (py_str v))]> p
      else p
  | None => p
  end !! key
  = if decide (key = k) then entity_id_value <$> p !! key else p !! key.
Proof.
  case_decide as Hk.
  - subst k. unfold entity_id_value. destruct (p !! key) as [v |] eqn:Hv; [| by rewrite Hv].
    cbn [fmap option_fmap option_map].
    destruct (py_truthy v); [by rewrite lookup_insert_eq | by rewrite Hv].
  - destruct (p !! k) as [v |]; [| done].
    destruct (py_truthy v); [by rewrite lookup_insert_ne | done].
Qed.

(** The substitution rewrites the values of [on], [left_on] and
    [right_on], each on its own, and nothing else. *)
Lemma substitute_lookup (p : gmap string pyval) (key : string) :
  _substitute_entity_id_column_name p !! key
  = if bool_decide (key ∈ join_keys) then entity_id_value <$> p !! key else p !! key.
Proof.
  unfold _substitute_entity_id_column_name, join_keys. cbn [fold_left].
  rewrite !substitute_turn_lookup.
  destruct (decide (key = "right_on")) as [-> | Hr]; [done |].
  destruct (decide (key = "left_on")) as [-> | Hl]; [done |].
  destruct (decide (key = "on")) as [-> | Ho]; [done |].
  rewrite bool_decide_eq_false_2; [done |].
  intros Hin. repeat (apply elem_of_cons in Hin as [? | Hin]; [done |]).
  by apply elem_of_nil in Hin.
Qed.

Lemma combined_lookup (d : gmap string pyval) merge_info key :
  key <> "how" ->
  _create_combined_merge_parameters d merge_info !! key
  = or_else (if decide (key = "on") then join_column merge_info else None)
      (or_else (merge_parameters merge_info ≫= (.!! key))
         (or_else (d !! key) (standard_pandas_default_parameters !! key))).
Proof.
  intros Hhow. unfold _create_combined_merge_parameters.
  assert (Htype : forall m : gmap string pyval,
             match join_type merge_info with
             | Some t => <["how" := t]> m
             | None => m
             end !! key = m !! key).
  { intros m. destruct (join_type merge_info); [| done]. by rewrite lookup_insert_ne. }
  rewrite Htype.
  assert (Hlower : match merge_parameters merge_info with
                   | Some p => update (update standard_pandas_default_parameters d) p
                   | None => update standard_pandas_default_parameters d
                   end !! key
                   = or_else (merge_parameters merge_info ≫= (.!! key))
                       (or_else (d !! key) (standard_pandas_default_parameters !! key))).
  { destruct (merge_parameters merge_info) as [p |]; cbn [mbind option_bind or_else].
    - rewrite !update_lookup. by destruct (p !! key), (d !! key).
    - rewrite update_lookup. by destruct (d !! key). }
  destruct (join_column merge_info) as [c |].
  - case_decide as Hon.
    + subst key. by rewrite lookup_insert_eq.
    + by rewrite lookup_insert_ne.
  - by case_decide.
Qed.

Lemma spec_default_lookup merge_spec key :
  key <> "how" ->
  spec_default_merge_parameters merge_spec !! key
  = default_merge_parameters merge_spec ≫= (.!! key).
Proof.
  intros Hhow. unfold spec_default_merge_parameters.
  assert (Htype : forall m : gmap string pyval,
             match default_join_type merge_spec with
             | Some t => <["how" := t]> m
             | None => m
             end !! key = m !! key).
  { intros m. destruct (default_join_type merge_spec); [| done].
    by rewrite lookup_insert_ne. }
  rewrite Htype. destruct (default_merge_parameters merge_spec) as [d |]; [done |].
  cbn [mbind option_bind]. by rewrite lookup_singleton_ne.
Qed.

(** A parameter other than [how] is resolved with later sources winning:
    pandas' default, the specification's [default_merge_parameters], the
    step's [merge_parameters] and, for [on], the step's [join_column].
    The values of [on], [left_on] and [right_on] that Python takes for
    true then get the suffix [_entity_id]; every other value is handed to
    pandas as it is.  A step with the join column [c] joins on
    [c_entity_id], and a step without any join column joins on [None]. *)
Theorem parameter_resolution merge_spec merge_info key :
  key <> "how" ->
  step_merge_parameters merge_spec merge_info !! key
  = (if bool_decide (key ∈ join_keys)
     then entity_id_value <$> resolved_parameter merge_spec merge_info key
     else resolved_parameter merge_spec merge_info key)
  /\ (forall c, key = "on" -> join_column merge_info = Some (PStr c) -> c <> "" ->
        step_merge_parameters merge_spec merge_info !! key
        = Some (PStr (c +:+ "_entity_id")))
  /\ (key = "on" -> join_column merge_info = None ->
      merge_parameters merge_info ≫= (.!! "on") = None ->
      default_merge_parameters merge_spec ≫= (.!! "on") = None ->
      step_merge_parameters merge_spec merge_info !! key = Some PNone).
Proof.
  intros Hhow.
  assert (H : step_merge_parameters merge_spec merge_info !! key
              = (if bool_decide (key ∈ join_keys)
                 then entity_id_value <$> resolved_parameter merge_spec merge_info key
                 else resolved_parameter merge_spec merge_info key)).
  { unfold step_merge_parameters, resolved_parameter.
    by rewrite substitute_lookup, combined_lookup, spec_default_lookup. }
  split; [done |]. split.
  - intros c -> Hc Hne. rewrite H. unfold resolved_parameter. rewrite Hc.
    cbn. unfold entity_id_value, py_truthy.
    destruct c as [|a c]; [done |]. reflexivity.
  - intros -> Hc Hp Hd. rewrite H. unfold resolved_parameter. by rewrite Hc, Hp, Hd.
Qed.

Lemma parameter_resolution_witness :
  step_merge_parameters keyed_spec keyed_step !! "left_on"
  = Some (PStr "sample_entity_id")
  /\ step_merge_parameters keyed_spec keyed_step !! "right_on"
     = Some (PStr "subject_entity_id")
  /\ step_merge_parameters keyed_spec keyed_step !! "sort" = Some (PBool true).
Proof.
  split; [| split].
  - by rewrite (proj1 (parameter_resolution keyed_spec keyed_step "left_on" ltac:(done))).
  - by rewrite (proj1 (parameter_resolution keyed_spec keyed_step "right_on" ltac:(done))).
  - by rewrite (proj1 (parameter_resolution keyed_spec keyed_step "sort" ltac:(done))).
Defined.

Lemma substitute_dom (p : gmap string pyval) :
  dom (_substitute_entity_id_column_name p) = dom p.
Proof.
  apply set_eq. intros key. rewrite !elem_of_dom, substitute_lookup.
  case_bool_decide; [| done]. by rewrite fmap_is_Some.
Qed.

(** The parameters of a step are pandas' own eleven, the names that the
    specification's [default_merge_parameters] hold and the names that the
    step's [merge_parameters] hold: no name is lost and none is made up.
    So reading [on] and [how] from them never raises. *)
Theorem step_parameter_names merge_spec merge_info :
  dom (step_merge_parameters merge_spec merge_info)
  = dom standard_pandas_default_parameters
    ∪ dom (default ∅ (default_merge_parameters merge_spec))
    ∪ dom (default ∅ (merge_parameters merge_info))
  /\ returns (outcome (getitem (step_merge_parameters merge_spec merge_info) "on"))
  /\ returns (outcome (getitem (step_merge_parameters merge_spec merge_info) "how"))
  /\ trace (getitem (step_merge_parameters merge_spec merge_info) "on") = []
  /\ trace (getitem (step_merge_parameters merge_spec merge_info) "how") = [].
Proof.
  assert (Hstd : forall key, key = "on" \/ key = "how" ->
            key ∈ dom standard_pandas_default_parameters).
  { intros key [-> | ->]; apply (bool_decide_unpack _); by vm_compute. }
  assert (Hdom : dom (step_merge_parameters merge_spec merge_info)
                 = dom standard_pandas_default_parameters
                   ∪ dom (default ∅ (default_merge_parameters merge_spec))
                   ∪ dom (default ∅ (merge_parameters merge_info))).
  { unfold step_merge_parameters. rewrite substitute_dom.
    unfold _create_combined_merge_parameters, spec_default_merge_parameters, update.
    pose proof (Hstd "on" (or_introl eq_refl)) as Hon.
    pose proof (Hstd "how" (or_intror eq_refl)) as Hhow.
    destruct (join_type merge_info), (join_column merge_info),
      (merge_parameters merge_info), (default_join_type merge_spec),
      (default_merge_parameters merge_spec); cbn [default];
      rewrite ?dom_insert_L, ?dom_union_L, ?dom_insert_L, ?dom_singleton_L, ?dom_empty_L;
      apply set_eq; intros key;
      rewrite ?elem_of_union, ?elem_of_singleton, ?elem_of_empty;
      intuition (subst; auto). }
  split; [done |].
  assert (Hget : forall key, key = "on" \/ key = "how" ->
            exists v, getitem (step_merge_parameters merge_spec merge_info) key = (Ok v, [])).
  { intros key Hkey. unfold getitem.
    assert (Hin : key ∈ dom (step_merge_parameters merge_spec merge_info)).
    { rewrite Hdom. apply elem_of_union_l, elem_of_union_l. by apply Hstd. }
    apply elem_of_dom in Hin as [v ->]. by exists v. }
  destruct (Hget "on" (or_introl eq_refl)) as [von ->].
  destruct (Hget "how" (or_intror eq_refl)) as [vhow ->]. done.
Qed.

(** ** Join engine: what is written *)

Lemma sends_bind {A B} Q (m : M A) (k : A -> M B) :
  sends Q m -> (forall a, outcome m = Ok a -> sends Q (k a)) -> sends Q (bind m k).
Proof.
  unfold sends. intros Hm Hk. rewrite trace_bind.
  destruct (outcome m) as [a | e |]; [| done | done].
  rewrite uploads_app. apply Forall_app. split; [done | by apply Hk].
Qed.

Lemma fails_with_bind_l {A B} e (m : M A) (k : A -> M B) :
  fails_with e m -> fails_with e (bind m k).
Proof.
  intros [Hr Hu]. unfold fails_with. rewrite outcome_bind, trace_bind. by rewrite Hr.
Qed.

Lemma fails_with_bind_r {A B} e (m : M A) (k : A -> M B) a :
  outcome m = Ok a -> uploads (trace m) = [] -> fails_with e (k a) ->
  fails_with e (bind m k).
Proof.
  intros Hm Hu [Hr Hk]. unfold fails_with.
  rewrite outcome_bind, trace_bind, Hm, uploads_app, Hu, Hk. by split.
Qed.

Lemma sends_nothing {A} Q (m : M A) : clean not_upload m -> sends Q m.
Proof. intros [_ Htr]. unfold sends. by rewrite (uploads_none _ Htr). Qed.

(** Every attempt at a write sends the same chunk. *)
Lemma sends_fapi_upload_entities Q ws t : Q t -> sends Q (fapi_upload_entities ws t).
Proof.
  intros Ht. unfold sends, fapi_upload_entities, retry. cbn [retry_from Nat.sub].
  destruct (fapi_upload_entities_body_cases ws t 1) as [-> | [(c1 & Hc1 & ->) | ->]];
    [by repeat constructor | | by repeat constructor].
  cbn [retry_if_exception_type_FireCloudServerError].
  destruct (fapi_upload_entities_body_cases ws t 2) as [-> | [(c2 & Hc2 & ->) | ->]];
    [by repeat constructor | | by repeat constructor].
  cbn [retry_if_exception_type_FireCloudServerError].
  destruct (fapi_upload_entities_body_cases ws t 3) as [-> | [(c3 & Hc3 & ->) | ->]];
    by repeat constructor.
Qed.

(** The chunks of an upload have the header of the frame and between 1
    and [chunk_size] lines. *)
Lemma sends_upload_loop ws df cs fuel start :
  1 <= cs ->
  sends (fun t => header t = columns df /\ 1 <= length (lines t) <= cs)
    (upload_loop fuel ws df cs start).
Proof.
  intros Hcs. revert start. induction fuel as [|fuel IH]; intros start;
    cbn [upload_loop]; case_decide as Hlt; try by constructor.
  apply sends_bind.
  - apply sends_fapi_upload_entities. rewrite iloc_chunk. cbn [header lines].
    split; [done |]. rewrite length_take, length_map, length_drop.
    unfold shape0 in Hlt. lia.
  - intros _ _. apply sends_bind; [by constructor |]. intros _ _. apply IH.
Qed.

Lemma sends_upload_entities_df ws df cs :
  1 <= cs ->
  sends (fun t => header t = columns df /\ 1 <= length (lines t) <= cs)
    (upload_entities_df ws df cs).
Proof.
  intros Hcs. unfold upload_entities_df.
  apply sends_bind; [by constructor |]. intros _ _.
  apply sends_bind; [by constructor |]. intros _ _.
  apply sends_bind; [by apply sends_upload_loop |]. intros _ _.
  apply sends_bind; [by constructor |]. intros _ _. by constructor.
Qed.

Section Accumulator.

Variable merge : DataFrame -> DataFrame -> gmap string pyval -> exn + DataFrame.

(** A turn of the join loop leaves the accumulator as it is or drops its
    repeated column names. *)
Lemma join_one_columns ws p d t d' :
  outcome (join_one merge ws p d t) = Ok d' -> NoDup (columns d) -> NoDup (columns d').
Proof.
  unfold join_one. intros Hout Hnd.
  apply outcome_bind_ok in Hout as (names & _ & Hout & _).
  case_bool_decide.
  { apply outcome_bind_ok in Hout as ([] & _ & Hout & _). by injection Hout as <-. }
  apply outcome_bind_ok in Hout as (current & _ & Hout & _).
  apply outcome_bind_ok in Hout as ([merged_opt current'] & _ & Hout & _).
  apply outcome_bind_ok in Hout as (on & _ & Hout & _).
  apply outcome_bind_ok in Hout as (how & _ & Hout & _).
  apply outcome_bind_ok in Hout as (merged & _ & Hout & _).
  apply outcome_bind_ok in Hout as ([] & _ & Hout & _).
  injection Hout as <-. apply drop_duplicated_columns_NoDup.
Qed.

Lemma join_tables_columns ws names p d d' :
  outcome (join_tables merge ws names p d) = Ok d' ->
  NoDup (columns d) -> NoDup (columns d').
Proof.
  revert d. induction names as [|t names IH]; intros d Hout Hnd; cbn [join_tables] in Hout.
  - by injection Hout as <-.
  - apply outcome_bind_ok in Hout as (d1 & Hone & Hout & _).
    eapply IH; [done |]. by eapply join_one_columns.
Qed.

Lemma consolidate_tables_to_df_columns ws names p initial_df d' :
  outcome (consolidate_tables_to_df merge ws names p initial_df) = Ok d' ->
  match initial_df with Some d => NoDup (columns d) | None => True end ->
  NoDup (columns d').
Proof.
  unfold consolidate_tables_to_df. intros Hout Hnd. destruct initial_df as [d |].
  - apply outcome_bind_ok in Hout as ([] & _ & Hout & _).
    by eapply join_tables_columns.
  - apply outcome_bind_ok in Hout as ([] & _ & Hout & _).
    apply outcome_bind_ok in Hout as (first_df & Hfetch & Hout & _).
    apply outcome_bind_ok in Hout as ([none first_df'] & Hdedup & Hout & _).
    eapply join_tables_columns; [done |].
    assert (Hcols : columns first_df' = columns first_df).
    { case_decide.
      - rewrite deduplicate_cases in Hdedup.
        destruct (position _ (columns first_df)); [| done]. cbv zeta in Hdedup.
        case_decide; [by injection Hdedup as <- <- |].
        destruct (position _ (columns first_df)); [| done].
        by injection Hdedup as <- <-.
      - by injection Hdedup as <- <-. }
    rewrite Hcols. unfold get_gen3_terra_table_to_df in Hfetch.
    apply outcome_bind_ok in Hfetch as (fetched & _ & Hret & _).
    injection Hret as <-.
    destruct (renamed_frame (hd "" names) fetched) as (-> & _).
    apply drop_duplicated_columns_NoDup.
Qed.

Lemma consolidate_steps_columns ws dmp steps merged prev d' :
  outcome (consolidate_steps merge ws dmp steps merged prev) = Ok (Some d') ->
  match merged with Some d => NoDup (columns d) | None => True end ->
  NoDup (columns d').
Proof.
  revert merged prev. induction steps as [|s steps IH]; intros merged prev Hout Hnd;
    cbn [consolidate_steps] in Hout.
  - by injection Hout as ->.
  - apply outcome_bind_ok in Hout as (d & Hstep & Hout & _).
    apply outcome_bind_ok in Hout as ([] & _ & Hout & _).
    eapply IH; [done |]. by eapply consolidate_tables_to_df_columns.
Qed.

(** The column names of a consolidated frame are pairwise distinct,
    whatever the join does: the renaming sees to it for the first table,
    and repeated names are dropped after every join. *)
Theorem consolidate_to_df_columns ws merge_spec consolidated_df :
  outcome (consolidate_to_df merge ws merge_spec) = Ok (Some consolidated_df) ->
  NoDup (columns consolidated_df)
  /\ merge_sequence merge_spec <> [].
Proof.
  unfold consolidate_to_df. intros Hout. split.
  - by eapply consolidate_steps_columns.
  - intros Hnil. by rewrite Hnil in Hout.
Qed.

(** Every chunk that [consolidate_to_terra_table] sends, accepted or not,
    starts with the column [entity:<entity_name>_id], has pairwise distinct
    column names and holds between 1 and 500 lines. *)
Theorem consolidate_to_terra_table_sends ws merge_spec entity_name :
  sends (terra_chunk entity_name)
    (consolidate_to_terra_table merge ws merge_spec entity_name).
Proof.
  unfold consolidate_to_terra_table.
  destruct (final_index_source_column merge_spec) as [c |]; [| by constructor].
  destruct (negb (String.eqb c "")); [| by constructor].
  apply sends_bind; [apply sends_nothing, clean_get_table_names |]. intros names _.
  apply sends_bind.
  { apply sends_nothing. case_bool_decide; [| apply clean_ret].
    apply clean_bind; [apply clean_get_table_info |].
    intros [[? ?] |]; [by apply clean_emit | apply clean_ret]. }
  intros _ _. apply sends_bind.
  { apply sends_nothing. unfold consolidate_to_df.
    by apply (clean_consolidate_steps not_upload). }
  intros [df |] Hdf; [| by constructor].
  apply consolidate_steps_columns in Hdf; [| done].
  apply sends_bind; [apply sends_nothing, clean_column_values |]. intros ids _.
  unfold insert_first. case_bool_decide as Hname; [by constructor |].
  rewrite bind_ret_l.
  set (named := {| columns := ("entity:" +:+ entity_name +:+ "_id") :: columns df;
                   rows := zip_with (fun v r => (fst r, v :: snd r)) ids (rows df) |}).
  apply sends_bind.
  - eapply Forall_impl; [apply (sends_upload_entities_df ws named 500); lia |].
    intros t [Hheader Hlines]. unfold terra_chunk. rewrite Hheader.
    split; [done |]. split; [| done]. by constructor.
  - intros _ _. apply sends_bind.
    + apply sends_nothing, clean_get_table_info.
    + intros actual _. apply sends_nothing. unfold report_sizes.
      destruct actual as [[? ?] |]; [| apply clean_raise].
      repeat case_match; by apply clean_emit.
Qed.

(** A run that does not reach the upload raises before anything is sent,
    and the exception tells why.  A listing that cannot be read ends the
    run before any table is fetched.  Past the listing, an exception of
    the consolidation is raised as it is; a specification without steps
    raises [AttributeError]; a final index that is no column of the
    consolidated frame raises [KeyError]; and a consolidated frame that
    already has a column [entity:<entity_name>_id] raises [ValueError]. *)
Theorem consolidate_to_terra_table_failures ws merge_spec entity_name c :
  final_index_source_column merge_spec = Some c -> c <> "" ->
  let m := consolidate_to_terra_table merge ws merge_spec entity_name in
  (forall e, outcome (get_table_names ws [] false) = Raise e -> m = (Raise e, []))
  /\ (returns (outcome (get_table_names ws [] false)) ->
      match outcome (consolidate_to_df merge ws merge_spec) with
      | Raise e => fails_with e m
      | Ok None => fails_with AttributeError m
      | Ok (Some consolidated_df) =>
          (c ∉ columns consolidated_df -> fails_with (KeyError c) m)
          /\ (c ∈ columns consolidated_df ->
              ("entity:" +:+ entity_name +:+ "_id") ∈ columns consolidated_df ->
              fails_with (ValueError "cannot insert, already exists") m)
      | Diverge => False
      end)
  /\ (merge_sequence merge_spec = [] ->
      consolidate_to_df merge ws merge_spec = (Ok None, [])).
Proof.
  intros Hindex Hc m. subst m. unfold consolidate_to_terra_table. rewrite Hindex.
  destruct (String.eqb_spec c ""); [done |]. cbn [negb].
  split; [| split].
  - intros e He. pose proof (get_table_names_trace ws [] false) as Htr.
    destruct (get_table_names ws [] false) as [r tr]. cbn in He, Htr. by subst.
  - intros Hnames.
    destruct (outcome (get_table_names ws [] false)) as [names | |] eqn:Hout; try done.
    rewrite (get_table_names_ok _ _ _ _ Hout), bind_ok_nil.
    assert (Hcheck : exists u,
               outcome (if bool_decide (entity_name ∈ names)
                        then let! existing := get_table_info ws [] entity_name false in
                             match existing with
                             | Some (existing_rows, existing_columns) =>
                                 emit (LogInfo (MsgTableExists entity_name existing_rows
                                                  existing_columns))
                             | None => ret tt
                             end
                        else ret tt) = Ok u).
    { case_bool_decide; [| by exists tt]. rewrite outcome_bind.
      unfold get_table_names in Hout. rewrite outcome_bind in Hout.
      unfold get_table_info. rewrite outcome_bind.
      destruct (outcome (loaded_info ws [] false)) as [info | |]; try done.
      destruct (info !! entity_name) as [[? ?] |]; by exists tt. }
    destruct Hcheck as [[] Hcheck].
    assert (Hquiet : forall A (k : unit -> M A) e,
               fails_with e (k tt) ->
               fails_with e
                 (bind (if bool_decide (entity_name ∈ names)
                        then let! existing := get_table_info ws [] entity_name false in
                             match existing with
                             | Some (existing_rows, existing_columns) =>
                                 emit (LogInfo (MsgTableExists entity_name existing_rows
                                                  existing_columns))
                             | None => ret tt
                             end
                        else ret tt) k)).
    { intros A k e He. apply fails_with_bind_r with tt; [done | | done].
      apply uploads_none. case_bool_decide; [| by constructor].
      apply (clean_bind not_upload); [apply clean_get_table_info |].
      intros [[? ?] |]; [by apply clean_emit | apply clean_ret]. }
    assert (Hsilent : uploads (trace (consolidate_to_df merge ws merge_spec)) = []).
    { apply uploads_none. unfold consolidate_to_df.
      by apply (clean_consolidate_steps not_upload). }
    assert (Hends : outcome (consolidate_to_df merge ws merge_spec) <> Diverge).
    { unfold consolidate_to_df. by apply (clean_consolidate_steps not_upload). }
    destruct (outcome (consolidate_to_df merge ws merge_spec))
      as [[df |] | e |] eqn:Hdf; [| | | done].
    + split.
      * intros Hmissing. apply Hquiet. apply fails_with_bind_r with (Some df); try done.
        apply fails_with_bind_l. apply position_None in Hmissing.
        by rewrite (column_values_missing _ _ Hmissing).
      * intros Hcol Hname. apply Hquiet.
        apply fails_with_bind_r with (Some df); try done.
        destruct (position_elem_of _ _ Hcol) as [i Hi].
        rewrite (column_values_position _ _ _ Hi), bind_ok_nil.
        apply fails_with_bind_l. unfold insert_first.
        by rewrite bool_decide_eq_true_2.
    + apply Hquiet. by apply fails_with_bind_r with None.
    + apply Hquiet. apply fails_with_bind_l. by split.
  - intros Hnil. unfold consolidate_to_df. by rewrite Hnil.
Qed.

End Accumulator.

Lemma consolidate_to_df_columns_witness :
  exists consolidated_df,
    outcome (consolidate_to_df merge_ref clinic clinic_spec) = Ok (Some consolidated_df)
    /\ NoDup (columns consolidated_df).
Proof.
  eexists. split; [reflexivity |].
  eapply (consolidate_to_df_columns merge_ref clinic clinic_spec). reflexivity.
Defined.

(** The clinic has no column [visit_entity_id]: nothing is written. *)
Lemma consolidate_to_terra_table_failures_witness :
  fails_with (KeyError "visit_entity_id")
    (consolidate_to_terra_table merge_ref clinic misindexed_spec "cohort").
Proof.
  pose proof (consolidate_to_terra_table_failures merge_ref clinic misindexed_spec
                "cohort" "visit_entity_id" eq_refl ltac:(discriminate)) as (_ & H & _).
  specialize (H I).
  assert (Hdf : outcome (consolidate_to_df merge_ref clinic misindexed_spec)
                = Ok (Some {| columns := ["subject_entity_id"; "subject_name";
                                         "demographic_entity_id"];
                              rows := [(0, [VStr "s1"; VStr "ann"; VStr "d1"]);
                                       (1, [VStr "s1"; VStr "ann"; VStr "d2"])] |}))
    by by vm_compute.
  rewrite Hdf in H. apply H. apply (bool_decide_unpack _). by vm_compute.
Defined.

(** ** The effect monad: sequences of sequences *)

Lemma bind_assoc {A B C} (m : M A) (f : A -> M B) (g : B -> M C) :
  bind (bind m f) g = bind m (fun a => bind (f a) g).
Proof.
  destruct m as [[a | e |] tr]; [| done | done]. cbn [bind].
  destruct (f a) as [[b | e |] tr']; [| done | done]. cbn [bind].
  destruct (g b) as [r tr'']. by rewrite app_assoc.
Qed.

Lemma assert_true {A} msg (k : M A) : (assert true msg;; k) = k.
Proof. unfold assert, ret, bind. by destruct k. Qed.

(** ** Join engine: steps in sequence *)

Section Composition.

Variable merge : DataFrame -> DataFrame -> gmap string pyval -> exn + DataFrame.

Lemma join_tables_app ws names1 names2 p d :
  join_tables merge ws (names1 ++ names2) p d
  = let! d1 := join_tables merge ws names1 p d in join_tables merge ws names2 p d1.
Proof.
  revert d. induction names1 as [|t names1 IH]; intros d; cbn [app join_tables].
  - by rewrite bind_ret_l.
  - rewrite bind_assoc. apply bind_ext. intros d1. apply IH.
Qed.

(** Joining the tables of two lists in one step is joining the first
    list, then the second list upon the result, with the same parameters:
    same frames, same outcome, same events.  The first list has the number
    of names that the step asserts, and the second list is not empty. *)
Theorem consolidate_tables_to_df_app ws names1 names2 p initial_df :
  ~ too_few_tables initial_df names1 -> names2 <> [] ->
  consolidate_tables_to_df merge ws (names1 ++ names2) p initial_df
  = let! d1 := consolidate_tables_to_df merge ws names1 p initial_df in
    consolidate_tables_to_df merge ws names2 p (Some d1).
Proof.
  intros Hfirst Hsecond. unfold consolidate_tables_to_df, too_few_tables in *.
  assert (Hlen2 : 1 <= length names2) by (destruct names2; simpl; [done | lia]).
  destruct initial_df as [d |].
  - rewrite !bool_decide_eq_true_2 by (rewrite ?length_app; lia).
    rewrite !assert_true, join_tables_app.
    apply bind_ext. intros d1. symmetry. apply assert_true.
  - rewrite !bool_decide_eq_true_2 by (rewrite ?length_app; lia).
    rewrite !assert_true.
    destruct names1 as [|first names1]; [simpl in Hfirst; lia |]. cbn [app hd tail].
    rewrite !bind_assoc. apply bind_ext. intros first_df.
    rewrite !bind_assoc. apply bind_ext. intros [none first_df'].
    rewrite join_tables_app. apply bind_ext. intros d1. symmetry. apply assert_true.
Qed.

(** Running a merge sequence is running its first steps, then the steps
    that follow upon the frame they left, the row count of that frame
    being the count the next step is compared with. *)
Theorem consolidate_steps_app ws dmp pre post merged prev :
  pre <> [] ->
  consolidate_steps merge ws dmp (pre ++ post) merged prev
  = let! consolidated := consolidate_steps merge ws dmp pre merged prev in
    consolidate_steps merge ws dmp post consolidated
      (previous_row_count_of (shape0 <$> consolidated)).
Proof.
  revert merged prev. induction pre as [|s pre IH]; intros merged prev Hpre; [done |].
  cbn [app consolidate_steps]. rewrite bind_assoc. apply bind_ext. intros d.
  rewrite bind_assoc. apply bind_ext. intros [].
  destruct pre as [|s' pre].
  - cbn [app consolidate_steps]. by rewrite bind_ret_l.
  - by apply IH.
Qed.

End Composition.

Lemma consolidate_tables_to_df_app_witness :
  consolidate_tables_to_df merge_ref clinic (["subject"; "demographic"] ++ ["demographic"])
    clinic_parameters None
  = let! d1 := consolidate_tables_to_df merge_ref clinic ["subject"; "demographic"]
                 clinic_parameters None in
    consolidate_tables_to_df merge_ref clinic ["demographic"] clinic_parameters (Some d1).
Proof.
  apply (consolidate_tables_to_df_app merge_ref clinic ["subject"; "demographic"]
           ["demographic"] clinic_parameters None); [simpl; lia | done].
Defined.

Lemma consolidate_steps_app_witness :
  consolidate_steps merge_ref clinic ∅ ([clinic_step] ++ [clinic_step]) None (-1)
  = let! consolidated := consolidate_steps merge_ref clinic ∅ [clinic_step] None (-1) in
    consolidate_steps merge_ref clinic ∅ [clinic_step] consolidated
      (previous_row_count_of (shape0 <$> consolidated)).
Proof.
  apply (consolidate_steps_app merge_ref clinic ∅ [clinic_step] [clinic_step] None (-1)).
  done.
Defined.

(** ** Join engine: the tables that are fetched *)

Lemma fetches_app tr1 tr2 : fetches (tr1 ++ tr2) = fetches tr1 ++ fetches tr2.
Proof. apply omap_app. Qed.

Lemma fetches_none tr : Forall not_fetch tr -> fetches tr = [].
Proof.
  induction 1 as [|ev tr Hev _ IH]; [done |].
  destruct ev; try done; apply IH.
Qed.

Lemma fetch_plan_quiet {A} Q n (m : M A) : clean not_fetch m -> fetch_plan Q n (trace m).
Proof.
  intros [_ Htr]. unfold fetch_plan. rewrite (fetches_none _ Htr).
  split; [constructor | simpl; lia].
Qed.

Lemma fetch_plan_bind {A B} Q n1 n2 (m : M A) (k : A -> M B) :
  fetch_plan Q n1 (trace m) ->
  (forall a, outcome m = Ok a -> fetch_plan Q n2 (trace (k a))) ->
  fetch_plan Q (n1 + n2) (trace (bind m k)).
Proof.
  intros [Hq Hn] Hk. unfold fetch_plan. rewrite trace_bind.
  destruct (outcome m) as [a | e |]; [| split; [done | lia] | split; [done | lia]].
  destruct (Hk a eq_refl) as [Hq' Hn']. rewrite fetches_app, length_app.
  split; [by apply Forall_app | lia].
Qed.

(** A table is fetched in one to three attempts, numbered from 1. *)
Lemma get_terra_table_to_df_fetches ws t :
  exists n, 1 <= n <= 3
            /\ fetches (trace (get_terra_table_to_df ws t)) = map (pair t) (seq 1 n).
Proof.
  unfold get_terra_table_to_df, retry. cbn [retry_from Nat.sub retry_always].
  destruct (get_terra_table_to_df_body_cases ws t 1) as [[df1 ->] | [e1 ->]];
    [exists 1; split; [lia | done] |].
  destruct (get_terra_table_to_df_body_cases ws t 2) as [[df2 ->] | [e2 ->]];
    [exists 2; split; [lia | done] |].
  destruct (get_terra_table_to_df_body_cases ws t 3) as [[df3 ->] | [e3 ->]];
    exists 3; (split; [lia | done]).
Qed.

Lemma get_gen3_terra_table_to_df_plan (Q : string * nat -> Prop) ws t :
  (forall k, 1 <= k <= 3 -> Q (t, k)) ->
  fetch_plan Q 1 (trace (get_gen3_terra_table_to_df ws t)).
Proof.
  intros Hq. unfold get_gen3_terra_table_to_df.
  apply (fetch_plan_bind Q 1 0); [| intros; by apply fetch_plan_quiet].
  destruct (get_terra_table_to_df_fetches ws t) as (n & Hn & Hf).
  unfold fetch_plan. rewrite Hf, length_map, length_seq. split; [| lia].
  apply Forall_forall. intros f Hin.
  apply elem_of_map in Hin as (k & -> & Hk%elem_of_seq). apply Hq. lia.
Qed.

Section FetchPlan.

Variable merge : DataFrame -> DataFrame -> gmap string pyval -> exn + DataFrame.

(** The part of a turn of the join loop that follows the fetch. *)
Lemma join_after_fetch_quiet p (merged_df current_df : DataFrame) t :
  clean not_fetch
    (let! (merged_opt, current_df) :=
       if decide (t = "sample") then
         _deduplicate_merge_data (Some merged_df) current_df "sample"
           (get_entity_id_column_name "subject")
       else ret (Some merged_df, current_df) in
     let merged_df := default merged_df merged_opt in
     let! on := getitem p "on" in
     let! how := getitem p "how" in
     let! merged_df := call (merge merged_df current_df p) in
     let merged_df := drop_duplicated_columns merged_df in
     emit (LogInfo (MsgMerged t on how (shape0 merged_df) (shape1 merged_df)));;
     ret merged_df).
Proof.
  apply clean_bind.
  { case_decide; [by apply clean_deduplicate | apply clean_ret]. }
  intros [merged_opt current']. apply clean_bind; [apply clean_getitem | intros on].
  apply clean_bind; [apply clean_getitem | intros how].
  apply clean_bind; [apply clean_call | intros merged].
  apply clean_bind; [by apply clean_emit | intros; apply clean_ret].
Qed.

Lemma join_one_plan (Q : string * nat -> Prop) ws p d t :
  (listed ws t -> forall k, 1 <= k <= 3 -> Q (t, k)) ->
  fetch_plan Q 1 (trace (join_one merge ws p d t)).
Proof.
  intros Hq. unfold join_one.
  apply (fetch_plan_bind Q 0 1); [apply fetch_plan_quiet, clean_get_table_names |].
  intros names Hnames. case_bool_decide as Hin.
  { apply fetch_plan_quiet.
    apply clean_bind; [by apply clean_emit | intros; apply clean_ret]. }
  apply (fetch_plan_bind Q 1 0).
  - apply get_gen3_terra_table_to_df_plan. apply Hq. unfold listed. rewrite Hnames.
    by destruct (decide (t ∈ names)).
  - intros current _. apply fetch_plan_quiet, join_after_fetch_quiet.
Qed.

Lemma join_tables_plan (Q : string * nat -> Prop) ws names p d :
  (forall t, t ∈ names -> listed ws t -> forall k, 1 <= k <= 3 -> Q (t, k)) ->
  fetch_plan Q (length names) (trace (join_tables merge ws names p d)).
Proof.
  revert d. induction names as [|t names IH]; intros d Hq; cbn [join_tables length].
  - by apply fetch_plan_quiet.
  - apply (fetch_plan_bind Q 1 (length names)).
    + apply join_one_plan. apply Hq. by left.
    + intros d1 _. apply IH. intros t' Ht'. apply Hq. by right.
Qed.

Lemma consolidate_tables_to_df_plan (Q : string * nat -> Prop) ws names p initial_df :
  (forall t, t ∈ names -> listed ws t -> forall k, 1 <= k <= 3 -> Q (t, k)) ->
  (initial_df = None ->
   forall t, head names = Some t -> forall k, 1 <= k <= 3 -> Q (t, k)) ->
  fetch_plan Q (length names)
    (trace (consolidate_tables_to_df merge ws names p initial_df)).
Proof.
  intros Hq Hseed. unfold consolidate_tables_to_df. destruct initial_df as [d |].
  - apply (fetch_plan_bind Q 0 (length names)).
    + apply fetch_plan_quiet, clean_assert.
    + intros _ _. by apply join_tables_plan.
  - destruct names as [|first names].
    { by apply fetch_plan_quiet. }
    cbn [hd tail length]. apply (fetch_plan_bind Q 0 (1 + length names)).
    { apply fetch_plan_quiet, clean_assert. }
    intros _ _. apply (fetch_plan_bind Q 1 (length names)).
    { apply get_gen3_terra_table_to_df_plan. by apply Hseed. }
    intros first_df _. apply (fetch_plan_bind Q 0 (length names)).
    { apply fetch_plan_quiet.
      case_decide; [by apply clean_deduplicate | apply clean_ret]. }
    intros [none first_df'] _. apply join_tables_plan.
    intros t Ht. apply Hq. by right.
Qed.

Lemma consolidate_steps_plan ws dmp steps merged prev :
  let names := concat (map table_names steps) in
  fetch_plan
    (fun f => fst f ∈ names /\ 1 <= snd f <= 3
              /\ (listed ws (fst f) \/ (merged = None /\ head names = Some (fst f))))
    (length names) (trace (consolidate_steps merge ws dmp steps merged prev)).
Proof.
  cbv zeta. revert merged prev.
  induction steps as [|s steps IH]; intros merged prev; cbn [consolidate_steps].
  { by apply fetch_plan_quiet. }
  cbn [map concat]. rewrite length_app.
  apply fetch_plan_bind.
  - apply consolidate_tables_to_df_plan.
    + intros t Ht Hl k Hk. cbn [fst snd].
      split; [apply elem_of_app; by left |]. split; [done | by left].
    + intros -> t Ht k Hk. cbn [fst snd].
      assert (Hin : t ∈ table_names s).
      { destruct (table_names s) as [|t' ?]; [done |]. injection Ht as ->. by left. }
      split; [apply elem_of_app; by left |]. split; [done |]. right. split; [done |].
      destruct (table_names s) as [|t' ?]; [done |]. done.
  - intros d _. apply (fetch_plan_bind _ 0 (length (concat (map table_names steps)))).
    { apply fetch_plan_quiet. unfold row_count_check.
      repeat case_decide; by try apply clean_emit. }
    intros _ _.
    destruct (IH (Some d) (Z.of_nat (shape0 d))) as [Hq Hn]. split; [| done].
    eapply Forall_impl; [exact Hq |]. intros f (Hin & Hk & Hl). cbn beta in *.
    split; [apply elem_of_app; by right |]. split; [done |].
    destruct Hl as [Hl | [? _]]; [by left | done].
Qed.

(** A run fetches only tables that its steps name, each in attempts
    numbered from 1 to 3 and at most three times for each time it is
    named.  A table that the registry does not list is never fetched,
    unless it is the first table of the first step. *)
Theorem consolidate_to_df_fetches ws merge_spec :
  let names := concat (map table_names (merge_sequence merge_spec)) in
  let tr := trace (consolidate_to_df merge ws merge_spec) in
  Forall (planned ws names) (fetches tr) /\ length (fetches tr) <= 3 * length names.
Proof.
  cbv zeta. unfold consolidate_to_df.
  destruct (consolidate_steps_plan ws (spec_default_merge_parameters merge_spec)
              (merge_sequence merge_spec) None (-1)) as [Hq Hn].
  split; [| done]. eapply Forall_impl; [exact Hq |].
  intros f (Hin & Hk & Hl). unfold planned. split; [done |]. split; [done |].
  destruct Hl as [Hl | [_ Hseed]]; [by left | by right].
Qed.

End FetchPlan.

(** ** Table deleter: the chunks of entity ids *)

Lemma sections_of_concat {A} (section_sizes : list nat) (ary : list A) :
  sum_list section_sizes = length ary -> concat (sections_of section_sizes ary) = ary.
Proof.
  revert ary. induction section_sizes as [|n sizes IH]; intros ary Hsum;
    simpl in *.
  - symmetry. by apply length_zero_iff_nil.
  - rewrite IH; [apply take_drop |]. rewrite length_drop. lia.
Qed.

Lemma sections_of_lengths {A} (section_sizes : list nat) (ary : list A) :
  sum_list section_sizes <= length ary ->
  map length (sections_of section_sizes ary) = section_sizes.
Proof.
  revert ary. induction section_sizes as [|n sizes IH]; intros ary Hsum;
    simpl in *; [done |].
  rewrite length_take, IH; [f_equal; lia |]. rewrite length_drop. lia.
Qed.

(** A table of fewer than 100 entities cannot be deleted: the number of
    chunks is 0 and [np.array_split] raises [ValueError].  From 100
    entities on, the ids are cut into [size // 100] consecutive chunks that
    hold every id once, in order, each of 100 to 199 ids. *)
Theorem deletion_chunks_sizes (entity_id_series : list value) :
  (length entity_id_series < 100 ->
   deletion_chunks entity_id_series
   = inl (ValueError "number sections must be larger than 0."))
  /\ (100 <= length entity_id_series ->
      exists chunks,
        deletion_chunks entity_id_series = inr chunks
        /\ concat chunks = entity_id_series
        /\ length chunks = length entity_id_series / 100
        /\ Forall (fun chunk => 100 <= length chunk < 200) chunks).
Proof.
  unfold deletion_chunks, array_split. cbv zeta.
  set (n := length entity_id_series).
  split.
  - intros Hn. rewrite decide_True; [done |].
    assert (Z.of_nat n / 100 = 0)%Z as ->; [| done].
    apply Z.div_small. lia.
  - intros Hn.
    assert (Hk : Z.to_nat (Z.of_nat n / 100) = n / 100).
    { rewrite <- (Nat2Z.id (n / 100)). f_equal. by rewrite Nat2Z.inj_div. }
    rewrite Hk. set (k := n / 100).
    assert (Hk1 : 1 <= k) by (apply Nat.div_le_lower_bound; lia).
    rewrite decide_False.
    2: { assert (Z.of_nat n / 100 = Z.of_nat k)%Z as ->; [| lia].
         unfold k. by rewrite Nat2Z.inj_div. }
    pose proof (Nat.div_mod_eq n 100) as H100.
    pose proof (Nat.mod_upper_bound n 100 ltac:(lia)) as Hr100.
    pose proof (Nat.div_mod_eq n k) as Hdiv.
    pose proof (Nat.mod_upper_bound n k ltac:(lia)) as Hmod.
    fold k in H100.
    set (q := n / k) in *. set (e := n mod k) in *.
    assert (Hq : 100 <= q) by nia.
    assert (Hq' : q < 200) by nia.
    assert (He : 0 < e -> q + 1 < 200) by (intros; nia).
    assert (Hsum : sum_list (replicate e (q + 1) ++ replicate (k - e) q) = n).
    { rewrite sum_list_with_app, !sum_list_replicate. nia. }
    eexists. split; [done |]. split; [by apply sections_of_concat |]. split.
    + rewrite <- (length_map length), sections_of_lengths by (fold n; lia).
      rewrite length_app, !length_replicate. lia.
    + apply Forall_forall. intros chunk Hin.
      assert (Hlen : length chunk ∈ replicate e (q + 1) ++ replicate (k - e) q).
      { rewrite <- (sections_of_lengths _ entity_id_series) by (fold n; lia).
        apply elem_of_map. by exists chunk. }
      apply elem_of_app in Hlen as [Hlen | Hlen];
        apply elem_of_replicate in Hlen as [-> Hpos]; lia.
Qed.

Lemma deletion_chunks_sizes_witness :
  deletion_chunks [VStr "s1"; VStr "s2"; VStr "s3"]
  = inl (ValueError "number sections must be larger than 0.")
  /\ exists chunks,
       deletion_chunks (replicate 250 (VStr "s")) = inr chunks
       /\ length chunks = 2.
Proof.
  split.
  - apply (deletion_chunks_sizes [VStr "s1"; VStr "s2"; VStr "s3"]). simpl. lia.
  - destruct (proj2 (deletion_chunks_sizes (replicate 250 (VStr "s"))))
      as (chunks & Hrun & _ & Hlen & _).
    { rewrite length_replicate. lia. }
    exists chunks. split; [done |]. by rewrite Hlen, length_replicate.
Defined.

(** ** Merge planner: the specification after a run *)

Section SpecificationAfterRun.

Variable merge : DataFrame -> DataFrame -> gmap string pyval -> exn + DataFrame.

(** A run changes the specification it is given only in the join type of
    its [default_merge_parameters], which becomes [default_join_type]; the
    change is the same at every run, so that a second run with the same
    specification has the parameters, the outcome and the events of the
    first. *)
Theorem consolidate_to_df_again ws merge_spec :
  spec_default_merge_parameters (specification_after_run merge_spec)
  = spec_default_merge_parameters merge_spec
  /\ consolidate_to_df merge ws (specification_after_run merge_spec)
     = consolidate_to_df merge ws merge_spec
  /\ specification_after_run (specification_after_run merge_spec)
     = specification_after_run merge_spec
  /\ (forall d t,
        default_merge_parameters merge_spec = Some d ->
        default_join_type merge_spec = Some t ->
        default_merge_parameters (specification_after_run merge_spec)
        = Some (<["how" := t]> d))
  /\ (default_join_type merge_spec = None ->
      specification_after_run merge_spec = merge_spec).
Proof.
  assert (Hsame : spec_default_merge_parameters (specification_after_run merge_spec)
                  = spec_default_merge_parameters merge_spec).
  { unfold specification_after_run, spec_default_merge_parameters.
    cbn [default_merge_parameters default_join_type].
    destruct (default_merge_parameters merge_spec) as [d |]; [| done].
    destruct (default_join_type merge_spec) as [t |]; [| done].
    apply insert_insert_eq. }
  split; [done |]. split; [| split; [| split]].
  - unfold consolidate_to_df. by rewrite Hsame.
  - destruct merge_spec as [[d |] t steps c]; [| done].
    unfold specification_after_run at 1.
    cbn [default_merge_parameters default_join_type merge_sequence
         final_index_source_column] in *.
    by rewrite Hsame.
  - intros d t Hd Ht. unfold specification_after_run, spec_default_merge_parameters.
    cbn [default_merge_parameters]. by rewrite Hd, Ht.
  - intros Ht. destruct merge_spec as [[d |] t steps c]; cbn in Ht; by subst.
Qed.

End SpecificationAfterRun.

Lemma consolidate_to_df_again_witness :
  default_merge_parameters (specification_after_run torn_spec)
  = Some {["how" := PStr "inner"]}.
Proof.
  rewrite (proj1 (proj2 (proj2 (proj2 (consolidate_to_df_again merge_ref clinic torn_spec))))
             {["how" := PStr "left"]} (PStr "inner") eq_refl eq_refl).
  reflexivity.
Defined.
